(** * MealVista authentication backend: OTP store, rate limiter, auth routes

    A shallow embedding of

      - [models/OTP.js] (reproduced at the end of OTP_COMPLETE_GUIDE.md):
        the OTP schema, its methods and its statics;
      - [routes/otp-auth.js]: [checkRateLimit], the validation helpers
        and the seven route handlers;
      - [services/emailService.js]: [sendEmail] and its two public
        wrappers;
      - [routes/google.js]: the list of configured audiences;
      - the forgot-password and the two reset-password screens: their
        input checks and the request each of them posts;
      - [lib/api.ts]: [getBaseURL];

    followed by the properties of the specification that concern them,
    and by further properties of the same code.  The Google sign-in
    handler and the admin routes are left out: they depend on the User
    schema, on [adminAuth] and on Google's token verification, none of
    which is among the sources.

    Conventions.  JavaScript numbers that hold integers (timestamps in
    milliseconds, counters, HTTP statuses) are [Z]; every such quantity
    in this program stays far below 2^53, where binary64 arithmetic on
    integers is exact.  The two places where the program really computes
    with fractions ([Math.random() * 900000] and the minutes estimate of
    the rate limiter) go through [Double], which rounds every operation
    to binary64.  Strings are [string] (the character predicates cover
    ASCII); request fields that may be absent are [option string], and
    the empty string is falsy as in JavaScript.  A MongoDB collection is
    the list of its documents in insertion order together with the next
    free [_id].

    Scope.  Text is ASCII: [length], [trim], [toLowerCase] and the
    classes [\s], [a-z], [A-Z] and [\d] are those of ASCII strings.  A
    request field is a string or absent; a field of another JSON type
    makes a handler throw inside its [try] and answer the catch-all 500
    "Server error".  The same happens where the schema's [required]
    validator refuses a record, which it does for a blank normalised
    address: [create] is modelled for the records it accepts.  These
    requests are outside the embedding; the catch-all 500 is counted
    among the answers of every route where the statuses are listed.

    A request is served from start to end without another request in
    between, and reads the clock once: [now] is the same at every
    [Date.now()] and [new Date()] of one request.  The database does not
    fail; the only exception that occurs is the one [sendEmail] throws. *)

From Stdlib Require Import ZArith QArith Qround Qpower Lia Lqa Ascii String.
From stdpp Require Import gmap strings list.

Open Scope string_scope.
Open Scope Z_scope.

(* ===================================================================== *)
(** * Numbers *)
(* ===================================================================== *)

(** IEEE-754 binary64 values as the rationals they denote.  [round] is
    round-to-nearest, ties-to-even, to 53 significant bits, with an
    unbounded exponent: overflow does not occur at the magnitudes of this
    program, and a product small enough to be subnormal vanishes in the
    addition that follows it. *)
Module Double.

Definition pow2 (e : Z) : Q := (2 ^ e)%Q.

(** floor(log2 x) for x > 0 *)
Definition ilog2 (x : Q) : Z :=
  let e0 := Z.log2 (Qnum x) - Z.log2 (Z.pos (Qden x)) in
  if Qle_bool (pow2 e0) x then e0 else e0 - 1.

(** nearest integer, ties to even *)
Definition rne (x : Q) : Z :=
  let f := Qfloor x in
  match (x - inject_Z f ?= 1 # 2)%Q with
  | Lt => f
  | Gt => f + 1
  | Eq => if Z.even f then f else f + 1
  end.

Definition round_pos (x : Q) : Q :=
  let e := ilog2 x - 52 in
  (inject_Z (rne (x / pow2 e)) * pow2 e)%Q.

Definition round (x : Q) : Q :=
  match Qnum x with
  | Z0 => 0%Q
  | Z.pos _ => round_pos x
  | Z.neg _ => (- round_pos (- x))%Q
  end.

Definition representable (x : Q) : Prop := (round x == x)%Q.

Definition mul (x y : Q) : Q := round (x * y).
Definition add (x y : Q) : Q := round (x + y).
Definition div (x y : Q) : Q := round (x / y).


(** [Math.floor], [Math.ceil] *)
Definition floor (x : Q) : Z := Qfloor x.
Definition ceil (x : Q) : Z := Qceiling x.

End Double.

(** [Number.prototype.toString] on an integer value (plain decimal
    notation, which is what JavaScript prints below 10^21). *)
Definition digit_char (d : Z) : ascii := ascii_of_nat (48 + Z.to_nat d).

Fixpoint to_digits (fuel : nat) (n : Z) (acc : string) : string :=
  match fuel with
  | O => acc
  | S fuel' =>
      let acc' := String (digit_char (n mod 10)) acc in
      if n / 10 =? 0 then acc' else to_digits fuel' (n / 10) acc'
  end.

Definition toString (n : Z) : string :=
  if n <? 0
  then String "-" (to_digits (S (Z.to_nat (Z.log2 (- n)))) (- n) "")
  else to_digits (S (Z.to_nat (Z.log2 n))) n "".

Definition is_digit (c : ascii) : bool :=
  (48 <=? nat_of_ascii c)%nat && (nat_of_ascii c <=? 57)%nat.

(** The number a string of decimal digits denotes ([Number(s)] on such a
    string); [None] when a character is not a digit or the string is
    empty. *)
Fixpoint digits_value (s : string) (acc : Z) : option Z :=
  match s with
  | EmptyString => Some acc
  | String c s' =>
      if is_digit c
      then digits_value s' (10 * acc + (Z.of_nat (nat_of_ascii c) - 48))
      else None
  end.

Definition parseDecimal (s : string) : option Z :=
  match s with
  | EmptyString => None
  | _ => digits_value s 0
  end.

(* ===================================================================== *)
(** * Strings *)
(* ===================================================================== *)

Definition is_upper (c : ascii) : bool :=
  (65 <=? nat_of_ascii c)%nat && (nat_of_ascii c <=? 90)%nat.
Definition is_lower (c : ascii) : bool :=
  (97 <=? nat_of_ascii c)%nat && (nat_of_ascii c <=? 122)%nat.

(** [\s] restricted to ASCII: space, TAB, LF, VT, FF, CR *)
Definition is_whitespace (c : ascii) : bool :=
  let n := nat_of_ascii c in
  (n =? 32)%nat || ((9 <=? n)%nat && (n <=? 13)%nat).

Definition lower_char (c : ascii) : ascii :=
  if is_upper c then ascii_of_nat (nat_of_ascii c + 32) else c.

Fixpoint toLowerCase (s : string) : string :=
  match s with
  | EmptyString => EmptyString
  | String c s' => String (lower_char c) (toLowerCase s')
  end.

Fixpoint trimStart (s : string) : string :=
  match s with
  | EmptyString => EmptyString
  | String c s' => if is_whitespace c then trimStart s' else s
  end.

Fixpoint trimEnd (s : string) : string :=
  match s with
  | EmptyString => EmptyString
  | String c s' =>
      match trimEnd s' with
      | EmptyString => if is_whitespace c then EmptyString else String c EmptyString
      | t => String c t
      end
  end.

Definition trim (s : string) : string := trimEnd (trimStart s).

Fixpoint existsb_string (p : ascii -> bool) (s : string) : bool :=
  match s with
  | EmptyString => false
  | String c s' => p c || existsb_string p s'
  end.

(** Every character is a decimal digit. *)
Definition all_digits (s : string) : bool :=
  negb (existsb_string (fun c => negb (is_digit c)) s).

(** [s.includes(t)] *)
Definition includes (s t : string) : bool :=
  match String.index 0 t s with
  | Some _ => true
  | None => false
  end.

(** [s.endsWith(t)] *)
Definition endsWith (s t : string) : bool :=
  let ls := String.length s in
  let lt := String.length t in
  (lt <=? ls)%nat && String.eqb (String.substring (ls - lt) lt s) t.

(** JavaScript truthiness of a request field *)
Definition truthy (f : option string) : bool :=
  match f with
  | Some s => negb (String.eqb s "")
  | None => false
  end.

Definition field (f : option string) : string := default "" f.

Definition present {A} (f : option A) : bool :=
  match f with
  | Some _ => true
  | None => false
  end.

(* ===================================================================== *)
(** * The runtime a request executes in *)
(* ===================================================================== *)

(** The random generators the platform offers: [Math.random] (a
    general-purpose xorshift generator, seeded once per process) and the
    [crypto] module's generator. *)
Inductive RandomSource : Type :=
  | MathRandom
  | CryptoRandom.

Definition cryptographically_sound (s : RandomSource) : bool :=
  match s with
  | MathRandom => false
  | CryptoRandom => true
  end.

(** What nodemailer's [transporter.sendMail] does with a message. *)
Record SmtpError : Type := mkSmtpError {
  code : string;
  responseCode : Z;
  error_message : string;
}.

Inductive Transport : Type :=
  | NoTransporter                (* development without SMTP credentials *)
  | Accepts                      (* sendMail resolves *)
  | Rejects (e : SmtpError).     (* sendMail throws *)

(** Everything a handler reads from outside the process while it serves
    one request: the clock, the next draw of each random generator, the
    behaviour of the mail transport, the signing secret and bcrypt. *)
Record Env : Type := mkEnv {
  now : Z;                                   (* Date.now(), milliseconds *)
  random : RandomSource -> Q;                (* next draw, in [0, 1) *)
  smtp : Transport;
  JWT_SECRET : string;
  bcrypt_hash : string -> string;            (* bcrypt.hash(pw, 10) *)
  bcrypt_compare : string -> string -> bool; (* bcrypt.compare(pw, hash) *)
}.

(* ===================================================================== *)
(** * models/OTP.js *)
(* ===================================================================== *)

Module OTP.

(** [enum: ['email_verification', 'password_reset']] *)
Inductive Purpose : Type :=
  | email_verification
  | password_reset.

#[global] Instance Purpose_eq_dec : EqDecision Purpose.
Proof. solve_decision. Defined.

Definition purpose_eqb (a b : Purpose) : bool :=
  match a, b with
  | email_verification, email_verification => true
  | password_reset, password_reset => true
  | _, _ => false
  end.

(** The purpose a string names, if it is one of the two of the enum *)
Definition purpose_of_string (s : string) : option Purpose :=
  if String.eqb s "email_verification" then Some email_verification
  else if String.eqb s "password_reset" then Some password_reset
  else None.

Record doc : Type := mkDoc {
  _id : nat;
  email : string;
  otp : string;
  purpose : Purpose;
  attempts : Z;
  expiresAt : Z;
  verified : bool;
  createdAt : Z;
}.

Record collection : Type := mkCollection {
  docs : list doc;
  next_id : nat;
}.

Definition empty : collection := mkCollection [] 0.

(** Result object of [verifyOTP] *)
Record result : Type := mkResult {
  success : bool;
  message : string;
  attemptsRemaining : option Z;
}.

(** [otpSchema.methods.isExpired] *)
Definition isExpired (now : Z) (d : doc) : bool := expiresAt d <? now.

(** [otpSchema.methods.hasExceededAttempts] *)
Definition hasExceededAttempts (d : doc) : bool := 3 <=? attempts d.

(** [otpSchema.statics.generateOTP]:
    [Math.floor(100000 + Math.random() * 900000).toString()] *)
Definition generateOTP (env : Env) : string :=
  toString
    (Double.floor
       (Double.add 100000 (Double.mul (random env MathRandom) 900000))).

(** The [email] path is declared [lowercase: true, trim: true]: Mongoose
    applies the two setters to the value a document is created with and,
    when it casts a filter, to the value that is looked for. *)
Definition email_setters (e : string) : string := trim (toLowerCase e).

(** The filter [{ email, purpose, verified: false }] *)
Definition matches (e : string) (p : Purpose) (d : doc) : bool :=
  String.eqb (email d) (email_setters e) && purpose_eqb (purpose d) p
  && negb (verified d).

(** [deleteMany({ email, purpose, verified: false })] *)
Definition deleteMany (e : string) (p : Purpose) (c : collection) : collection :=
  mkCollection (List.filter (fun d => negb (matches e p d)) (docs c)) (next_id c).

(** [this.create({ email, otp, purpose, expiresAt })]: schema defaults
    fill [attempts], [verified] and [createdAt]. *)
Definition create (now : Z) (e o : string) (p : Purpose) (exp : Z) (c : collection)
  : doc * collection :=
  let d := mkDoc (next_id c) (email_setters e) o p 0 exp false now in
  (d, mkCollection (docs c ++ [d]) (S (next_id c))).

(** [doc.deleteOne()] *)
Definition deleteOne (d : doc) (c : collection) : collection :=
  mkCollection (List.filter (fun x => negb (Nat.eqb (_id x) (_id d))) (docs c))
               (next_id c).

(** [doc.save()] of a document that is already stored *)
Definition save (d : doc) (c : collection) : collection :=
  mkCollection (List.map (fun x => if Nat.eqb (_id x) (_id d) then d else x) (docs c))
               (next_id c).

(** [.sort({ createdAt: -1 })] followed by taking the first document:
    the greatest [createdAt], the earliest inserted among equals. *)
Fixpoint most_recent (best : option doc) (l : list doc) : option doc :=
  match l with
  | [] => best
  | d :: l' =>
      match best with
      | None => most_recent (Some d) l'
      | Some b =>
          if createdAt b <? createdAt d
          then most_recent (Some d) l'
          else most_recent best l'
      end
  end.

(** [findOne({ email, purpose, verified: false }).sort({ createdAt: -1 })] *)
Definition findOne (e : string) (p : Purpose) (c : collection) : option doc :=
  most_recent None (List.filter (matches e p) (docs c)).

(** [otpSchema.statics.createOTP] *)
Definition createOTP (env : Env) (e : string) (p : Purpose) (expiryMinutes : Z)
           (c : collection) : doc * collection :=
  let c1 := deleteMany e p c in
  let o := generateOTP env in
  let exp := now env + expiryMinutes * 60 * 1000 in
  create (now env) e o p exp c1.

Definition with_attempts (a : Z) (d : doc) : doc :=
  mkDoc (_id d) (email d) (otp d) (purpose d) a (expiresAt d) (verified d) (createdAt d).

Definition with_verified (v : bool) (d : doc) : doc :=
  mkDoc (_id d) (email d) (otp d) (purpose d) (attempts d) (expiresAt d) v (createdAt d).

(** [otpSchema.statics.verifyOTP] *)
Definition verifyOTP (env : Env) (e o : string) (p : Purpose) (c : collection)
  : result * collection :=
  match findOne e p c with
  | None => (mkResult false "OTP not found or already used" None, c)
  | Some otpDoc =>
      if isExpired (now env) otpDoc then
        (mkResult false "OTP has expired. Please request a new one" None,
         deleteOne otpDoc c)
      else if hasExceededAttempts otpDoc then
        (mkResult false "Too many failed attempts. Please request a new OTP" None,
         deleteOne otpDoc c)
      else if negb (String.eqb (otp otpDoc) o) then
        let otpDoc := with_attempts (attempts otpDoc + 1) otpDoc in
        (mkResult false
           ("Invalid OTP. " +:+ toString (3 - attempts otpDoc) +:+ " attempts remaining")
           (Some (3 - attempts otpDoc)),
         save otpDoc c)
      else
        let otpDoc := with_verified true otpDoc in
        let otpDoc := with_attempts (attempts otpDoc + 1) otpDoc in
        (mkResult true "OTP verified successfully" None, save otpDoc c)
  end.

End OTP.

(* ===================================================================== *)
(** * The user collection *)
(* ===================================================================== *)

Module User.

(** Modelled from the spec: the User schema ([models/User.js]) is not
    among the sources.  The record has the fields the handlers read and
    write: identity key, password hash, email-verified flag and
    timestamp, soft-delete flag, last-login timestamp, role, lockout
    bookkeeping. *)
Record doc : Type := mkDoc {
  _id : nat;
  name : string;
  email : string;
  password : string;
  isEmailVerified : bool;
  emailVerifiedAt : option Z;
  isDeleted : bool;
  lastLoginAt : option Z;
  role : option string;
  isAdmin : bool;
  passwordResetAt : option Z;
  failedLoginAttempts : Z;
  accountLockedUntil : option Z;
}.

Record collection : Type := mkCollection {
  docs : list doc;
  next_id : nat;
}.

Definition empty : collection := mkCollection [] 0.

(** [User.findOne({ email })] *)
Definition findOne (e : string) (c : collection) : option doc :=
  List.find (fun u => String.eqb (email u) e) (docs c).

(** [User.create({ name, email, password, isEmailVerified, emailVerifiedAt })];
    the paths the caller does not pass are left unset ([role], which the
    handlers read as [role || 'user']) or at their zero. *)
Definition create (n e pw : string) (v : bool) (at_ : option Z) (c : collection)
  : doc * collection :=
  let u := mkDoc (next_id c) n e pw v at_ false None None false None 0 None in
  (u, mkCollection (docs c ++ [u]) (S (next_id c))).

(** [user.save()] *)
Definition save (u : doc) (c : collection) : collection :=
  mkCollection (List.map (fun x => if Nat.eqb (_id x) (_id u) then u else x) (docs c))
               (next_id c).

End User.

(* ===================================================================== *)
(** * jsonwebtoken *)
(* ===================================================================== *)

(** The claims this program puts in a token: [{ userId }] for a session,
    [{ email, purpose }] for a password reset. *)
Record Payload : Type := mkPayload {
  userId : option nat;
  claim_email : option string;
  claim_purpose : option string;
}.

(** A token string as what it decodes to: either nothing ([Malformed]) or
    a payload signed with some key and carrying an [exp] claim in
    seconds. *)
Inductive Jwt : Type :=
  | Malformed
  | Signed (key : string) (exp : Z) (payload : Payload).

(** [jwt.sign(payload, secret, { expiresIn })], [expiresIn] in seconds *)
Definition jwt_sign (env : Env) (p : Payload) (expiresIn : Z) : Jwt :=
  Signed (JWT_SECRET env) (now env / 1000 + expiresIn) p.

(** [jwt.verify(token, secret)]: the payload, or [None] where the library
    throws (bad signature, malformed token, [exp] reached). *)
Definition jwt_verify (env : Env) (t : Jwt) : option Payload :=
  match t with
  | Malformed => None
  | Signed key exp p =>
      if String.eqb key (JWT_SECRET env) && (now env / 1000 <? exp)
      then Some p else None
  end.

(** The credential's purpose tag, whatever its signature *)
Definition purpose_tag (t : Jwt) : option string :=
  match t with
  | Malformed => None
  | Signed _ _ p => claim_purpose p
  end.

(* ===================================================================== *)
(** * routes/otp-auth.js: helpers *)
(* ===================================================================== *)

Record RateRecord : Type := mkRateRecord {
  count : Z;
  resetTime : Z;
}.

Record RateLimit : Type := mkRateLimit {
  allowed : bool;
  remaining : Z;
  resetIn : option Z;
}.

(** [Math.ceil((record.resetTime - now) / 1000 / 60)] *)
Definition minutes_until (ms : Z) : Z :=
  Double.ceil (Double.div (Double.div (inject_Z ms) 1000) 60).

(** [checkRateLimit(key, maxAttempts, windowMs)] on the module-level
    [rateLimitMap]; the in-place [record.count += 1] on the stored object
    is the re-insertion of the updated record. *)
Definition checkRateLimit (now : Z) (key : string) (maxAttempts windowMs : Z)
           (rateLimitMap : gmap string RateRecord)
  : RateLimit * gmap string RateRecord :=
  match rateLimitMap !! key with
  | None =>
      (mkRateLimit true (maxAttempts - 1) None,
       <[key := mkRateRecord 1 (now + windowMs)]> rateLimitMap)
  | Some record =>
      if resetTime record <? now then
        (mkRateLimit true (maxAttempts - 1) None,
         <[key := mkRateRecord 1 (now + windowMs)]> rateLimitMap)
      else if maxAttempts <=? count record then
        (mkRateLimit false 0 (Some (minutes_until (resetTime record - now))),
         rateLimitMap)
      else
        let record := mkRateRecord (count record + 1) (resetTime record) in
        (mkRateLimit true (maxAttempts - count record) None,
         <[key := record]> rateLimitMap)
  end.

(** The same limiter called repeatedly, once at each of the given times. *)
Fixpoint checkRateLimit_at (times : list Z) (key : string) (maxAttempts windowMs : Z)
         (m : gmap string RateRecord) : list RateLimit * gmap string RateRecord :=
  match times with
  | [] => ([], m)
  | t :: times' =>
      let '(r, m1) := checkRateLimit t key maxAttempts windowMs m in
      let '(rs, m2) := checkRateLimit_at times' key maxAttempts windowMs m1 in
      (r :: rs, m2)
  end.

(** [/^[^\s@]+@[^\s@]+\.[^\s@]+$/]: no whitespace, exactly one [@] with
    something before it, and after it a dot that is neither the first nor
    the last character. *)
Definition is_at (c : ascii) : bool := Ascii.eqb c "@"%char.
Definition is_dot (c : ascii) : bool := Ascii.eqb c "."%char.

Fixpoint split_at (s : string) (acc : string) : option (string * string) :=
  match s with
  | EmptyString => None
  | String c s' =>
      if is_at c then Some (acc, s') else split_at s' (acc +:+ String c EmptyString)
  end.

Fixpoint inner_dot (s : string) : bool :=
  match s with
  | String _ (String c rest as s') =>
      (is_dot c && negb (String.eqb rest "")) || inner_dot s'
  | _ => false
  end.

Definition isValidEmail (e : string) : bool :=
  negb (existsb_string is_whitespace e) &&
  match split_at e "" with
  | Some (local_part, domain) =>
      negb (String.eqb local_part "") &&
      negb (existsb_string is_at domain) &&
      inner_dot domain
  | None => false
  end.

Definition isGmailAddress (e : string) : bool :=
  endsWith (toLowerCase e) "@gmail.com".

Definition isStrongPassword (pw : string) : bool :=
  (8 <=? String.length pw)%nat &&
  existsb_string is_upper pw &&
  existsb_string is_lower pw &&
  existsb_string is_digit pw.

(* ===================================================================== *)
(** * services/emailService.js *)
(* ===================================================================== *)

Inductive Template : Type := verifyEmail | resetPassword.

Record Mail : Type := mkMail {
  mail_to : string;
  mail_template : Template;
  mail_otp : string;
  mail_expiryMinutes : Z;
}.

(** [sendEmail(to, template, data)]: [inl] the delivered mails (none when
    the message is only logged to the console), [inr] the message of the
    [Error] it throws. *)
Definition sendEmail (env : Env) (m : Mail) : list Mail + string :=
  match smtp env with
  | NoTransporter => inl []
  | Accepts => inl [m]
  | Rejects e =>
      if String.eqb (code e) "EAUTH" then
        inr "Email authentication failed. Please check email configuration."
      else if String.eqb (code e) "ESOCKET" then
        inr "Unable to connect to email server."
      else if responseCode e =? 535 then
        inr "Invalid email credentials. Please verify your email settings."
      else
        inr ("Failed to send email: " +:+ error_message e)
  end.

Definition sendVerificationEmail (env : Env) (to o : string) (expiryMinutes : Z) :=
  sendEmail env (mkMail to verifyEmail o expiryMinutes).

Definition sendPasswordResetEmail (env : Env) (to o : string) (expiryMinutes : Z) :=
  sendEmail env (mkMail to resetPassword o expiryMinutes).

(* ===================================================================== *)
(** * routes/otp-auth.js: requests, responses and the handler monad *)
(* ===================================================================== *)

Module Req.
(** [req.body] *)
Record body : Type := mkBody {
  name : option string;
  email : option string;
  password : option string;
  otp : option string;
  purpose : option string;
  newPassword : option string;
  resetToken : option Jwt;
}.
Definition empty : body := mkBody None None None None None None None.
End Req.

Module Res.
Record user_view : Type := mkUserView {
  id : nat;
  name : string;
  email : string;
  role : string;
  isAdmin : bool;
  isEmailVerified : bool;
}.

(** The JSON object of a response; absent keys are [None]. *)
Record json : Type := mkJson {
  message : string;
  email_ : option string;
  expiresIn : option Z;
  attemptsRemaining : option Z;
  token : option Jwt;
  user : option user_view;
  requiresVerification : option bool;
  resetToken : option Jwt;
}.

Definition msg (m : string) : json :=
  mkJson m None None None None None None None.

Record t : Type := mkRes {
  status : Z;
  body : json;
}.
End Res.

(** The state that outlives a request: the two collections, the
    module-level rate-limit map, and the mails handed to the transport. *)
Record World : Type := mkWorld {
  otps : OTP.collection;
  users : User.collection;
  rateLimitMap : gmap string RateRecord;
  outbox : list Mail;
}.

Definition initial_world : World := mkWorld OTP.empty User.empty ∅ [].

Definition set_otps (c : OTP.collection) (w : World) : World :=
  mkWorld c (users w) (rateLimitMap w) (outbox w).
Definition set_users (c : User.collection) (w : World) : World :=
  mkWorld (otps w) c (rateLimitMap w) (outbox w).
Definition set_rateLimitMap (m : gmap string RateRecord) (w : World) : World :=
  mkWorld (otps w) (users w) m (outbox w).
Definition set_outbox (o : list Mail) (w : World) : World :=
  mkWorld (otps w) (users w) (rateLimitMap w) o.

(** A handler threads the world and may leave early with a response
    ([return res.status(..).json(..)]). *)
Inductive Step (A : Type) : Type :=
  | Go (a : A)
  | Return (r : Res.t).
Arguments Go {A} a.
Arguments Return {A} r.

Definition Handler (A : Type) : Type := World -> Step A * World.

#[global] Instance Handler_ret : MRet Handler := fun A a w => (Go a, w).
#[global] Instance Handler_bind : MBind Handler := fun A B k m w =>
  match m w with
  | (Go a, w') => k a w'
  | (Return r, w') => (Return r, w')
  end.

Definition respond {A} (st : Z) (b : Res.json) : Handler A :=
  fun w => (Return (Res.mkRes st b), w).

(** [if (c) return res.status(st).json(b);] *)
Definition reject_if (c : bool) (st : Z) (b : Res.json) : Handler unit :=
  if c then respond st b else mret tt.

Definition run (h : Handler Res.t) (w : World) : Res.t * World :=
  match h w with
  | (Go r, w') => (r, w')
  | (Return r, w') => (r, w')
  end.

(** The collaborators, lifted to the monad *)
Definition rate_limit (env : Env) (key : string) (maxAttempts windowMs : Z)
  : Handler RateLimit :=
  fun w =>
    let '(r, m) := checkRateLimit (now env) key maxAttempts windowMs (rateLimitMap w) in
    (Go r, set_rateLimitMap m w).

Definition OTP_createOTP (env : Env) (e : string) (p : OTP.Purpose) (expiryMinutes : Z)
  : Handler OTP.doc :=
  fun w =>
    let '(d, c) := OTP.createOTP env e p expiryMinutes (otps w) in
    (Go d, set_otps c w).

Definition OTP_verifyOTP (env : Env) (e o : string) (p : OTP.Purpose)
  : Handler OTP.result :=
  fun w =>
    let '(r, c) := OTP.verifyOTP env e o p (otps w) in
    (Go r, set_otps c w).

Definition OTP_deleteOne (d : OTP.doc) : Handler unit :=
  fun w => (Go tt, set_otps (OTP.deleteOne d (otps w)) w).

Definition User_findOne (e : string) : Handler (option User.doc) :=
  fun w => (Go (User.findOne e (users w)), w).

Definition User_save (u : User.doc) : Handler unit :=
  fun w => (Go tt, set_users (User.save u (users w)) w).

Definition User_create (n e pw : string) (v : bool) (at_ : option Z)
  : Handler User.doc :=
  fun w =>
    let '(u, c) := User.create n e pw v at_ (users w) in
    (Go u, set_users c w).

(** [try { await send(..) } catch (emailError) { .. }]: [None] when the
    call returned, [Some message] when it threw. *)
Definition try_send (r : list Mail + string) : Handler (option string) :=
  fun w =>
    match r with
    | inl mails => (Go None, set_outbox (outbox w ++ mails) w)
    | inr m => (Go (Some m), w)
    end.

(** [${rateLimit.resetIn}] inside a template literal *)
Definition minutes_text (r : RateLimit) : string :=
  match resetIn r with
  | Some n => toString n
  | None => "undefined"
  end.

Definition view (u : User.doc) : Res.user_view :=
  Res.mkUserView (User._id u) (User.name u) (User.email u)
                 (if truthy (User.role u) then field (User.role u) else "user")
                 (User.isAdmin u)
                 (User.isEmailVerified u).

Definition weak_password_message : string :=
  "Password must be at least 8 characters and include uppercase, lowercase, and a number".

(* ===================================================================== *)
(** * routes/otp-auth.js: the route handlers *)
(* ===================================================================== *)

Definition FIFTEEN_MINUTES : Z := 15 * 60 * 1000.

(** 1. [POST /signup/request-otp] *)
Definition signup_request_otp (env : Env) (b : Req.body) : Handler Res.t :=
  reject_if (negb (truthy (Req.name b)) || negb (truthy (Req.email b))
             || negb (truthy (Req.password b)))
            400 (Res.msg "All fields are required");;
  let normalizedEmail := trim (toLowerCase (field (Req.email b))) in
  reject_if (negb (isValidEmail normalizedEmail))
            400 (Res.msg "Invalid email format");;
  reject_if (negb (isGmailAddress normalizedEmail))
            400 (Res.msg "Only Gmail addresses are allowed for registration");;
  reject_if (negb (isStrongPassword (field (Req.password b))))
            400 (Res.msg weak_password_message);;
  rateLimit ← rate_limit env ("signup:" +:+ normalizedEmail) 3 FIFTEEN_MINUTES;
  reject_if (negb (allowed rateLimit))
            429 (Res.msg ("Too many OTP requests. Please try again in "
                          +:+ minutes_text rateLimit +:+ " minutes"));;
  existingUser ← User_findOne normalizedEmail;
  reject_if (match existingUser with
             | Some u => User.isEmailVerified u
             | None => false
             end)
            400 (Res.msg "Email already registered and verified");;
  otpDoc ← OTP_createOTP env normalizedEmail OTP.email_verification 1;
  sent ← try_send (sendVerificationEmail env normalizedEmail (OTP.otp otpDoc) 1);
  match sent with
  | None =>
      respond 200
        (Res.mkJson "OTP sent to your email. Please verify within 1 minute"
                    (Some normalizedEmail) (Some (1 * 60)) None None None None None)
  | Some emailError =>
      OTP_deleteOne otpDoc;;
      if includes emailError "authentication failed"
         || includes emailError "Invalid email credentials"
      then respond 500 (Res.msg "Email service authentication failed. Please contact support.")
      else if includes emailError "connect to email server"
      then respond 500 (Res.msg "Unable to connect to email server. Please try again later.")
      else respond 500 (Res.msg "Failed to send verification email. Please try again.")
  end.

Definition SEVEN_DAYS : Z := 7 * 24 * 60 * 60.

(** 2. [POST /signup/verify-otp] *)
Definition signup_verify_otp (env : Env) (b : Req.body) : Handler Res.t :=
  reject_if (negb (truthy (Req.name b)) || negb (truthy (Req.email b))
             || negb (truthy (Req.password b)) || negb (truthy (Req.otp b)))
            400 (Res.msg "All fields are required");;
  let normalizedEmail := trim (toLowerCase (field (Req.email b))) in
  otpVerification ← OTP_verifyOTP env normalizedEmail (field (Req.otp b))
                                  OTP.email_verification;
  reject_if (negb (OTP.success otpVerification))
            400 (Res.mkJson (OTP.message otpVerification) None None
                            (OTP.attemptsRemaining otpVerification)
                            None None None None);;
  found ← User_findOne normalizedEmail;
  reject_if (match found with
             | Some u => User.isEmailVerified u
             | None => false
             end)
            400 (Res.msg "Email already registered");;
  let hashedPassword := bcrypt_hash env (field (Req.password b)) in
  user ← match found with
         | Some u =>
             (* an existing user reaches this point only unverified *)
             let u' := User.mkDoc (User._id u) (field (Req.name b)) (User.email u)
                                  hashedPassword true (Some (now env))
                                  (User.isDeleted u) (User.lastLoginAt u)
                                  (User.role u) (User.isAdmin u)
                                  (User.passwordResetAt u)
                                  (User.failedLoginAttempts u)
                                  (User.accountLockedUntil u) in
             User_save u';; mret u'
         | None =>
             User_create (field (Req.name b)) normalizedEmail hashedPassword
                         true (Some (now env))
         end;
  let token := jwt_sign env (mkPayload (Some (User._id user)) None None) SEVEN_DAYS in
  respond 201
    (Res.mkJson "Account created successfully" None None None
                (Some token) (Some (view user)) None None).

(** 3. [POST /resend-otp] *)
Definition resend_otp (env : Env) (b : Req.body) : Handler Res.t :=
  reject_if (negb (truthy (Req.email b)) || negb (truthy (Req.purpose b)))
            400 (Res.msg "Email and purpose are required");;
  let normalizedEmail := trim (toLowerCase (field (Req.email b))) in
  let purpose := field (Req.purpose b) in
  match OTP.purpose_of_string purpose with
  | None =>
      (* not in ['email_verification', 'password_reset'] *)
      respond 400 (Res.msg "Invalid purpose")
  | Some p =>
      rateLimit ← rate_limit env ("resend:" +:+ normalizedEmail +:+ ":" +:+ purpose)
                             3 FIFTEEN_MINUTES;
      reject_if (negb (allowed rateLimit))
                429 (Res.msg ("Too many OTP requests. Please try again in "
                              +:+ minutes_text rateLimit +:+ " minutes"));;
      otpDoc ← OTP_createOTP env normalizedEmail p 1;
      (* the catch block only logs *)
      try_send (if String.eqb purpose "email_verification"
                then sendVerificationEmail env normalizedEmail (OTP.otp otpDoc) 1
                else sendPasswordResetEmail env normalizedEmail (OTP.otp otpDoc) 1);;
      respond 200
        (Res.mkJson "OTP sent successfully" None (Some (1 * 60)) None None None None None)
  end.

(** 4. [POST /login] *)
Definition login (env : Env) (b : Req.body) : Handler Res.t :=
  reject_if (negb (truthy (Req.email b)) || negb (truthy (Req.password b)))
            400 (Res.msg "Email and password are required");;
  let normalizedEmail := trim (toLowerCase (field (Req.email b))) in
  rateLimit ← rate_limit env ("login:" +:+ normalizedEmail) 5 FIFTEEN_MINUTES;
  reject_if (negb (allowed rateLimit))
            429 (Res.msg ("Too many login attempts. Please try again in "
                          +:+ minutes_text rateLimit +:+ " minutes"));;
  found ← User_findOne normalizedEmail;
  match found with
  | None => respond 401 (Res.msg "Invalid email or password")
  | Some user =>
      reject_if (User.isDeleted user)
                403 (Res.msg "This account has been deleted");;
      (if negb (User.isEmailVerified user) then
         otpDoc ← OTP_createOTP env normalizedEmail OTP.email_verification 10;
         (* the catch block only logs *)
         try_send (sendVerificationEmail env normalizedEmail (OTP.otp otpDoc) 10);;
         respond 403
           (Res.mkJson
              "Email not verified. A new verification OTP has been sent to your email"
              (Some normalizedEmail) None None None None (Some true) None)
       else mret tt);;
      reject_if (negb (bcrypt_compare env (field (Req.password b)) (User.password user)))
                401 (Res.msg "Invalid email or password");;
      let user := User.mkDoc (User._id user) (User.name user) (User.email user)
                             (User.password user) (User.isEmailVerified user)
                             (User.emailVerifiedAt user) (User.isDeleted user)
                             (Some (now env))
                             (User.role user) (User.isAdmin user)
                             (User.passwordResetAt user)
                             (User.failedLoginAttempts user)
                             (User.accountLockedUntil user) in
      User_save user;;
      let token := jwt_sign env (mkPayload (Some (User._id user)) None None) SEVEN_DAYS in
      respond 200
        (Res.mkJson "Login successful" None None None
                    (Some token) (Some (view user)) None None)
  end.

(** 5. [POST /forgot-password/request-otp] *)
Definition forgot_password_request_otp (env : Env) (b : Req.body) : Handler Res.t :=
  reject_if (negb (truthy (Req.email b)))
            400 (Res.msg "Email is required");;
  let normalizedEmail := trim (toLowerCase (field (Req.email b))) in
  rateLimit ← rate_limit env ("forgot:" +:+ normalizedEmail) 3 FIFTEEN_MINUTES;
  reject_if (negb (allowed rateLimit))
            429 (Res.msg ("Too many password reset requests. Please try again in "
                          +:+ minutes_text rateLimit +:+ " minutes"));;
  found ← User_findOne normalizedEmail;
  match found with
  | None => respond 404 (Res.msg "No account found with this email address")
  | Some user =>
      reject_if (User.isDeleted user)
                403 (Res.msg "This account has been deleted. Please contact support.");;
      otpDoc ← OTP_createOTP env normalizedEmail OTP.password_reset 1;
      (* the catch block only logs *)
      try_send (sendPasswordResetEmail env normalizedEmail (OTP.otp otpDoc) 1);;
      respond 200
        (Res.mkJson "Password reset OTP sent to your email" None (Some (1 * 60))
                    None None None None None)
  end.

(** 6. [POST /forgot-password/verify-otp] *)
Definition forgot_password_verify_otp (env : Env) (b : Req.body) : Handler Res.t :=
  reject_if (negb (truthy (Req.email b)) || negb (truthy (Req.otp b)))
            400 (Res.msg "Email and OTP are required");;
  let normalizedEmail := trim (toLowerCase (field (Req.email b))) in
  otpVerification ← OTP_verifyOTP env normalizedEmail (field (Req.otp b))
                                  OTP.password_reset;
  reject_if (negb (OTP.success otpVerification))
            400 (Res.mkJson (OTP.message otpVerification) None None
                            (OTP.attemptsRemaining otpVerification)
                            None None None None);;
  let resetToken :=
    jwt_sign env (mkPayload None (Some normalizedEmail) (Some "password_reset"))
             (15 * 60) in
  respond 200
    (Res.mkJson "OTP verified. You can now reset your password" None None None
                None None None (Some resetToken)).

(** 7. [POST /reset-password] *)
Definition reset_password (env : Env) (b : Req.body) : Handler Res.t :=
  reject_if (negb (present (Req.resetToken b)) || negb (truthy (Req.newPassword b)))
            400 (Res.msg "Reset token and new password are required");;
  reject_if (negb (isStrongPassword (field (Req.newPassword b))))
            400 (Res.msg weak_password_message);;
  match Req.resetToken b ≫= jwt_verify env with
  | None => respond 401 (Res.msg "Invalid or expired reset token")
  | Some decoded =>
      reject_if (negb (bool_decide (claim_purpose decoded = Some "password_reset")))
                401 (Res.msg "Invalid reset token");;
      found ← User_findOne (field (claim_email decoded));
      match found with
      | None => respond 404 (Res.msg "User not found")
      | Some user =>
          reject_if (User.isDeleted user)
                    403 (Res.msg "This account has been deleted");;
          let hashedPassword := bcrypt_hash env (field (Req.newPassword b)) in
          User_save (User.mkDoc (User._id user) (User.name user) (User.email user)
                                hashedPassword (User.isEmailVerified user)
                                (User.emailVerifiedAt user) (User.isDeleted user)
                                (User.lastLoginAt user)
                                (User.role user) (User.isAdmin user)
                                (Some (now env)) 0 None);;
          respond 200
            (Res.msg "Password reset successfully. You can now login with your new password")
      end
  end.

(* ===================================================================== *)
(** * States of the OTP collection *)
(* ===================================================================== *)

(** The unverified documents of one (identity, purpose) pair *)
Definition unverified_for (e : string) (p : OTP.Purpose) (c : OTP.collection)
  : list OTP.doc :=
  List.filter (OTP.matches e p) (OTP.docs c).

Definition at_most_one_unverified (c : OTP.collection) : Prop :=
  forall e p, (length (unverified_for e p c) <= 1)%nat.

Definition fresh_ids (c : OTP.collection) : Prop :=
  NoDup (List.map OTP._id (OTP.docs c)) /\
  forall d, In d (OTP.docs c) -> (OTP._id d < OTP.next_id c)%nat.

(** The TTL index on [expiresAt] ([index: { expires: 0 }]): a pass of
    MongoDB's TTL monitor at time [t] removes the documents whose
    [expiresAt] is not in the future. *)
Definition ttl_pass (t : Z) (c : OTP.collection) : OTP.collection :=
  OTP.mkCollection (List.filter (fun d => t <? OTP.expiresAt d) (OTP.docs c))
                   (OTP.next_id c).

(** Everything this program, and the database, does to the collection *)
Inductive otp_op : Type :=
  | op_createOTP (env : Env) (e : string) (p : OTP.Purpose) (expiryMinutes : Z)
  | op_verifyOTP (env : Env) (e o : string) (p : OTP.Purpose)
  | op_deleteOne (d : OTP.doc)
  | op_ttl (t : Z).

Definition apply_op (op : otp_op) (c : OTP.collection) : OTP.collection :=
  match op with
  | op_createOTP env e p m => snd (OTP.createOTP env e p m c)
  | op_verifyOTP env e o p => snd (OTP.verifyOTP env e o p c)
  | op_deleteOne d => OTP.deleteOne d c
  | op_ttl t => ttl_pass t c
  end.

Inductive reachable : OTP.collection -> Prop :=
  | reachable_empty : reachable OTP.empty
  | reachable_step op c : reachable c -> reachable (apply_op op c).

(** The messages of [verifyOTP] *)
Definition msg_not_found : string := "OTP not found or already used".
Definition msg_expired : string := "OTP has expired. Please request a new one".
Definition msg_too_many : string := "Too many failed attempts. Please request a new OTP".
Definition msg_invalid (n : Z) : string :=
  "Invalid OTP. " +:+ toString n +:+ " attempts remaining".

(** A concrete runtime for the examples: the clock reads [t], every
    generator draws [u], the transport behaves as [tr]. *)
Definition example_env (t : Z) (u : Q) (tr : Transport) : Env :=
  mkEnv t (fun _ => u) tr "secret"
        (fun pw => "$2b$10$" +:+ pw)
        (fun pw h => String.eqb h ("$2b$10$" +:+ pw)).

(** Example states: Ann has requested a signup code at t = 1000 (the
    generator drew 0.5, the code is 550000 and expires at t = 61000),
    and has then typed a wrong code up to three times. *)
Definition ann : string := "ann@gmail.com".

Definition requested : OTP.collection :=
  apply_op (op_createOTP (example_env 1000 (1 # 2) Accepts) ann OTP.email_verification 1)
           OTP.empty.

Definition wrong_guess (t : Z) : otp_op :=
  op_verifyOTP (example_env t (1 # 2) Accepts) ann "000000" OTP.email_verification.

Definition guessed_once : OTP.collection := apply_op (wrong_guess 2000) requested.
Definition guessed_twice : OTP.collection := apply_op (wrong_guess 3000) guessed_once.
Definition guessed_thrice : OTP.collection := apply_op (wrong_guess 4000) guessed_twice.

(** Example requests and worlds: Ann signs up (t = 1000), verifies with
    the code she was sent (t = 2000), and then a verification code is
    requested again for her, now verified, address through
    [/resend-otp] (t = 3000; the generator draws 0.25, the code is
    325000). *)
Definition ann_signup (code : option string) : Req.body :=
  Req.mkBody (Some "Ann") (Some "Ann@Gmail.com ") (Some "Passw0rdX") code None None None.

Definition ann_resend (p : string) : Req.body :=
  Req.mkBody None (Some ann) None None (Some p) None None.

Definition world_requested : World :=
  snd (run (signup_request_otp (example_env 1000 (1 # 2) Accepts) (ann_signup None))
           initial_world).

Definition world_registered : World :=
  snd (run (signup_verify_otp (example_env 2000 (1 # 2) Accepts)
                              (ann_signup (Some "550000")))
           world_requested).

Definition world_resent : World :=
  snd (run (resend_otp (example_env 3000 (1 # 4) Accepts) (ann_resend "email_verification"))
           world_registered).

(** A transport that cannot reach the mail server *)
Definition unreachable : Transport := Rejects (mkSmtpError "ESOCKET" 0 "connect ETIMEDOUT").

(** A user record as the Google route leaves it: no verified email *)
Definition bob : User.doc :=
  User.mkDoc 0 "Bob" "bob@gmail.com" "$2b$10$Passw0rdX" false None false None None false
             None 0 None.

Definition world_with_bob : World :=
  mkWorld OTP.empty (User.mkCollection [bob] 1) ∅ [].

(** [verifyOTP] called repeatedly for one (identity, purpose) pair, each
    call in its own runtime and with its own code. *)
Fixpoint verifyOTP_each (calls : list (Env * string)) (e : string) (p : OTP.Purpose)
         (c : OTP.collection) : list OTP.result * OTP.collection :=
  match calls with
  | [] => ([], c)
  | (env, o) :: calls' =>
      let '(r, c1) := OTP.verifyOTP env e o p c in
      let '(rs, c2) := verifyOTP_each calls' e p c1 in
      (r :: rs, c2)
  end.

(** The character class [[^\s@]] of the email pattern, on a whole string *)
Definition plain (s : string) : bool :=
  negb (existsb_string (fun c => is_whitespace c || is_at c) s).

(** The first character, if there is one, is not whitespace. *)
Definition starts_clean (s : string) : Prop :=
  match s with
  | EmptyString => True
  | String c _ => is_whitespace c = false
  end.

(* ===================================================================== *)
(** * The screens that call the password-reset routes *)
(* ===================================================================== *)

(** Each handler is modelled up to its request: [inl] the error message
    it sets without calling the server, [inr] the body it posts.  The
    [resetToken] route parameter is [None] when it is missing or empty. *)

Module ForgotPasswordScreen.

(** [handleForgotPassword]; the screen's [isValidEmail] tests the same
    pattern as the server's.  It posts to
    [/api/otp-auth/forgot-password/request-otp]. *)
Definition handleForgotPassword (email : string) : string + Req.body :=
  if String.eqb (trim email) "" then
    inl "Email is required"
  else if negb (isValidEmail (trim email)) then
    inl "Please enter a valid email address"
  else
    inr (Req.mkBody None (Some (toLowerCase (trim email))) None None None None None).

End ForgotPasswordScreen.

Module ResetPasswordScreen.

(** [validatePassword]: the error to show, or [None] where the function
    returns [null]. *)
Definition validatePassword (password : string) : option string :=
  if (String.length password <? 8)%nat then
    Some "Password must be at least 8 characters"
  else if negb (existsb_string is_lower password) then
    Some "Password must contain at least one lowercase letter"
  else if negb (existsb_string is_upper password) then
    Some "Password must contain at least one uppercase letter"
  else if negb (existsb_string is_digit password) then
    Some "Password must contain at least one number"
  else None.

(** [handleResetPassword]; it posts to [/api/otp-auth/reset-password]. *)
Definition handleResetPassword (newPassword confirmPassword : string)
           (resetToken : option Jwt) : string + Req.body :=
  if String.eqb newPassword "" || String.eqb confirmPassword "" then
    inl "Please fill in all fields"
  else
    match validatePassword newPassword with
    | Some passwordError => inl passwordError
    | None =>
        if negb (String.eqb newPassword confirmPassword) then
          inl "Passwords do not match"
        else
          match resetToken with
          | None => inl "Invalid reset link. Please request a new one"
          | Some t =>
              inr (Req.mkBody None None None None None (Some newPassword) (Some t))
          end
    end.

End ResetPasswordScreen.

Module ResetPasswordNewScreen.

Record Strength : Type := mkStrength {
  strength : Z;
  text : string;
  color : string;
}.

Definition is_symbol (c : ascii) : bool :=
  negb (is_lower c || is_upper c || is_digit c).

(** [getPasswordStrength]: the number of character classes present
    decides the label. *)
Definition getPasswordStrength (password : string) : Strength :=
  if (String.length password <? 8)%nat then mkStrength 0 "Too short" "#e74c3c"
  else
    let strength := 0 in
    let strength := if existsb_string is_lower password then strength + 1 else strength in
    let strength := if existsb_string is_upper password then strength + 1 else strength in
    let strength := if existsb_string is_digit password then strength + 1 else strength in
    let strength := if existsb_string is_symbol password then strength + 1 else strength in
    if strength <=? 2 then mkStrength 1 "Weak" "#e67e22"
    else if strength =? 3 then mkStrength 2 "Medium" "#f39c12"
    else mkStrength 3 "Strong" "#27ae60".

Definition isStrongPassword (password : string) : bool :=
  (8 <=? String.length password)%nat &&
  existsb_string is_upper password &&
  existsb_string is_lower password &&
  existsb_string is_digit password.

(** [handleResetPassword]: this screen does not look at [resetToken]
    before it posts. *)
Definition handleResetPassword (newPassword confirmPassword : string)
           (resetToken : option Jwt) : string + Req.body :=
  if String.eqb newPassword "" || String.eqb confirmPassword "" then
    inl "All fields are required"
  else if negb (String.eqb newPassword confirmPassword) then
    inl "Passwords do not match"
  else if negb (isStrongPassword newPassword) then
    inl "Password must be at least 8 characters and include uppercase, lowercase, and a number"
  else
    inr (Req.mkBody None None None None None (Some newPassword) resetToken).

End ResetPasswordNewScreen.

(* ===================================================================== *)
(** * lib/api.ts *)
(* ===================================================================== *)



(* ===================================================================== *)
(** * routes/google.js: the configured audiences *)
(* ===================================================================== *)

Definition is_comma (c : ascii) : bool := Ascii.eqb c ","%char.

(** [s.split(',')]: the pieces between the commas, [cur] being the piece
    under construction *)
Fixpoint split_comma (s : string) (cur : string) : list string :=
  match s with
  | EmptyString => [cur]
  | String c s' =>
      if is_comma c then cur :: split_comma s' EmptyString
      else split_comma s' (cur +:+ String c EmptyString)
  end.

(** [(process.env.GOOGLE_CLIENT_ID || '').split(',').map((id) => id.trim()).filter(Boolean)] *)
Definition googleAudiences (GOOGLE_CLIENT_ID : option string) : list string :=
  List.filter (fun id => negb (String.eqb id ""))
              (List.map trim (split_comma (field GOOGLE_CLIENT_ID) "")).

(* ===================================================================== *)
(** * routes/otp-auth.js: the router *)
(* ===================================================================== *)

(** The seven [router.post] registrations *)
Inductive route : Type :=
  | signup_request_otp_route            (* /signup/request-otp *)
  | signup_verify_otp_route             (* /signup/verify-otp *)
  | resend_otp_route                    (* /resend-otp *)
  | login_route                         (* /login *)
  | forgot_password_request_otp_route   (* /forgot-password/request-otp *)
  | forgot_password_verify_otp_route    (* /forgot-password/verify-otp *)
  | reset_password_route.               (* /reset-password *)

Definition handle (r : route) : Env -> Req.body -> Handler Res.t :=
  match r with
  | signup_request_otp_route => signup_request_otp
  | signup_verify_otp_route => signup_verify_otp
  | resend_otp_route => resend_otp
  | login_route => login
  | forgot_password_request_otp_route => forgot_password_request_otp
  | forgot_password_verify_otp_route => forgot_password_verify_otp
  | reset_password_route => reset_password
  end.

(** A relation between the world before and the world after that a
    handler maintains, whatever it answers. *)
Definition preserves {A} (R : World -> World -> Prop) (h : Handler A) : Prop :=
  forall w, R w (snd (h w)).

(** The relations used below: the OTP collection stays within the states
    that [createOTP], [verifyOTP], [deleteOne] and the TTL monitor can
    produce; the users present stay, in their order and under their
    ids. *)
Definition otps_stay_reachable (w w' : World) : Prop :=
  reachable (otps w) -> reachable (otps w').

Definition users_stay (w w' : World) : Prop :=
  exists new, List.map User._id (User.docs (users w'))
              = (List.map User._id (User.docs (users w)) ++ new)%list.

(* ===================================================================== *)
(** * More example worlds *)
(* ===================================================================== *)

(** Ann, registered, asks for a password-reset code at t = 3000 (the
    generator draws 0.25, the code is 325000). *)
Definition ann_forgot (code : option string) : Req.body :=
  Req.mkBody None (Some ann) None code None None None.

Definition world_forgot : World :=
  snd (run (forgot_password_request_otp (example_env 3000 (1 # 4) Accepts) (ann_forgot None))
           world_registered).

Definition ann_user : User.doc :=
  User.mkDoc 0 "Ann" ann "$2b$10$Passw0rdX" true (Some 2000) false None None false
             None 0 None.

(** Ann, registered, after five logins within one window: the limiter's
    record for her login key is full. *)
Definition world_locked_out : World :=
  set_rateLimitMap
    (snd (checkRateLimit_at [3000; 3100; 3200; 3300; 3400] "login:ann@gmail.com"
                            5 FIFTEEN_MINUTES ∅))
    world_registered.

(** A user record as the admin route's soft delete leaves it *)
Definition carol : User.doc :=
  User.mkDoc 0 "Carol" "carol@gmail.com" "$2b$10$Passw0rdX" true (Some 500) true None None
             false None 0 None.

Definition world_with_carol : World :=
  mkWorld OTP.empty (User.mkCollection [carol] 1) ∅ [].

(* ===================================================================== *)
(** * Binary64 rounding *)
(* ===================================================================== *)

Module DoubleFacts.
Import Double.
Local Open Scope Q_scope.

Lemma pow2_pos e : 0 < pow2 e.
Proof. apply Qpower_0_lt. reflexivity. Qed.

Lemma pow2_add a b : pow2 (a + b) == pow2 a * pow2 b.
Proof. apply Qpower_plus. discriminate. Qed.

Lemma pow2_le a b : (a <= b)%Z -> pow2 a <= pow2 b.
Proof. intros H. apply Qpower_le_compat_l; [exact H | discriminate]. Qed.

Lemma pow2_lt_inv a b : pow2 a < pow2 b -> (a < b)%Z.
Proof. intros H. apply (Qpower_lt_compat_l_inv 2); [exact H | reflexivity]. Qed.

Lemma pow2_Z n : (0 <= n)%Z -> pow2 n == inject_Z (2 ^ n).
Proof. intros H. unfold pow2. rewrite Zpower_Qpower by exact H. reflexivity. Qed.

Lemma pow2_succ e : pow2 (e + 1) == 2 * pow2 e.
Proof. rewrite pow2_add. change (pow2 1) with 2. ring. Qed.

Lemma Q_num_den x : x * inject_Z (Z.pos (Qden x)) == inject_Z (Qnum x).
Proof.
  destruct x as [n d]. simpl. rewrite (Qmake_Qdiv n d). field.
  intros H. discriminate H.
Qed.

Lemma ilog2_spec x : 0 < x -> pow2 (ilog2 x) <= x /\ x < pow2 (ilog2 x + 1).
Proof.
  intros Hx.
  assert (Hn : (0 < Qnum x)%Z).
  { destruct x as [n d]. unfold Qlt in Hx. simpl in *. lia. }
  pose proof (Z.log2_spec (Qnum x) Hn) as [Ha1 Ha2].
  pose proof (Z.log2_spec (Z.pos (Qden x)) eq_refl) as [Hb1 Hb2].
  pose proof (Z.log2_nonneg (Qnum x)) as Ha0.
  pose proof (Z.log2_nonneg (Z.pos (Qden x))) as Hb0.
  set (a := Z.log2 (Qnum x)) in *. set (b := Z.log2 (Z.pos (Qden x))) in *.
  pose proof (Q_num_den x) as HND.
  set (N := inject_Z (Qnum x)) in *. set (D := inject_Z (Z.pos (Qden x))) in *.
  assert (HA1 : pow2 a <= N).
  { rewrite pow2_Z by lia. unfold N. rewrite <- Zle_Qle. exact Ha1. }
  assert (HA2 : N < pow2 (a + 1)).
  { rewrite pow2_Z by lia. unfold N. rewrite <- Zlt_Qlt. replace (a+1)%Z with (Z.succ a) by lia. exact Ha2. }
  assert (HB1 : pow2 b <= D).
  { rewrite pow2_Z by lia. unfold D. rewrite <- Zle_Qle. exact Hb1. }
  assert (HB2 : D < pow2 (b + 1)).
  { rewrite pow2_Z by lia. unfold D. rewrite <- Zlt_Qlt. replace (b+1)%Z with (Z.succ b) by lia. exact Hb2. }
  assert (HD : 0 < D) by (unfold D; rewrite <- (Zlt_Qlt 0); lia).
  pose proof (pow2_pos b) as HPb.
  unfold ilog2. fold a b.
  destruct (Qle_bool (pow2 (a - b)) x) eqn:E.
  - apply Qle_bool_iff in E. split; [exact E|].
    pose proof (pow2_add (a - b + 1) b) as H1.
    replace (a - b + 1 + b)%Z with (a + 1)%Z in H1 by lia.
    pose proof (pow2_pos (a - b + 1)) as HP.
    set (P := pow2 (a - b + 1)) in *. set (B := pow2 b) in *. set (A := pow2 (a+1)) in *.
    apply Qnot_le_lt. intros Hc. nra.
  - assert (E' : x < pow2 (a - b)).
    { apply Qnot_le_lt. intros Hc. apply Qle_bool_iff in Hc. congruence. }
    replace (a - b - 1 + 1)%Z with (a - b)%Z by lia. split; [|exact E'].
    pose proof (pow2_add (a - b - 1) (b + 1)) as H1.
    replace (a - b - 1 + (b + 1))%Z with a in H1 by lia.
    pose proof (pow2_pos (a - b - 1)) as HP.
    set (P := pow2 (a - b - 1)) in *. set (B := pow2 (b + 1)) in *. set (A := pow2 a) in *.
    apply Qnot_lt_le. intros Hc. nra.
Qed.

Lemma pow2_lt a b : (a < b)%Z -> pow2 a < pow2 b.
Proof. intros H. apply Qpower_lt_compat_l; [exact H | reflexivity]. Qed.

Lemma ilog2_unique x e : pow2 e <= x -> x < pow2 (e + 1) -> ilog2 x = e.
Proof.
  intros H1 H2.
  assert (Hx : 0 < x) by (pose proof (pow2_pos e); lra).
  destruct (ilog2_spec x Hx) as [H3 H4].
  assert ((e < ilog2 x + 1)%Z) by (apply pow2_lt_inv; lra).
  assert ((ilog2 x < e + 1)%Z) by (apply pow2_lt_inv; lra).
  lia.
Qed.

Lemma ilog2_comp x y : 0 < x -> x == y -> ilog2 x = ilog2 y.
Proof.
  intros Hx Hxy. symmetry. destruct (ilog2_spec x Hx).
  apply ilog2_unique; lra.
Qed.

Lemma ilog2_le x y : 0 < x -> x <= y -> (ilog2 x <= ilog2 y)%Z.
Proof.
  intros Hx Hxy.
  destruct (ilog2_spec x Hx) as [H1 _].
  destruct (ilog2_spec y) as [_ H2]; [lra|].
  assert ((ilog2 x < ilog2 y + 1)%Z) by (apply pow2_lt_inv; lra).
  lia.
Qed.

(** rne *)
Lemma rne_cases x :
  let f := Qfloor x in
  (rne x = f /\ x - inject_Z f <= 1 # 2) \/
  (rne x = (f + 1)%Z /\ 1 # 2 <= x - inject_Z f).
Proof.
  intros f. unfold rne. fold f.
  destruct (Qcompare_spec (x - inject_Z f) (1 # 2)) as [H|H|H].
  - destruct (Z.even f); [left | right]; split; auto; lra.
  - left. split; auto. lra.
  - right. split; auto. lra.
Qed.

Lemma inject_Z_succ n : inject_Z (n + 1) == inject_Z n + 1.
Proof. rewrite inject_Z_plus. reflexivity. Qed.

Lemma rne_near x :
  inject_Z (rne x) - x <= 1 # 2 /\ x - inject_Z (rne x) <= 1 # 2.
Proof.
  pose proof (Qfloor_le x). pose proof (Qlt_floor x).
  pose proof (inject_Z_succ (Qfloor x)).
  destruct (rne_cases x) as [[-> ?]|[-> ?]]; split; lra.
Qed.

Lemma rne_comp x y : x == y -> rne x = rne y.
Proof.
  intros H. unfold rne. rewrite (Qfloor_comp _ _ H).
  assert (E : (x - inject_Z (Qfloor y) ?= 1 # 2) = (y - inject_Z (Qfloor y) ?= 1 # 2)).
  { apply Qcompare_comp; [|reflexivity]. rewrite H. reflexivity. }
  rewrite E. reflexivity.
Qed.

Lemma rne_Z n : rne (inject_Z n) = n.
Proof.
  unfold rne. rewrite Qfloor_Z.
  assert (E : (inject_Z n - inject_Z n ?= 1 # 2) = Lt).
  { rewrite <- Qlt_alt. lra. }
  rewrite E. reflexivity.
Qed.

Lemma rne_le x y : x <= y -> (rne x <= rne y)%Z.
Proof.
  intros Hxy.
  pose proof (Qfloor_resp_le _ _ Hxy) as Hf.
  pose proof (Qfloor_le x) as Hx1. pose proof (Qlt_floor x) as Hx2.
  pose proof (Qfloor_le y) as Hy1. pose proof (Qlt_floor y) as Hy2.
  destruct (Z.eq_dec (Qfloor x) (Qfloor y)) as [E|NE].
  - unfold rne. rewrite <- E.
    destruct (Qcompare_spec (x - inject_Z (Qfloor x)) (1 # 2)) as [H|H|H];
    destruct (Qcompare_spec (y - inject_Z (Qfloor x)) (1 # 2)) as [H'|H'|H'];
    try destruct (Z.even (Qfloor x)); try lia; lra.
  - destruct (rne_cases x) as [[-> _]|[-> _]];
    destruct (rne_cases y) as [[-> _]|[-> _]]; lia.
Qed.

(** round on positive numbers *)
Lemma scaled_range x :
  0 < x ->
  let t := x / pow2 (ilog2 x - 52) in
  inject_Z (2 ^ 52) <= t /\ t < inject_Z (2 ^ 53).
Proof.
  intros Hx t. destruct (ilog2_spec x Hx) as [H1 H2].
  pose proof (pow2_pos (ilog2 x - 52)) as HP.
  pose proof (pow2_add (ilog2 x - 52) 52) as E1.
  replace (ilog2 x - 52 + 52)%Z with (ilog2 x) in E1 by lia.
  pose proof (pow2_add (ilog2 x - 52) 53) as E2.
  replace (ilog2 x - 52 + 53)%Z with (ilog2 x + 1)%Z in E2 by lia.
  rewrite (pow2_Z 52) in E1 by lia. rewrite (pow2_Z 53) in E2 by lia.
  assert (Ht : t * pow2 (ilog2 x - 52) == x) by (unfold t; field; lra).
  set (P := pow2 (ilog2 x - 52)) in *.
  set (A := inject_Z (2 ^ 52)) in *. set (B := inject_Z (2 ^ 53)) in *.
  split.
  - apply Qnot_lt_le. intros Hc. nra.
  - apply Qnot_le_lt. intros Hc. nra.
Qed.

Lemma round_positive x : 0 < x -> round x = round_pos x.
Proof.
  destruct x as [[|n|n] d]; unfold Qlt; simpl; intros H; try lia. reflexivity.
Qed.

Lemma round_zero x : x == 0 -> round x = 0.
Proof.
  destruct x as [[|n|n] d]; unfold Qeq; simpl; intros H; try lia. reflexivity.
Qed.

Lemma round_pos_comp x y : 0 < x -> x == y -> round_pos x == round_pos y.
Proof.
  intros Hx Hxy. unfold round_pos. rewrite <- (ilog2_comp x y Hx Hxy).
  rewrite (rne_comp (x / pow2 (ilog2 x - 52)) (y / pow2 (ilog2 x - 52))).
  - reflexivity.
  - unfold Qdiv. apply Qmult_comp; [exact Hxy | reflexivity].
Qed.

Lemma round_pos_bounds x :
  0 < x -> pow2 (ilog2 x) <= round_pos x /\ round_pos x <= pow2 (ilog2 x + 1).
Proof.
  intros Hx. destruct (scaled_range x Hx) as [H1 H2].
  apply rne_le in H1. rewrite rne_Z in H1.
  apply Qlt_le_weak, rne_le in H2. rewrite rne_Z in H2.
  rewrite Zle_Qle in H1, H2.
  pose proof (pow2_pos (ilog2 x - 52)) as HP.
  pose proof (pow2_add (ilog2 x - 52) 52) as E1.
  replace (ilog2 x - 52 + 52)%Z with (ilog2 x) in E1 by lia.
  pose proof (pow2_add (ilog2 x - 52) 53) as E2.
  replace (ilog2 x - 52 + 53)%Z with (ilog2 x + 1)%Z in E2 by lia.
  rewrite (pow2_Z 52) in E1 by lia. rewrite (pow2_Z 53) in E2 by lia.
  unfold round_pos.
  set (R := inject_Z (rne (x / pow2 (ilog2 x - 52)))) in *.
  set (P := pow2 (ilog2 x - 52)) in *.
  set (A := inject_Z (2 ^ 52)) in *. set (B := inject_Z (2 ^ 53)) in *.
  split; nra.
Qed.

Lemma round_pos_le x y : 0 < x -> x <= y -> round_pos x <= round_pos y.
Proof.
  intros Hx Hxy. assert (Hy : 0 < y) by lra.
  pose proof (ilog2_le x y Hx Hxy) as He.
  destruct (Z.eq_dec (ilog2 x) (ilog2 y)) as [E|NE].
  - unfold round_pos. rewrite <- E.
    pose proof (pow2_pos (ilog2 x - 52)) as HP.
    assert (Ht : x / pow2 (ilog2 x - 52) <= y / pow2 (ilog2 x - 52)).
    { apply Qmult_le_compat_r; [exact Hxy|]. apply Qlt_le_weak, Qinv_lt_0_compat, HP. }
    apply rne_le in Ht. rewrite Zle_Qle in Ht.
    apply Qmult_le_compat_r; [exact Ht | lra].
  - destruct (round_pos_bounds x Hx) as [_ H1].
    destruct (round_pos_bounds y Hy) as [H2 _].
    pose proof (pow2_le (ilog2 x + 1) (ilog2 y) ltac:(lia)). lra.
Qed.

Lemma round_nonneg x : 0 <= x -> 0 <= round x.
Proof.
  intros Hx. destruct (Qlt_le_dec 0 x) as [H|H].
  - rewrite (round_positive x H). destruct (round_pos_bounds x H) as [H1 _].
    pose proof (pow2_pos (ilog2 x)). lra.
  - rewrite (round_zero x); lra.
Qed.

Lemma round_le x y : 0 <= x -> x <= y -> round x <= round y.
Proof.
  intros Hx Hxy. destruct (Qlt_le_dec 0 x) as [H|H].
  - rewrite (round_positive x H), (round_positive y) by lra. by apply round_pos_le.
  - rewrite (round_zero x) by lra. apply round_nonneg. lra.
Qed.

Lemma round_comp x y : 0 <= x -> x == y -> round x == round y.
Proof.
  intros Hx Hxy. destruct (Qlt_le_dec 0 x) as [H|H].
  - rewrite (round_positive x H), (round_positive y) by lra. by apply round_pos_comp.
  - rewrite (round_zero x), (round_zero y) by lra. reflexivity.
Qed.

(** relative error 2^-53 *)
Lemma round_error x :
  0 < x ->
  x * (1 - pow2 (-53)) <= round x /\ round x <= x * (1 + pow2 (-53)).
Proof.
  intros Hx. rewrite (round_positive x Hx). unfold round_pos.
  destruct (ilog2_spec x Hx) as [H1 _].
  destruct (rne_near (x / pow2 (ilog2 x - 52))) as [N1 N2].
  pose proof (pow2_pos (ilog2 x - 52)) as HP.
  pose proof (pow2_add (ilog2 x - 52) 52) as E1.
  replace (ilog2 x - 52 + 52)%Z with (ilog2 x) in E1 by lia.
  assert (Ht : (x / pow2 (ilog2 x - 52)) * pow2 (ilog2 x - 52) == x) by (field; lra).
  set (t := x / pow2 (ilog2 x - 52)) in *.
  set (R := inject_Z (rne t)) in *.
  set (P := pow2 (ilog2 x - 52)) in *.
  assert (E52 : pow2 52 == 4503599627370496) by reflexivity.
  assert (E53 : pow2 (-53) == 1 # 9007199254740992) by reflexivity.
  rewrite E53. rewrite E52 in E1. rewrite E1 in H1.
  split; nra.
Qed.

(** integers below 2^53 are exact *)
Lemma round_Z n : (0 <= n < 2 ^ 53)%Z -> round (inject_Z n) == inject_Z n.
Proof.
  intros [H0 H53]. destruct (Z.eq_dec n 0%Z) as [->|Hn]; [reflexivity|].
  assert (Hx : 0 < inject_Z n) by (rewrite <- (Zlt_Qlt 0); lia).
  rewrite (round_positive _ Hx). unfold round_pos.
  destruct (ilog2_spec _ Hx) as [H1 H2].
  set (e := ilog2 (inject_Z n)) in *.
  assert (He : (e < 53)%Z).
  { apply pow2_lt_inv. rewrite (pow2_Z 53) by lia.
    rewrite Zlt_Qlt in H53. lra. }
  pose proof (pow2_add (e - 52) (52 - e)) as E.
  replace (e - 52 + (52 - e))%Z with 0%Z in E by lia.
  change (pow2 0) with 1 in E.
  pose proof (pow2_pos (e - 52)) as HP.
  rewrite (pow2_Z (52 - e)) in E by lia.
  rewrite (rne_comp _ (inject_Z (n * 2 ^ (52 - e)))).
  - rewrite rne_Z, inject_Z_mult.
    set (P := pow2 (e - 52)) in *. set (K := inject_Z (2 ^ (52 - e))) in *.
    transitivity (inject_Z n * (P * K)); [ring|]. rewrite <- E. ring.
  - rewrite inject_Z_mult. field_simplify_eq; [|lra].
    set (P := pow2 (e - 52)) in *. set (K := inject_Z (2 ^ (52 - e))) in *.
    transitivity (inject_Z n * (P * K)); [|ring]. rewrite <- E. ring.
Qed.

Lemma Qceiling_unique b k :
  inject_Z k < b -> b <= inject_Z (k + 1) -> Qceiling b = (k + 1)%Z.
Proof.
  intros H1 H2.
  pose proof (Qle_ceiling b) as H3. pose proof (Qceiling_lt b) as H4.
  assert (H5 : inject_Z k < inject_Z (Qceiling b)) by lra.
  assert (H6 : inject_Z (Qceiling b - 1) < inject_Z (k + 1)) by lra.
  rewrite <- Zlt_Qlt in H5, H6. lia.
Qed.

Lemma minutes_until_exact d :
  (0 <= d < 2 ^ 50)%Z -> minutes_until d = ((d + 59999) / 60000)%Z.
Proof.
  intros [Hd0 Hd50]. unfold minutes_until, ceil, div.
  destruct (Z.eq_dec d 0%Z) as [->|Hd]; [vm_compute; reflexivity|].
  pose proof (Z.div_mod d 60000 ltac:(lia)) as Hdm.
  pose proof (Z.mod_pos_bound d 60000 ltac:(lia)) as Hr.
  set (k := (d / 60000)%Z) in *. set (r := (d mod 60000)%Z) in *.
  assert (Hk : (0 <= k)%Z) by (apply Z.div_pos; lia).
  clearbody k r.
  assert (HD : inject_Z d == 60000 * inject_Z k + inject_Z r).
  { rewrite Hdm, inject_Z_plus, inject_Z_mult. reflexivity. }
  assert (HK : 0 <= inject_Z k) by (rewrite <- (Zle_Qle 0); exact Hk).
  assert (HD0 : 0 < inject_Z d) by (rewrite <- (Zlt_Qlt 0); lia).
  assert (HD50 : inject_Z d < inject_Z (2 ^ 50)) by (rewrite <- Zlt_Qlt; exact Hd50).
  change (inject_Z (2 ^ 50)) with 1125899906842624 in HD50.
  assert (HX : 1000 * (inject_Z d / 1000) == inject_Z d) by field.
  set (X := inject_Z d / 1000) in *.
  assert (HX0 : 0 < X) by lra.
  assert (HY : 60 * (round X / 60) == round X) by field.
  set (Y := round X / 60) in *.
  destruct (Z.eq_dec r 0%Z) as [Hr0|Hr0].
  - (* a whole number of minutes: both divisions are exact *)
    replace ((d + 59999) / 60000)%Z with k
      by (Z.to_euclidean_division_equations; lia).
    rewrite Hr0 in HD. change (inject_Z 0) with 0 in HD.
    assert (E1 : X == inject_Z (60 * k)).
    { rewrite inject_Z_mult. change (inject_Z 60) with 60. lra. }
    assert (R1 : round X == inject_Z (60 * k)).
    { rewrite (round_comp X _ (Qlt_le_weak _ _ HX0) E1). apply round_Z. lia. }
    rewrite R1, inject_Z_mult in HY. change (inject_Z 60) with 60 in HY.
    assert (E2 : Y == inject_Z k) by lra.
    assert (HY0 : 0 <= Y) by lra.
    assert (R2 : round Y == inject_Z k).
    { rewrite (round_comp Y _ HY0 E2). apply round_Z. lia. }
    rewrite (Qceiling_comp _ _ R2). apply Qceiling_Z.
  - (* otherwise the two roundings cannot reach the neighbouring integers *)
    replace ((d + 59999) / 60000)%Z with (k + 1)%Z
      by (Z.to_euclidean_division_equations; lia).
    assert (HR1 : 1 <= inject_Z r) by (rewrite <- (Zle_Qle 1); lia).
    assert (HR2 : inject_Z r <= inject_Z 59999) by (rewrite <- Zle_Qle; lia).
    change (inject_Z 59999) with 59999 in HR2.
    assert (E53 : pow2 (-53) == 1 # 9007199254740992) by reflexivity.
    destruct (round_error X HX0) as [A1 A2]. rewrite E53 in A1, A2.
    set (a := round X) in *.
    assert (HY0 : 0 < Y) by lra.
    destruct (round_error Y HY0) as [B1 B2]. rewrite E53 in B1, B2.
    set (b := round Y) in *.
    apply Qceiling_unique; [|rewrite inject_Z_succ]; lra.
Qed.

(** The largest binary64 value below 1 is 1 - 2^-53. *)
Lemma representable_below_1 u :
  representable u -> 0 <= u -> u < 1 -> u <= 1 - pow2 (-53).
Proof.
  unfold representable. intros Hrep H0 H1.
  assert (E53 : pow2 (-53) == 1 # 9007199254740992) by reflexivity.
  apply Qnot_lt_le. intros Hc. rewrite E53 in Hc.
  assert (Hu : 0 < u) by lra.
  assert (He : ilog2 u = (-1)%Z).
  { apply ilog2_unique.
    - change (pow2 (-1)) with (1 # 2). lra.
    - change (pow2 (-1 + 1)) with 1. lra. }
  rewrite (round_positive u Hu) in Hrep. unfold round_pos in Hrep.
  rewrite He in Hrep. change (-1 - 52)%Z with (-53)%Z in Hrep.
  assert (Ht : u / pow2 (-53) == u * 9007199254740992).
  { rewrite E53. field. }
  rewrite (rne_comp _ _ Ht), E53 in Hrep.
  set (k := rne (u * 9007199254740992)) in *.
  assert (K1 : inject_Z (2 ^ 53 - 1) < inject_Z k).
  { change (inject_Z (2 ^ 53 - 1)) with 9007199254740991. lra. }
  assert (K2 : inject_Z k < inject_Z (2 ^ 53)).
  { change (inject_Z (2 ^ 53)) with 9007199254740992. lra. }
  rewrite <- Zlt_Qlt in K1, K2. lia.
Qed.

Lemma Qeq_by_compute x y : Qeq_bool x y = true -> x == y.
Proof. apply Qeq_bool_eq. Qed.

Lemma random_code_range u :
  representable u -> 0 <= u -> u < 1 ->
  (100000 <= floor (add 100000 (mul u 900000)) <= 999999)%Z.
Proof.
  intros Hrep H0 H1.
  pose proof (representable_below_1 u Hrep H0 H1) as Hmax.
  assert (E53 : pow2 (-53) == 1 # 9007199254740992) by reflexivity.
  rewrite E53 in Hmax.
  unfold floor, add, mul.
  (* the product *)
  assert (P0 : 0 <= round (u * 900000)) by (apply round_nonneg; lra).
  assert (P1 : round (u * 900000) <= 900000 - pow2 (-33)).
  { rewrite <- (Qeq_by_compute (round ((1 - (1 # 9007199254740992)) * 900000))
                                (900000 - pow2 (-33))) by (vm_compute; reflexivity).
    apply round_le; lra. }
  assert (E33 : pow2 (-33) == 1 # 8589934592) by reflexivity.
  rewrite E33 in P1.
  set (p := round (u * 900000)) in *.
  (* the sum *)
  assert (S0 : 100000 <= round (100000 + p)).
  { rewrite <- (Qeq_by_compute (round 100000) 100000) at 1 by (vm_compute; reflexivity).
    apply round_le; lra. }
  assert (S1 : round (100000 + p) <= 1000000 - (1 # 8589934592)).
  { rewrite <- (Qeq_by_compute (round (1000000 - (1 # 8589934592)))
                                (1000000 - (1 # 8589934592))) by (vm_compute; reflexivity).
    apply round_le; lra. }
  set (s := round (100000 + p)) in *.
  split.
  - change 100000%Z with (Qfloor 100000). by apply Qfloor_resp_le.
  - change 999999%Z with (Qfloor (1000000 - (1 # 8589934592))). by apply Qfloor_resp_le.
Qed.

End DoubleFacts.

(* ===================================================================== *)
(** * Decimal notation *)
(* ===================================================================== *)

Section Decimal.
Lemma digit_char_spec d :
  0 <= d <= 9 ->
  is_digit (digit_char d) = true /\
  Z.of_nat (nat_of_ascii (digit_char d)) - 48 = d /\
  (d <> 0 -> digit_char d <> "0"%char).
Proof.
  intros H.
  assert (d = 0 \/ d = 1 \/ d = 2 \/ d = 3 \/ d = 4 \/ d = 5 \/ d = 6 \/ d = 7
          \/ d = 8 \/ d = 9) as Hd by lia.
  repeat (destruct Hd as [-> | Hd]); try subst d; repeat split; try done.
Qed.

(** The six digits of a number between 100000 and 999999 *)
Lemma toString_six n :
  100000 <= n <= 999999 ->
  toString n =
    String (digit_char (n / 100000))
      (String (digit_char (n / 10000 mod 10))
         (String (digit_char (n / 1000 mod 10))
            (String (digit_char (n / 100 mod 10))
               (String (digit_char (n / 10 mod 10))
                  (String (digit_char (n mod 10)) ""))))).
Proof.
  intros Hn. unfold toString.
  destruct (Z.ltb_spec n 0) as [|_]; [lia|].
  assert (Hlog : 16 <= Z.log2 n).
  { change 16 with (Z.log2 65536). apply Z.log2_le_mono. lia. }
  destruct (Z.to_nat (Z.log2 n)) as [|[|[|[|[|k]]]]] eqn:E; try lia.
  cbn [to_digits].
  rewrite !Z.div_div by lia. change (10 * 10) with 100.
  change (100 * 10) with 1000. change (1000 * 10) with 10000.
  change (10000 * 10) with 100000. change (100000 * 10) with 1000000.
  assert (n / 10 <> 0 /\ n / 100 <> 0 /\ n / 1000 <> 0 /\ n / 10000 <> 0
          /\ n / 100000 <> 0 /\ n / 1000000 = 0
          /\ (n / 100000) mod 10 = n / 100000) as (H1 & H2 & H3 & H4 & H5 & H6 & H7)
    by (Z.to_euclidean_division_equations; lia).
  apply Z.eqb_neq in H1, H2, H3, H4, H5. apply Z.eqb_eq in H6.
  by rewrite H1, H2, H3, H4, H5, H6, H7.
Qed.

Lemma six_digits_spec n :
  100000 <= n <= 999999 ->
  String.length (toString n) = 6%nat /\
  all_digits (toString n) = true /\
  parseDecimal (toString n) = Some n /\
  (exists c s, toString n = String c s /\ c <> "0"%char).
Proof.
  intros Hn. rewrite (toString_six n Hn).
  assert (0 <= n / 100000 <= 9 /\ n / 100000 <> 0 /\ 0 <= n / 10000 mod 10 <= 9
          /\ 0 <= n / 1000 mod 10 <= 9 /\ 0 <= n / 100 mod 10 <= 9
          /\ 0 <= n / 10 mod 10 <= 9 /\ 0 <= n mod 10 <= 9
          /\ 10 * (10 * (10 * (10 * (10 * (n / 100000) + n / 10000 mod 10)
                                + n / 1000 mod 10) + n / 100 mod 10)
                   + n / 10 mod 10) + n mod 10 = n)
    as (D5 & D5' & D4 & D3 & D2 & D1 & D0 & Hsum)
    by (Z.to_euclidean_division_equations; lia).
  destruct (digit_char_spec _ D5) as (I5 & V5 & N5).
  destruct (digit_char_spec _ D4) as (I4 & V4 & _).
  destruct (digit_char_spec _ D3) as (I3 & V3 & _).
  destruct (digit_char_spec _ D2) as (I2 & V2 & _).
  destruct (digit_char_spec _ D1) as (I1 & V1 & _).
  destruct (digit_char_spec _ D0) as (I0 & V0 & _).
  split; [done|]. split; [|split].
  - unfold all_digits. cbn [existsb_string]. by rewrite I5, I4, I3, I2, I1, I0.
  - unfold parseDecimal. cbn [digits_value].
    rewrite I5, I4, I3, I2, I1, I0, V5, V4, V3, V2, V1, V0.
    f_equal. lia.
  - eexists _, _. split; [done|]. by apply N5.
Qed.

End Decimal.

(* ===================================================================== *)
(** * The model at work *)
(* ===================================================================== *)

Section Examples.

Example toString_examples :
  toString 0 = "0" /\ toString 42 = "42" /\ toString 550000 = "550000" /\
  toString (-7) = "-7".
Proof. repeat split. Qed.

Example isValidEmail_examples :
  isValidEmail "ann@gmail.com" = true /\
  isValidEmail "ann@gmail" = false /\
  isValidEmail "ann@.com" = false /\
  isValidEmail "a nn@gmail.com" = false /\
  isValidEmail "ann@@gmail.com" = false.
Proof. repeat split. Qed.

Example isStrongPassword_examples :
  isStrongPassword "Passw0rdX" = true /\ isStrongPassword "password1" = false /\
  isStrongPassword "Pw0" = false.
Proof. repeat split. Qed.

(** 0.1 is not a binary64 value; the nearest one is
    3602879701896397 / 2^55. *)
Example round_one_tenth :
  Qred (Double.round (1 # 10)) = (3602879701896397 # 36028797018963968)%Q.
Proof. vm_compute. reflexivity. Qed.

(** The smallest, a middle and the largest draw of [Math.random] *)
Example generateOTP_examples :
  OTP.generateOTP (example_env 0 0 Accepts) = "100000" /\
  OTP.generateOTP (example_env 0 (1 # 2) Accepts) = "550000" /\
  OTP.generateOTP (example_env 0 (9007199254740991 # 9007199254740992) Accepts)
    = "999999".
Proof. vm_compute. repeat split. Qed.

Example minutes_until_examples :
  minutes_until 900000 = 15 /\ minutes_until 840001 = 15 /\
  minutes_until 840000 = 14 /\ minutes_until 1 = 1 /\ minutes_until 0 = 0.
Proof. vm_compute. repeat split. Qed.

(** Ann's signup: the code is mailed, then verified; the user exists,
    verified, and the record of the code is terminal. *)
Example signup_scenario :
  fst (run (signup_request_otp (example_env 1000 (1 # 2) Accepts) (ann_signup None))
           initial_world)
    = Res.mkRes 200 (Res.mkJson "OTP sent to your email. Please verify within 1 minute"
                                (Some ann) (Some 60) None None None None None) /\
  outbox world_requested = [mkMail ann verifyEmail "550000" 1] /\
  Res.status (fst (run (signup_verify_otp (example_env 2000 (1 # 2) Accepts)
                                          (ann_signup (Some "550000")))
                       world_requested)) = 201 /\
  List.map User.isEmailVerified (User.docs (users world_registered)) = [true] /\
  OTP.docs (otps world_registered)
    = [OTP.mkDoc 0 ann "550000" OTP.email_verification 1 61000 true 1000].
Proof. vm_compute. repeat split. Qed.

End Examples.

(* ===================================================================== *)
(** * Properties of the OTP store *)
(* ===================================================================== *)

Section OTPStore.

Implicit Types (c : OTP.collection) (d : OTP.doc) (e o : string) (p : OTP.Purpose).

Lemma most_recent_In best l d :
  OTP.most_recent best l = Some d -> best = Some d \/ In d l.
Proof.
  revert best. induction l as [|x l IH]; intros best H; simpl in *.
  - by left.
  - destruct best as [b|].
    + destruct (OTP.createdAt b <? OTP.createdAt x).
      * apply IH in H as [H|H]; [right; left; congruence | by right; right].
      * apply IH in H as [H|H]; [by left | by right; right].
    + apply IH in H as [H|H]; [right; left; congruence | by right; right].
Qed.

Lemma findOne_In e p c d :
  OTP.findOne e p c = Some d -> In d (OTP.docs c) /\ OTP.matches e p d = true.
Proof.
  unfold OTP.findOne. intros H.
  apply most_recent_In in H as [H|H]; [discriminate|].
  by apply List.filter_In in H.
Qed.

Lemma findOne_single e p c d :
  unverified_for e p c = [d] -> OTP.findOne e p c = Some d.
Proof. unfold unverified_for, OTP.findOne. by intros ->. Qed.

Lemma findOne_none e p c :
  unverified_for e p c = [] -> OTP.findOne e p c = None.
Proof. unfold unverified_for, OTP.findOne. by intros ->. Qed.

Lemma matches_spec e p d :
  OTP.matches e p d = true <->
  OTP.email d = OTP.email_setters e /\ OTP.purpose d = p /\ OTP.verified d = false.
Proof.
  unfold OTP.matches.
  rewrite !andb_true_iff, String.eqb_eq, negb_true_iff.
  assert (OTP.purpose_eqb (OTP.purpose d) p = true <-> OTP.purpose d = p)
    by (destruct (OTP.purpose d), p; simpl; split; congruence).
  tauto.
Qed.

Lemma filter_filter_negb {A} (f : A -> bool) (l : list A) :
  List.filter f (List.filter (fun x => negb (f x)) l) = [].
Proof.
  induction l as [|x l IH]; simpl; [done|].
  destruct (f x) eqn:E; simpl; [done|]. by rewrite E.
Qed.

Lemma filter_filter_length {A} (f g : A -> bool) (l : list A) :
  (length (List.filter f (List.filter g l)) <= length (List.filter f l))%nat.
Proof.
  induction l as [|x l IH]; simpl; [done|].
  destruct (g x), (f x) eqn:E; simpl; rewrite ?E; simpl; lia.
Qed.

Lemma filter_map_length {A} (f : A -> bool) (g : A -> A) (l : list A) :
  (forall x, In x l -> f (g x) = true -> f x = true) ->
  (length (List.filter f (List.map g l)) <= length (List.filter f l))%nat.
Proof.
  induction l as [|x l IH]; simpl; intros H; [done|].
  assert (IH' := IH (fun y Hy => H y (or_intror Hy))).
  destruct (f (g x)) eqn:E.
  - rewrite (H x (or_introl eq_refl) E). simpl. lia.
  - destruct (f x); simpl; lia.
Qed.

(** What [createOTP] leaves in the collection *)
Lemma createOTP_docs env e p m c :
  let d := OTP.mkDoc (OTP.next_id c) (OTP.email_setters e) (OTP.generateOTP env) p 0
                     (now env + m * 60 * 1000) false (now env) in
  OTP.createOTP env e p m c =
  (d, OTP.mkCollection
        (List.filter (fun x => negb (OTP.matches e p x)) (OTP.docs c) ++ [d])
        (S (OTP.next_id c))).
Proof. reflexivity. Qed.

Lemma createOTP_unverified env e p m c :
  unverified_for e p (snd (OTP.createOTP env e p m c)) =
  [fst (OTP.createOTP env e p m c)].
Proof.
  rewrite createOTP_docs. unfold unverified_for. simpl.
  rewrite List.filter_app, filter_filter_negb. simpl.
  unfold OTP.matches. simpl. rewrite String.eqb_refl. by destruct p.
Qed.

(** A code other than the stored one never verifies against [d]. *)
Lemma verifyOTP_mismatch env e o p c d :
  OTP.findOne e p c = Some d -> OTP.otp d <> o ->
  OTP.success (fst (OTP.verifyOTP env e o p c)) = false.
Proof.
  intros Hf Hne. unfold OTP.verifyOTP. rewrite Hf.
  destruct (OTP.isExpired _ _); [done|].
  destruct (OTP.hasExceededAttempts _); [done|].
  apply String.eqb_neq in Hne. by rewrite Hne.
Qed.

Lemma deleteOne_not_In d c x :
  In x (OTP.docs (OTP.deleteOne d c)) -> OTP._id x <> OTP._id d.
Proof.
  unfold OTP.deleteOne. simpl. intros H%List.filter_In.
  destruct H as [_ H]. apply negb_true_iff, Nat.eqb_neq in H. done.
Qed.

Lemma save_In d c x :
  In x (OTP.docs (OTP.save d c)) -> OTP._id x = OTP._id d -> x = d.
Proof.
  unfold OTP.save. simpl. intros H%List.in_map_iff Hid.
  destruct H as (y & Hy & _).
  destruct (Nat.eqb_spec (OTP._id y) (OTP._id d)); congruence.
Qed.

Lemma save_stored d d' c :
  In d (OTP.docs c) -> OTP._id d' = OTP._id d -> In d' (OTP.docs (OTP.save d' c)).
Proof.
  intros H Hid. unfold OTP.save. simpl. apply List.in_map_iff.
  exists d. split; [|done]. rewrite <- Hid. by rewrite Nat.eqb_refl.
Qed.

End OTPStore.

Section OTPInvariant.

Implicit Types (c : OTP.collection) (d : OTP.doc) (e o : string) (p : OTP.Purpose).

Lemma NoDup_map_filter {A B} (g : A -> B) (f : A -> bool) (l : list A) :
  NoDup (List.map g l) -> NoDup (List.map g (List.filter f l)).
Proof.
  induction l as [|x l IH]; simpl; [done|].
  rewrite NoDup_cons. intros [Hx Hl].
  destruct (f x); simpl; [|by apply IH].
  apply NoDup_cons. split; [|by apply IH].
  intros Hin. apply Hx.
  apply list_elem_of_In. apply list_elem_of_In in Hin.
  apply List.in_map_iff in Hin as (y & Hy & Hin).
  apply List.filter_In in Hin as [Hin _].
  apply List.in_map_iff. eauto.
Qed.

Lemma fresh_ids_filter f c :
  fresh_ids c -> fresh_ids (OTP.mkCollection (List.filter f (OTP.docs c)) (OTP.next_id c)).
Proof.
  intros [Hnd Hlt]. split; simpl.
  - by apply NoDup_map_filter.
  - intros d Hd%List.filter_In. apply Hlt, Hd.
Qed.

Lemma fresh_ids_inj c x y :
  fresh_ids c -> In x (OTP.docs c) -> In y (OTP.docs c) ->
  OTP._id x = OTP._id y -> x = y.
Proof.
  intros [Hnd _]. revert Hnd. generalize (OTP.docs c) as l.
  induction l as [|z l IH]; simpl; [done|].
  rewrite NoDup_cons. intros [Hz Hl] [->|Hx] [->|Hy] Hid; auto.
  - exfalso. apply Hz. rewrite Hid. apply list_elem_of_In.
    by apply List.in_map.
  - exfalso. apply Hz. rewrite <- Hid. apply list_elem_of_In.
    by apply List.in_map.
Qed.

Lemma fresh_ids_save d c :
  fresh_ids c -> fresh_ids (OTP.save d c).
Proof.
  intros [Hnd Hlt]. unfold OTP.save.
  assert (Hmap : forall l,
             List.map OTP._id
               (List.map (fun x => if Nat.eqb (OTP._id x) (OTP._id d) then d else x) l)
             = List.map OTP._id l).
  { induction l as [|x l IH]; simpl; [done|]. f_equal; [|done].
    by destruct (Nat.eqb_spec (OTP._id x) (OTP._id d)). }
  split; simpl.
  - by rewrite Hmap.
  - intros x Hx%List.in_map_iff. destruct Hx as (y & <- & Hy).
    destruct (Nat.eqb_spec (OTP._id y) (OTP._id d)) as [<-|]; by apply Hlt.
Qed.

Lemma fresh_ids_createOTP env e p m c :
  fresh_ids c -> fresh_ids (snd (OTP.createOTP env e p m c)).
Proof.
  intros Hc. rewrite createOTP_docs. simpl.
  destruct (fresh_ids_filter (fun x => negb (OTP.matches e p x)) c Hc) as [Hnd Hlt].
  simpl in *. split; simpl.
  - rewrite List.map_app. simpl. apply NoDup_app. split; [done|]. split.
    + intros n Hn%list_elem_of_In Hn'%list_elem_of_In.
      apply List.in_map_iff in Hn as (y & <- & Hy). apply Hlt in Hy.
      simpl in Hn'. lia.
    + apply NoDup_singleton.
  - intros d [Hd| [<-|[]]]%List.in_app_or; simpl; [|lia].
    apply Hlt in Hd. lia.
Qed.

Lemma fresh_ids_verifyOTP env e o p c :
  fresh_ids c -> fresh_ids (snd (OTP.verifyOTP env e o p c)).
Proof.
  intros Hc. unfold OTP.verifyOTP.
  destruct (OTP.findOne e p c) as [d|]; [|done].
  destruct (OTP.isExpired _ _); [by apply fresh_ids_filter|].
  destruct (OTP.hasExceededAttempts _); [by apply fresh_ids_filter|].
  destruct (negb _); by apply fresh_ids_save.
Qed.

Lemma at_most_one_filter f c :
  at_most_one_unverified c ->
  at_most_one_unverified (OTP.mkCollection (List.filter f (OTP.docs c)) (OTP.next_id c)).
Proof.
  intros H e p. specialize (H e p). unfold unverified_for in *. simpl.
  pose proof (filter_filter_length (OTP.matches e p) f (OTP.docs c)). lia.
Qed.

Lemma at_most_one_createOTP env e p m c :
  at_most_one_unverified c ->
  at_most_one_unverified (snd (OTP.createOTP env e p m c)).
Proof.
  intros H e' p'.
  destruct (decide (OTP.email_setters e' = OTP.email_setters e /\ p' = p))
    as [[He ->]|Hne].
  - replace (unverified_for e' p (snd (OTP.createOTP env e p m c)))
      with (unverified_for e p (snd (OTP.createOTP env e p m c)))
      by (unfold unverified_for, OTP.matches; by rewrite He).
    by rewrite createOTP_unverified.
  - rewrite createOTP_docs. unfold unverified_for. simpl.
    rewrite List.filter_app. simpl.
    replace (OTP.matches e' p' _) with false; cycle 1.
    { symmetry. apply not_true_iff_false. rewrite matches_spec. simpl.
      intros (? & ? & _). by apply Hne. }
    rewrite List.app_nil_r.
    pose proof (filter_filter_length (OTP.matches e' p')
                  (fun x => negb (OTP.matches e p x)) (OTP.docs c)).
    specialize (H e' p'). unfold unverified_for in H. lia.
Qed.

(** Saving an update of a stored document that leaves its identity and
    purpose alone, and does not turn it unverified again, creates no
    unverified document. *)
Lemma at_most_one_save d d' c :
  fresh_ids c -> In d (OTP.docs c) -> OTP._id d' = OTP._id d ->
  (forall e p, OTP.matches e p d' = true -> OTP.matches e p d = true) ->
  at_most_one_unverified c -> at_most_one_unverified (OTP.save d' c).
Proof.
  intros Hf Hd Hid Hm H e p. specialize (H e p).
  unfold unverified_for, OTP.save in *. simpl.
  etrans; [|exact H]. apply filter_map_length.
  intros x Hx. destruct (Nat.eqb_spec (OTP._id x) (OTP._id d')) as [Hxd|]; [|done].
  assert (x = d) as -> by (apply (fresh_ids_inj c); congruence). apply Hm.
Qed.

Lemma at_most_one_verifyOTP env e o p c :
  fresh_ids c -> at_most_one_unverified c ->
  at_most_one_unverified (snd (OTP.verifyOTP env e o p c)).
Proof.
  intros Hf Hc. unfold OTP.verifyOTP.
  destruct (OTP.findOne e p c) as [d|] eqn:Hd; [|done].
  apply findOne_In in Hd as [Hd _].
  destruct (OTP.isExpired _ _); [by apply at_most_one_filter|].
  destruct (OTP.hasExceededAttempts _); [by apply at_most_one_filter|].
  destruct (negb _); simpl; apply (at_most_one_save d); auto.
  intros e' p'. unfold OTP.matches. simpl.
  rewrite andb_false_r. discriminate.
Qed.

(** Every state the collection can be in *)
Lemma reachable_invariant c :
  reachable c -> fresh_ids c /\ at_most_one_unverified c.
Proof.
  induction 1 as [|op c _ [Hf Hc]].
  - split; [split; simpl; [apply NoDup_nil_2 | done] | intros e p; simpl; lia].
  - destruct op; simpl.
    + split; [by apply fresh_ids_createOTP | by apply at_most_one_createOTP].
    + split; [by apply fresh_ids_verifyOTP | by apply at_most_one_verifyOTP].
    + split; [by apply fresh_ids_filter | by apply at_most_one_filter].
    + split; [by apply fresh_ids_filter | by apply at_most_one_filter].
Qed.

Lemma at_most_one_found e p c d :
  at_most_one_unverified c -> OTP.findOne e p c = Some d ->
  unverified_for e p c = [d].
Proof.
  intros H Hd. specialize (H e p). unfold OTP.findOne in Hd.
  unfold unverified_for in *.
  destruct (List.filter _ _) as [|x [|y l]]; simpl in *; [done| |lia].
  congruence.
Qed.

Lemma deleteOne_unverified e p c d :
  unverified_for e p c = [d] -> unverified_for e p (OTP.deleteOne d c) = [].
Proof.
  unfold unverified_for, OTP.deleteOne. simpl. intros H.
  assert (Hall : forall x, In x (List.filter (OTP.matches e p) (OTP.docs c)) -> x = d).
  { rewrite H. by intros x [<-|[]]. }
  clear H. induction (OTP.docs c) as [|x l IH]; simpl in *; [done|].
  destruct (Nat.eqb_spec (OTP._id x) (OTP._id d)) as [Hid|Hid]; simpl.
  - apply IH. intros y Hy. apply Hall. destruct (OTP.matches e p x); [by right|done].
  - destruct (OTP.matches e p x) eqn:E.
    + exfalso. apply Hid. by rewrite (Hall x (or_introl eq_refl)).
    + apply IH. intros y Hy. by apply Hall.
Qed.

End OTPInvariant.

(* ===================================================================== *)
(** * The OTP life cycle *)
(* ===================================================================== *)

Section OTPLifeCycle.

Implicit Types (c : OTP.collection) (d : OTP.doc) (e o : string) (p : OTP.Purpose).

Lemma reachable_requested : reachable requested.
Proof. apply reachable_step, reachable_empty. Qed.

Lemma reachable_guessed_thrice : reachable guessed_thrice.
Proof. do 3 apply reachable_step. apply reachable_requested. Qed.

(** C2, as stated, fails: when the generator draws the same number for
    the second code, the first record's code verifies again, against
    the new record. *)
Lemma createOTP_same_code_verifies :
  let env2 := example_env 2000 (1 # 2) Accepts in
  let second := OTP.createOTP env2 ann OTP.email_verification 1 requested in
  let old := OTP.mkDoc 0 ann "550000" OTP.email_verification 0 61000 false 1000 in
  In old (OTP.docs requested) /\
  OTP.matches ann OTP.email_verification old = true /\
  ~ In old (OTP.docs (snd second)) /\
  OTP.success
    (fst (OTP.verifyOTP (example_env 3000 (1 # 2) Accepts)
                        ann (OTP.otp old) OTP.email_verification (snd second))) = true.
Proof.
  cbv zeta. split; [left; vm_compute; reflexivity|].
  split; [vm_compute; reflexivity|].
  split; [|vm_compute; reflexivity].
  vm_compute. intros [H|[]]. discriminate H.
Qed.

(** C2 (amended).  In every reachable state of the collection each
    (identity, purpose) pair has at most one unverified record.
    [createOTP] deletes the unverified records of its pair and inserts
    the new one, which is then the pair's only unverified record; every
    earlier unverified record of the pair is gone, and its code no
    longer verifies, at any later time, unless it coincides with the
    newly generated code. *)
Theorem createOTP_invalidates_earlier c :
  reachable c ->
  at_most_one_unverified c /\
  forall env e p m,
    let r := OTP.createOTP env e p m c in
    unverified_for e p (snd r) = [fst r] /\
    forall old,
      In old (OTP.docs c) -> OTP.matches e p old = true ->
      ~ In old (OTP.docs (snd r)) /\
      (OTP.otp old <> OTP.otp (fst r) ->
       forall env',
         OTP.success (fst (OTP.verifyOTP env' e (OTP.otp old) p (snd r))) = false).
Proof.
  intros [[_ Hlt] Hone]%reachable_invariant. split; [done|].
  intros env e p m r. split; [apply createOTP_unverified|].
  intros old Hold Hm. split.
  - subst r. rewrite createOTP_docs. simpl.
    intros [Hin | [Heq | []]]%List.in_app_or.
    + apply List.filter_In in Hin as [_ Hin]. by rewrite Hm in Hin.
    + apply Hlt in Hold. rewrite <- Heq in Hold. simpl in Hold. lia.
  - intros Hne env'. apply verifyOTP_mismatch with (d := fst r); [|done].
    apply findOne_single, createOTP_unverified.
Qed.

Lemma createOTP_invalidates_earlier_witness :
  reachable requested /\
  (at_most_one_unverified requested /\
   forall env e p m,
     let r := OTP.createOTP env e p m requested in
     unverified_for e p (snd r) = [fst r] /\
     forall old,
       In old (OTP.docs requested) -> OTP.matches e p old = true ->
       ~ In old (OTP.docs (snd r)) /\
       (OTP.otp old <> OTP.otp (fst r) ->
        forall env',
          OTP.success (fst (OTP.verifyOTP env' e (OTP.otp old) p (snd r))) = false)).
Proof.
  split.
  - apply reachable_step, reachable_empty.
  - apply (createOTP_invalidates_earlier requested).
    apply reachable_step, reachable_empty.
Defined.

(** C3.  When the record [verifyOTP] fetches for (identity, purpose) is
    unexpired and has fewer than 3 attempts, a call with a code other
    than the stored one adds exactly 1 to [attempts], saves the record,
    leaves [verified] false, and fails with the message
    "Invalid OTP. N attempts remaining", N = 3 - attempts after the
    increment. *)
Theorem verifyOTP_wrong_code env e o p c d :
  OTP.findOne e p c = Some d ->
  now env <= OTP.expiresAt d ->
  OTP.attempts d < 3 ->
  OTP.otp d <> o ->
  let d' := OTP.with_attempts (OTP.attempts d + 1) d in
  OTP.verified d = false /\
  OTP.verifyOTP env e o p c =
    (OTP.mkResult false (msg_invalid (3 - (OTP.attempts d + 1)))
                  (Some (3 - (OTP.attempts d + 1))),
     OTP.save d' c) /\
  OTP.attempts d' = OTP.attempts d + 1 /\
  OTP.verified d' = false /\
  In d' (OTP.docs (OTP.save d' c)) /\
  (forall x, In x (OTP.docs (OTP.save d' c)) -> OTP._id x = OTP._id d -> x = d').
Proof.
  intros Hf Hexp Hatt Hne d'.
  destruct (findOne_In _ _ _ _ Hf) as [Hin Hm].
  apply matches_spec in Hm as (_ & _ & Hv).
  split; [done|]. split; [|split; [done|split; [done|split]]].
  - unfold OTP.verifyOTP. rewrite Hf.
    unfold OTP.isExpired, OTP.hasExceededAttempts.
    destruct (Z.ltb_spec (OTP.expiresAt d) (now env)); [lia|].
    destruct (Z.leb_spec 3 (OTP.attempts d)); [lia|].
    apply String.eqb_neq in Hne. by rewrite Hne.
  - by apply (save_stored d).
  - intros x Hx Hid. by apply (save_In d' c).
Qed.

Lemma verifyOTP_wrong_code_witness :
  let env := example_env 2000 (1 # 2) Accepts in
  let d := OTP.mkDoc 0 ann "550000" OTP.email_verification 0 61000 false 1000 in
  OTP.verifyOTP env ann "000000" OTP.email_verification requested =
    (OTP.mkResult false "Invalid OTP. 2 attempts remaining" (Some 2),
     OTP.save (OTP.with_attempts 1 d) requested).
Proof.
  cbv zeta.
  refine (proj1 (proj2 (verifyOTP_wrong_code
                          (example_env 2000 (1 # 2) Accepts)
                          ann "000000" OTP.email_verification requested
                          (OTP.mkDoc 0 ann "550000" OTP.email_verification
                                     0 61000 false 1000)
                          _ _ _ _))).
  - vm_compute. reflexivity.
  - simpl. lia.
  - simpl. lia.
  - simpl. discriminate.
Defined.

(** C4, as stated, fails: a record that has used up its attempts and
    has also expired is answered with the "expired" message, not the
    "too many attempts" one. *)
Lemma exhausted_and_expired_says_expired :
  let env := example_env 70000 (1 # 2) Accepts in
  let d := OTP.mkDoc 0 ann "550000" OTP.email_verification 3 61000 false 1000 in
  OTP.findOne ann OTP.email_verification guessed_thrice = Some d /\
  OTP.attempts d = 3 /\
  OTP.verifyOTP env ann "550000" OTP.email_verification guessed_thrice =
    (OTP.mkResult false msg_expired None, OTP.deleteOne d guessed_thrice) /\
  msg_expired <> msg_too_many.
Proof. cbv zeta. repeat split; try (vm_compute; reflexivity). discriminate. Qed.

(** C4 (amended).  Once the attempts count of the record [verifyOTP]
    fetches has reached 3, every further call for that pair, whatever
    the code (the correct one included), deletes the record and fails:
    with the "too many attempts" message while the record is unexpired,
    with the "expired" message once it has expired.  With at most one
    unverified record per pair, every later call then fails with
    "not found" until a new code is created. *)
Theorem verifyOTP_attempts_exhausted env e o p c d :
  OTP.findOne e p c = Some d ->
  3 <= OTP.attempts d ->
  OTP.verifyOTP env e o p c =
    (OTP.mkResult false
                  (if OTP.expiresAt d <? now env then msg_expired else msg_too_many)
                  None,
     OTP.deleteOne d c) /\
  (forall x, In x (OTP.docs (OTP.deleteOne d c)) -> OTP._id x <> OTP._id d) /\
  (at_most_one_unverified c ->
   forall env' o',
     OTP.verifyOTP env' e o' p (OTP.deleteOne d c) =
       (OTP.mkResult false msg_not_found None, OTP.deleteOne d c)).
Proof.
  intros Hf Hatt. split; [|split].
  - unfold OTP.verifyOTP. rewrite Hf.
    unfold OTP.isExpired, OTP.hasExceededAttempts.
    destruct (OTP.expiresAt d <? now env); [done|].
    destruct (Z.leb_spec 3 (OTP.attempts d)); [done|lia].
  - intros x. apply deleteOne_not_In.
  - intros Hone env' o'. unfold OTP.verifyOTP.
    by rewrite (findOne_none _ _ _
                  (deleteOne_unverified _ _ _ _ (at_most_one_found _ _ _ _ Hone Hf))).
Qed.

Lemma verifyOTP_attempts_exhausted_witness :
  let env := example_env 5000 (1 # 2) Accepts in
  let d := OTP.mkDoc 0 ann "550000" OTP.email_verification 3 61000 false 1000 in
  OTP.verifyOTP env ann "550000" OTP.email_verification guessed_thrice =
    (OTP.mkResult false msg_too_many None, OTP.deleteOne d guessed_thrice).
Proof.
  cbv zeta.
  refine (proj1 (verifyOTP_attempts_exhausted
                   (example_env 5000 (1 # 2) Accepts)
                   ann "550000" OTP.email_verification guessed_thrice
                   (OTP.mkDoc 0 ann "550000" OTP.email_verification
                              3 61000 false 1000)
                   _ _)).
  - vm_compute. reflexivity.
  - simpl. lia.
Defined.




End OTPLifeCycle.

(* ===================================================================== *)
(** * The rate limiter *)
(* ===================================================================== *)

Section RateLimiter.

Variables (key : string) (M W : Z).

Implicit Types (m : gmap string RateRecord) (r : RateRecord) (t : Z).

Lemma checkRateLimit_at_app l1 l2 m :
  checkRateLimit_at (l1 ++ l2) key M W m =
  ((fst (checkRateLimit_at l1 key M W m)
      ++ fst (checkRateLimit_at l2 key M W (snd (checkRateLimit_at l1 key M W m))))%list,
   snd (checkRateLimit_at l2 key M W (snd (checkRateLimit_at l1 key M W m)))).
Proof.
  revert m. induction l1 as [|t l1 IH]; intros m; simpl.
  - by destruct (checkRateLimit_at l2 key M W m).
  - destruct (checkRateLimit t key M W m) as [r m1]. rewrite IH.
    destruct (checkRateLimit_at l1 key M W m1) as [rs m2]. done.
Qed.

(** A call that finds no record, or a record whose [resetTime] has
    passed, opens a window. *)
Lemma checkRateLimit_fresh t m :
  m !! key = None \/ (exists r, m !! key = Some r /\ resetTime r < t) ->
  checkRateLimit t key M W m =
    (mkRateLimit true (M - 1) None, <[key := mkRateRecord 1 (t + W)]> m).
Proof.
  unfold checkRateLimit. intros [-> | (r & -> & Hr)]; [done|].
  by destruct (Z.ltb_spec (resetTime r) t); [|lia].
Qed.

(** The stored count stays within the maximum. *)
Lemma checkRateLimit_count t m :
  1 <= M ->
  (forall r, m !! key = Some r -> count r <= M) ->
  forall r, snd (checkRateLimit t key M W m) !! key = Some r -> count r <= M.
Proof.
  intros HM Hm r. unfold checkRateLimit.
  destruct (m !! key) as [r0|] eqn:E; simpl.
  - destruct (resetTime r0 <? t); simpl.
    + rewrite lookup_insert_eq. intros [= <-]. simpl. lia.
    + destruct (Z.leb_spec M (count r0)); simpl.
      * rewrite E. intros [= <-]. by apply Hm.
      * rewrite lookup_insert_eq. intros [= <-]. simpl. lia.
  - rewrite lookup_insert_eq. intros [= <-]. simpl. lia.
Qed.

Lemma checkRateLimit_at_count times m :
  1 <= M ->
  (forall r, m !! key = Some r -> count r <= M) ->
  forall r, snd (checkRateLimit_at times key M W m) !! key = Some r -> count r <= M.
Proof.
  intros HM. revert m. induction times as [|t times IH]; intros m Hm r; simpl.
  - apply Hm.
  - pose proof (checkRateLimit_count t m HM Hm) as H1.
    destruct (checkRateLimit t key M W m) as [r1 m1]. simpl in H1.
    specialize (IH m1 H1 r).
    by destruct (checkRateLimit_at times key M W m1) as [rs m2].
Qed.

(** Calls inside an open window are counted and allowed as long as the
    count has room. *)
Lemma checkRateLimit_at_within times m r :
  m !! key = Some r ->
  (forall t, In t times -> t <= resetTime r) ->
  count r + Z.of_nat (length times) <= M ->
  Forall (fun x => allowed x = true) (fst (checkRateLimit_at times key M W m)) /\
  length (fst (checkRateLimit_at times key M W m)) = length times /\
  snd (checkRateLimit_at times key M W m) !! key =
    Some (mkRateRecord (count r + Z.of_nat (length times)) (resetTime r)).
Proof.
  revert m r. induction times as [|t times IH]; intros m r Hm Ht Hc; simpl.
  - repeat split; [constructor|]. rewrite Hm, Z.add_0_r. by destruct r.
  - simpl in Hc. unfold checkRateLimit. rewrite Hm.
    destruct (Z.ltb_spec (resetTime r) t) as [Hlt|_].
    { specialize (Ht t (or_introl eq_refl)). lia. }
    destruct (Z.leb_spec M (count r)); [lia|].
    specialize (IH (<[key := mkRateRecord (count r + 1) (resetTime r)]> m)
                   (mkRateRecord (count r + 1) (resetTime r))).
    destruct IH as (Hall & Hlen & Hlook).
    + apply lookup_insert_eq.
    + intros t' Ht'. apply Ht. by right.
    + simpl. lia.
    + destruct (checkRateLimit_at times key M W _) as [rs m2]. simpl in *.
      repeat split; [by constructor | by f_equal |].
      rewrite Hlook. do 2 f_equal. lia.
Qed.

(** A call that finds the window open and full is rejected. *)
Lemma checkRateLimit_full t m r :
  m !! key = Some r -> t <= resetTime r -> M <= count r ->
  checkRateLimit t key M W m =
    (mkRateLimit false 0 (Some (minutes_until (resetTime r - t))), m).
Proof.
  intros Hm Ht Hc. unfold checkRateLimit. rewrite Hm.
  destruct (Z.ltb_spec (resetTime r) t); [lia|].
  by destruct (Z.leb_spec M (count r)); [|lia].
Qed.

(** The (M+1)-th call within W of the first *)
Lemma checkRateLimit_at_rejects t1 rest tlast m :
  1 <= M ->
  m !! key = None \/ (exists r, m !! key = Some r /\ resetTime r < t1) ->
  Z.of_nat (length rest) = M - 1 ->
  (forall t, In t (rest ++ [tlast])%list -> t <= t1 + W) ->
  exists firsts,
    fst (checkRateLimit_at (t1 :: rest ++ [tlast])%list key M W m) =
      (firsts ++ [mkRateLimit false 0 (Some (minutes_until (t1 + W - tlast)))])%list /\
    Z.of_nat (length firsts) = M /\
    Forall (fun x => allowed x = true) firsts.
Proof.
  intros HM Hfresh Hlen Hin. simpl.
  rewrite (checkRateLimit_fresh _ _ Hfresh).
  set (m1 := <[key := mkRateRecord 1 (t1 + W)]> m).
  rewrite checkRateLimit_at_app.
  destruct (checkRateLimit_at_within rest m1 (mkRateRecord 1 (t1 + W)))
    as (Hall & Hl & Hlook).
  { apply lookup_insert_eq. }
  { intros t Ht. apply Hin, List.in_or_app. by left. }
  { simpl. lia. }
  simpl in Hlook.
  destruct (checkRateLimit_at rest key M W m1) as [rs m2]. simpl in *.
  rewrite (checkRateLimit_full tlast m2 _ Hlook); simpl.
  - exists (mkRateLimit true (M - 1) None :: rs). repeat split.
    + simpl. lia.
    + by constructor.
  - apply Hin, List.in_or_app. right. by left.
  - lia.
Qed.

End RateLimiter.

(* ===================================================================== *)
(** * Code generation *)
(* ===================================================================== *)

Section CodeGeneration.

Lemma generateOTP_value env :
  OTP.generateOTP env =
  toString (Double.floor
              (Double.add 100000 (Double.mul (random env MathRandom) 900000))).
Proof. reflexivity. Qed.

(** C10.  Whenever [Math.random()] yields a binary64 value in [0, 1),
    the code [generateOTP] returns is a string of exactly 6 decimal
    digits that denotes a number between 100000 and 999999; its first
    digit is not 0.  (That the draw is a binary64 value matters: the
    largest one below 1 is 1 - 2^-53, and its product with 900000 still
    rounds below 900000.) *)
Theorem generateOTP_six_digits env :
  Double.representable (random env MathRandom) ->
  (0 <= random env MathRandom)%Q ->
  (random env MathRandom < 1)%Q ->
  exists n,
    parseDecimal (OTP.generateOTP env) = Some n /\
    100000 <= n <= 999999 /\
    String.length (OTP.generateOTP env) = 6%nat /\
    all_digits (OTP.generateOTP env) = true /\
    exists c s, OTP.generateOTP env = String c s /\ c <> "0"%char.
Proof.
  intros Hrep H0 H1. rewrite generateOTP_value.
  pose proof (DoubleFacts.random_code_range _ Hrep H0 H1) as Hn.
  destruct (six_digits_spec _ Hn) as (Hlen & Hall & Hval & Hlead).
  eexists. repeat split; eauto; lia.
Qed.

(** The bound on the draw is about binary64 values, not about reals: on
    the rational 1 - 2^-60, which no binary64 value equals, the same
    arithmetic rounds the product to 900000 and prints seven digits. *)
Remark generateOTP_on_a_non_binary64_draw :
  let u := (1 - (1 # 1152921504606846976))%Q in
  (0 <= u)%Q /\ (u < 1)%Q /\ ~ Double.representable u /\
  OTP.generateOTP (example_env 0 u Accepts) = "1000000".
Proof.
  cbv zeta. split; [|split; [|split]]; try (vm_compute; reflexivity).
  - vm_compute. discriminate.
  - unfold Double.representable. intros H. apply Qeq_bool_iff in H.
    vm_compute in H. discriminate.
Qed.

Lemma generateOTP_six_digits_witness :
  exists n,
    parseDecimal (OTP.generateOTP (example_env 1000 (1 # 2) Accepts)) = Some n /\
    100000 <= n <= 999999 /\
    String.length (OTP.generateOTP (example_env 1000 (1 # 2) Accepts)) = 6%nat /\
    all_digits (OTP.generateOTP (example_env 1000 (1 # 2) Accepts)) = true /\
    exists c s,
      OTP.generateOTP (example_env 1000 (1 # 2) Accepts) = String c s /\
      c <> "0"%char.
Proof.
  apply (generateOTP_six_digits (example_env 1000 (1 # 2) Accepts)).
  - vm_compute. reflexivity.
  - vm_compute. discriminate.
  - vm_compute. reflexivity.
Defined.

(** C8 is not what the code does.  The code is a function of the draw of
    [Math.random] alone: two runtimes that agree on that draw produce the
    same code whatever their cryptographic generators yield, the code
    changes with the draw of [Math.random] while the cryptographic
    generator stays put, and [Math.random] is not a cryptographically
    sound source. *)
Theorem generateOTP_draws_from_Math_random :
  (forall env env',
     random env MathRandom = random env' MathRandom ->
     OTP.generateOTP env = OTP.generateOTP env') /\
  (exists env env',
     random env CryptoRandom = random env' CryptoRandom /\
     OTP.generateOTP env <> OTP.generateOTP env') /\
  cryptographically_sound MathRandom = false.
Proof.
  split; [|split; [|reflexivity]].
  - intros env env' H. rewrite !generateOTP_value. by rewrite H.
  - exists (mkEnv 0 (fun s => match s with MathRandom => 0%Q | CryptoRandom => (1 # 3)%Q end)
                  Accepts "secret" id (fun _ _ => true)),
           (mkEnv 0 (fun s => match s with MathRandom => (1 # 2)%Q | CryptoRandom => (1 # 3)%Q end)
                  Accepts "secret" id (fun _ _ => true)).
    split; [reflexivity|]. vm_compute. discriminate.
Qed.

End CodeGeneration.

(* ===================================================================== *)
(** * The rate-limit window *)
(* ===================================================================== *)

Section RateLimitWindow.

(** C5, as stated, fails at the boundary: a call made exactly at
    [resetTime] still belongs to the old window, and is rejected (with
    "0 minutes" left) when the window is full.  It also fails for a
    maximum of 0: the first call is allowed and stores the count 1. *)
Lemma checkRateLimit_at_reset_instant_rejects :
  let key := "signup:ann@gmail.com" in
  let m := snd (checkRateLimit_at [0; 1; 2] key 3 900000 ∅) in
  (m !! key = Some (mkRateRecord 3 900000) /\
   900000 >= 900000 /\
   checkRateLimit 900000 key 3 900000 m = (mkRateLimit false 0 (Some 0), m)) /\
  (checkRateLimit 0 key 0 900000 ∅ =
     (mkRateLimit true (-1) None, {[key := mkRateRecord 1 900000]}) /\
   1 > 0).
Proof. cbv zeta. repeat split; try (vm_compute; reflexivity). lia. Qed.

(** C5 (amended).  For [checkRateLimit(key, M, W)] with M >= 1:
    the stored count of the key never exceeds M; the (M+1)-th call made
    within W of the call that opened the window is rejected and reports
    the minutes until [resetTime], rounded up; and a call made at a time
    [now > resetTime] is allowed and restarts the window with count 1
    (a call at [now = resetTime] still counts in the old window). *)
Theorem checkRateLimit_window key M W :
  1 <= M ->
  (forall times m,
     (forall r, m !! key = Some r -> count r <= M) ->
     forall r, snd (checkRateLimit_at times key M W m) !! key = Some r ->
               count r <= M) /\
  (forall t1 rest tlast m,
     m !! key = None \/ (exists r, m !! key = Some r /\ resetTime r < t1) ->
     Z.of_nat (length rest) = M - 1 ->
     (forall t, In t (rest ++ [tlast])%list -> t <= t1 + W) ->
     (exists firsts,
        fst (checkRateLimit_at (t1 :: rest ++ [tlast])%list key M W m) =
          (firsts ++ [mkRateLimit false 0 (Some (minutes_until (t1 + W - tlast)))])%list /\
        Z.of_nat (length firsts) = M /\
        Forall (fun x => allowed x = true) firsts) /\
     (t1 + W - tlast < 2 ^ 50 ->
      minutes_until (t1 + W - tlast) = (t1 + W - tlast + 59999) / 60000)) /\
  (forall t m r,
     m !! key = Some r -> resetTime r < t ->
     checkRateLimit t key M W m =
       (mkRateLimit true (M - 1) None, <[key := mkRateRecord 1 (t + W)]> m)).
Proof.
  intros HM. split; [|split].
  - intros times m. by apply checkRateLimit_at_count.
  - intros t1 rest tlast m Hfresh Hlen Hin. split.
    + by apply checkRateLimit_at_rejects.
    + intros Hbound. apply DoubleFacts.minutes_until_exact. split; [|done].
      assert (In tlast (rest ++ [tlast])) as Hlast
        by (apply List.in_or_app; right; by left).
      specialize (Hin tlast Hlast). lia.
  - intros t m r Hm Hr. apply checkRateLimit_fresh. right. eauto.
Qed.

Lemma checkRateLimit_window_witness :
  let key := "signup:ann@gmail.com" in
  (exists firsts,
     fst (checkRateLimit_at (1000 :: [2000; 3000] ++ [4000])%list key 3 900000 ∅) =
       (firsts ++ [mkRateLimit false 0 (Some (minutes_until (1000 + 900000 - 4000)))])%list /\
     Z.of_nat (length firsts) = 3 /\
     Forall (fun x => allowed x = true) firsts) /\
  (1000 + 900000 - 4000 < 2 ^ 50 ->
   minutes_until (1000 + 900000 - 4000) = (1000 + 900000 - 4000 + 59999) / 60000).
Proof.
  cbv zeta.
  refine (proj1 (proj2 (checkRateLimit_window "signup:ann@gmail.com" 3 900000 _))
                1000 [2000; 3000] 4000 ∅ _ _ _).
  - lia.
  - left. reflexivity.
  - reflexivity.
  - simpl. intros t [<-|[<-|[<-|[]]]]; lia.
Defined.

End RateLimitWindow.

(* ===================================================================== *)
(** * The route handlers *)
(* ===================================================================== *)

Ltac run_handler :=
  unfold run, reject_if, respond, mbind, Handler_bind, mret, Handler_ret,
         User_findOne, User_save, User_create, OTP_createOTP, OTP_verifyOTP,
         OTP_deleteOne, rate_limit, try_send in *.

Section ResetPassword.

(** C7, as stated, fails: the strength of the new password is checked
    before the credential is looked at, so a credential with the wrong
    purpose tag presented with a weak password is answered 400, not
    401. *)
Lemma reset_password_weak_password_first :
  let env := example_env 5000 (1 # 2) Accepts in
  let payload := mkPayload None (Some ann) (Some "email_verification") in
  let tok := Signed "secret" 900 payload in
  let b := Req.mkBody None None None None None (Some "weak") (Some tok) in
  jwt_verify env tok = Some payload /\
  purpose_tag tok <> Some "password_reset" /\
  Res.status (fst (run (reset_password env b) world_registered)) = 400 /\
  400 <> 401.
Proof. cbv zeta. repeat split; try (vm_compute; reflexivity); discriminate. Qed.

(** C7 (amended).  [/reset-password] succeeds only on a credential
    whose signature and expiry are valid and whose purpose tag is
    [password_reset].  For every credential with any other purpose tag
    (or none) the request is rejected and nothing is changed; the
    rejection is a 401 whenever the request passes the input validation
    that precedes the credential check (a new password that is present
    and strong), and the 400 of that validation otherwise. *)
Theorem reset_password_purpose env b w :
  (Res.status (fst (run (reset_password env b) w)) = 200 ->
   exists exp payload,
     Req.resetToken b = Some (Signed (JWT_SECRET env) exp payload) /\
     now env / 1000 < exp /\
     claim_purpose payload = Some "password_reset") /\
  (forall tok,
     Req.resetToken b = Some tok ->
     purpose_tag tok <> Some "password_reset" ->
     snd (run (reset_password env b) w) = w /\
     (Res.status (fst (run (reset_password env b) w)) = 401 \/
      Res.status (fst (run (reset_password env b) w)) = 400) /\
     (truthy (Req.newPassword b) = true ->
      isStrongPassword (field (Req.newPassword b)) = true ->
      Res.status (fst (run (reset_password env b) w)) = 401) /\
     (truthy (Req.newPassword b) = false \/
      isStrongPassword (field (Req.newPassword b)) = false ->
      Res.status (fst (run (reset_password env b) w)) = 400)).
Proof.
  split.
  - unfold reset_password. run_handler.
    destruct (Req.resetToken b) as [tok|]; simpl; [|discriminate].
    destruct (truthy (Req.newPassword b)); simpl; [|discriminate].
    destruct (isStrongPassword _); simpl; [|discriminate].
    destruct tok as [|key exp payload]; simpl; [discriminate|].
    destruct (String.eqb_spec key (JWT_SECRET env)) as [->|]; simpl; [|discriminate].
    destruct (Z.ltb_spec (now env / 1000) exp); simpl; [|discriminate].
    destruct (bool_decide _) eqn:E; simpl; [|discriminate].
    apply bool_decide_eq_true in E. eauto.
  - intros tok Htok Htag. unfold reset_password. rewrite Htok. run_handler. simpl.
    destruct (truthy (Req.newPassword b)); simpl; [|by intuition].
    destruct (isStrongPassword _); simpl; [|by intuition].
    destruct tok as [|key exp payload]; simpl; [by intuition|].
    destruct (_ && _); simpl; [|by intuition].
    simpl in Htag.
    destruct (bool_decide _) eqn:E; simpl; [|by intuition].
    apply bool_decide_eq_true in E. done.
Qed.

Lemma reset_password_purpose_witness :
  let env := example_env 5000 (1 # 2) Accepts in
  let tok := Signed "secret" 900 (mkPayload None (Some ann) (Some "email_verification")) in
  let b := Req.mkBody None None None None None (Some "N3wPassword") (Some tok) in
  snd (run (reset_password env b) world_registered) = world_registered /\
  Res.status (fst (run (reset_password env b) world_registered)) = 401.
Proof.
  cbv zeta.
  destruct (proj2 (reset_password_purpose
                     (example_env 5000 (1 # 2) Accepts)
                     (Req.mkBody None None None None None (Some "N3wPassword")
                        (Some (Signed "secret" 900
                                 (mkPayload None (Some ann) (Some "email_verification")))))
                     world_registered)
                  (Signed "secret" 900
                     (mkPayload None (Some ann) (Some "email_verification")))
                  eq_refl ltac:(simpl; discriminate))
    as (Hw & _ & H401 & _).
  split; [exact Hw|]. apply H401; vm_compute; reflexivity.
Defined.

End ResetPassword.

Section SignupVerify.

Lemma save_changes d d' c :
  In d (OTP.docs c) -> OTP._id d' = OTP._id d -> d' <> d -> OTP.save d' c <> c.
Proof.
  intros Hin Hid Hne Heq. apply Hne.
  assert (Hmap : List.map (fun x => if Nat.eqb (OTP._id x) (OTP._id d') then d' else x)
                          (OTP.docs c) = OTP.docs c).
  { by rewrite <- Heq at 2. }
  revert Hin Hmap. generalize (OTP.docs c) as l.
  induction l as [|x l IH]; simpl; [done|].
  intros [->|Hin] [= Hx Hl]; [|by apply IH].
  rewrite Hid, Nat.eqb_refl in Hx. done.
Qed.

(** C9.  In [/signup/verify-otp] the code is verified, and a correct
    code is marked verified and saved, before the handler looks the
    email up among the users.  So whenever the handler answers
    400 "Email already registered", the record [verifyOTP] fetched held
    the submitted code and is now stored as verified, with one more
    attempt: the OTP collection has changed although the request
    failed, and nothing else has. *)
Theorem signup_verify_otp_consumes_code env b w :
  fst (run (signup_verify_otp env b) w) =
    Res.mkRes 400 (Res.msg "Email already registered") ->
  exists d,
    OTP.findOne (trim (toLowerCase (field (Req.email b)))) OTP.email_verification (otps w)
      = Some d /\
    OTP.otp d = field (Req.otp b) /\
    OTP.verified d = false /\
    let d' := OTP.with_attempts (OTP.attempts d + 1) (OTP.with_verified true d) in
    snd (run (signup_verify_otp env b) w) = set_otps (OTP.save d' (otps w)) w /\
    In d' (OTP.docs (otps (snd (run (signup_verify_otp env b) w)))) /\
    OTP.verified d' = true /\
    otps (snd (run (signup_verify_otp env b) w)) <> otps w.
Proof.
  unfold signup_verify_otp. run_handler.
  destruct (negb (truthy (Req.name b)) || _ || _ || _); simpl; [discriminate|].
  unfold OTP.verifyOTP.
  destruct (OTP.findOne _ _ _) as [d|] eqn:Hf; simpl; [|discriminate].
  destruct (OTP.isExpired _ _); simpl; [discriminate|].
  destruct (OTP.hasExceededAttempts _); simpl; [discriminate|].
  destruct (String.eqb_spec (OTP.otp d) (field (Req.otp b))) as [Ho|_]; simpl;
    [|discriminate].
  destruct (findOne_In _ _ _ _ Hf) as [Hin Hm].
  apply matches_spec in Hm as (_ & _ & Hv).
  destruct (User.findOne _ _) as [u|]; simpl.
  - destruct (User.isEmailVerified u); simpl; [|discriminate].
    intros _. exists d. repeat split; auto.
    + by apply (save_stored d).
    + apply (save_changes d); [done|done|]. intros E.
      apply (f_equal OTP.verified) in E. simpl in E. congruence.
  - discriminate.
Qed.

Lemma signup_verify_otp_consumes_code_witness :
  let env := example_env 4000 (1 # 2) Accepts in
  let b := ann_signup (Some "325000") in
  exists d,
    OTP.findOne (trim (toLowerCase (field (Req.email b)))) OTP.email_verification
                (otps world_resent) = Some d /\
    OTP.otp d = field (Req.otp b) /\
    OTP.verified d = false /\
    let d' := OTP.with_attempts (OTP.attempts d + 1) (OTP.with_verified true d) in
    snd (run (signup_verify_otp env b) world_resent)
      = set_otps (OTP.save d' (otps world_resent)) world_resent /\
    In d' (OTP.docs (otps (snd (run (signup_verify_otp env b) world_resent)))) /\
    OTP.verified d' = true /\
    otps (snd (run (signup_verify_otp env b) world_resent)) <> otps world_resent.
Proof.
  cbv zeta.
  apply (signup_verify_otp_consumes_code
           (example_env 4000 (1 # 2) Accepts) (ann_signup (Some "325000")) world_resent).
  vm_compute. reflexivity.
Defined.

End SignupVerify.

Section SendFailure.

#[local] Arguments sendEmail : simpl never.

Lemma sendEmail_rejects env m err :
  smtp env = Rejects err -> exists msg, sendEmail env m = inr msg.
Proof.
  intros H. unfold sendEmail. rewrite H.
  destruct (String.eqb _ _); [eauto|].
  destruct (String.eqb _ _); [eauto|].
  destruct (_ =? _); eauto.
Qed.

(** [/signup/request-otp] compensates: when the transport throws, the
    record just created is deleted again and the answer is a 500. *)
Lemma signup_request_otp_rolls_back env b w err :
  smtp env = Rejects err ->
  let e := trim (toLowerCase (field (Req.email b))) in
  let created := OTP.createOTP env e OTP.email_verification 1 (otps w) in
  let R := run (signup_request_otp env b) w in
  (otps (snd R) = otps w /\ (Res.status (fst R) = 400 \/ Res.status (fst R) = 429)) \/
  (Res.status (fst R) = 500 /\
   otps (snd R) = OTP.deleteOne (fst created) (snd created) /\
   (forall x, In x (OTP.docs (otps (snd R))) -> OTP._id x <> OTP._id (fst created)) /\
   outbox (snd R) = outbox w).
Proof.
  intros Hsmtp e created R. subst R created. unfold signup_request_otp. run_handler.
  destruct (negb (truthy (Req.name b)) || _ || _); simpl; [left; auto|].
  fold e.
  destruct (negb (isValidEmail e)); simpl; [left; auto|].
  destruct (negb (isGmailAddress e)); simpl; [left; auto|].
  destruct (negb (isStrongPassword _)); simpl; [left; auto|].
  destruct (checkRateLimit _ _ _ _ _) as [rl m1]; simpl.
  destruct (negb (allowed rl)); simpl; [left; auto|].
  destruct (match User.findOne e (users w) with
            | Some u => User.isEmailVerified u | None => false end); simpl;
    [left; auto|].
  right.
  destruct (sendEmail_rejects env (mkMail e verifyEmail (OTP.generateOTP env) 1)
                              err Hsmtp) as [msg Hmsg].
  unfold sendVerificationEmail. simpl. rewrite Hmsg. simpl.
  destruct (includes msg "authentication failed" || _); simpl;
    [|destruct (includes msg "connect to email server"); simpl];
    (repeat split; try done;
     intros x [_ Hx]%List.filter_In; simpl;
     by apply negb_true_iff, Nat.eqb_neq in Hx).
Qed.

(** [/resend-otp] does not: its catch block only logs. *)
Lemma resend_otp_keeps_record env b w err p :
  smtp env = Rejects err ->
  OTP.purpose_of_string (field (Req.purpose b)) = Some p ->
  let e := trim (toLowerCase (field (Req.email b))) in
  let created := OTP.createOTP env e p 1 (otps w) in
  let R := run (resend_otp env b) w in
  (otps (snd R) = otps w /\ (Res.status (fst R) = 400 \/ Res.status (fst R) = 429)) \/
  (fst R = Res.mkRes 200 (Res.mkJson "OTP sent successfully" None (Some 60)
                                     None None None None None) /\
   otps (snd R) = snd created /\
   In (fst created) (OTP.docs (otps (snd R))) /\
   outbox (snd R) = outbox w).
Proof.
  intros Hsmtp Hp e created R. subst R created. unfold resend_otp. run_handler.
  destruct (negb (truthy (Req.email b)) || _); simpl; [left; auto|].
  fold e. rewrite Hp.
  destruct (checkRateLimit _ _ _ _ _) as [rl m1]; simpl.
  destruct (negb (allowed rl)); simpl; [left; auto|].
  right.
  assert (Hsend : exists msg,
             (if String.eqb (field (Req.purpose b)) "email_verification"
              then sendVerificationEmail env e (OTP.generateOTP env) 1
              else sendPasswordResetEmail env e (OTP.generateOTP env) 1)
             = inr msg).
  { destruct (String.eqb _ "email_verification"); by eapply sendEmail_rejects. }
  destruct Hsend as [msg Hmsg].
  simpl. rewrite Hmsg. simpl. repeat split.
  apply List.in_or_app. right. by left.
Qed.

(** Neither does [/forgot-password/request-otp]. *)
Lemma forgot_password_keeps_record env b w err :
  smtp env = Rejects err ->
  let e := trim (toLowerCase (field (Req.email b))) in
  let created := OTP.createOTP env e OTP.password_reset 1 (otps w) in
  let R := run (forgot_password_request_otp env b) w in
  (otps (snd R) = otps w /\ Res.status (fst R) <> 200) \/
  (fst R = Res.mkRes 200 (Res.mkJson "Password reset OTP sent to your email" None (Some 60)
                                     None None None None None) /\
   otps (snd R) = snd created /\
   In (fst created) (OTP.docs (otps (snd R))) /\
   outbox (snd R) = outbox w).
Proof.
  intros Hsmtp e created R. subst R created. unfold forgot_password_request_otp.
  run_handler.
  destruct (negb (truthy (Req.email b))); simpl; [left; split; [done|discriminate]|].
  fold e.
  destruct (checkRateLimit _ _ _ _ _) as [rl m1]; simpl.
  destruct (negb (allowed rl)); simpl; [left; split; [done|discriminate]|].
  destruct (User.findOne e (users w)) as [u|]; simpl;
    [|left; split; [done|discriminate]].
  destruct (User.isDeleted u); simpl; [left; split; [done|discriminate]|].
  right.
  destruct (sendEmail_rejects env (mkMail e resetPassword (OTP.generateOTP env) 1)
                              err Hsmtp) as [msg Hmsg].
  unfold sendPasswordResetEmail. simpl. rewrite Hmsg. simpl. repeat split.
  apply List.in_or_app. right. by left.
Qed.

(** Nor does the automatic resend of [/login]: the answer announces a
    new code that was never sent, and the record stays. *)
Lemma login_keeps_record env b w err :
  smtp env = Rejects err ->
  let e := trim (toLowerCase (field (Req.email b))) in
  let created := OTP.createOTP env e OTP.email_verification 10 (otps w) in
  let R := run (login env b) w in
  Res.requiresVerification (Res.body (fst R)) = Some true ->
  fst R = Res.mkRes 403
            (Res.mkJson
               "Email not verified. A new verification OTP has been sent to your email"
               (Some e) None None None None (Some true) None) /\
  otps (snd R) = snd created /\
  In (fst created) (OTP.docs (otps (snd R))) /\
  outbox (snd R) = outbox w.
Proof.
  intros Hsmtp e created R. subst R created. unfold login. run_handler.
  destruct (negb (truthy (Req.email b)) || _); simpl; [discriminate|].
  fold e.
  destruct (checkRateLimit _ _ _ _ _) as [rl m1]; simpl.
  destruct (negb (allowed rl)); simpl; [discriminate|].
  destruct (User.findOne e (users w)) as [u|]; simpl; [|discriminate].
  destruct (User.isDeleted u); simpl; [discriminate|].
  destruct (User.isEmailVerified u); simpl.
  { destruct (negb (bcrypt_compare env _ _)); simpl; discriminate. }
  destruct (sendEmail_rejects env (mkMail e verifyEmail (OTP.generateOTP env) 10)
                              err Hsmtp) as [msg Hmsg].
  unfold sendVerificationEmail. simpl. rewrite Hmsg. simpl. repeat split.
  apply List.in_or_app. right. by left.
Qed.

(** C1 is not what the code does.  With a mail server that cannot be
    reached, [/signup/request-otp] answers 500 and leaves no record; but
    [/resend-otp] and [/forgot-password/request-otp] answer 200 with a
    success message, and [/login] for an unverified user announces a new
    code, while no mail has left and the record created for the code is
    still stored, unverified. *)
Theorem send_failure_is_compensated_only_on_signup :
  let env := example_env 3000 (1 # 4) unreachable in
  (let R := run (signup_request_otp env (ann_signup None)) initial_world in
   Res.status (fst R) = 500 /\ OTP.docs (otps (snd R)) = [] /\ outbox (snd R) = []) /\
  (let R := run (resend_otp env (ann_resend "email_verification")) initial_world in
   fst R = Res.mkRes 200 (Res.mkJson "OTP sent successfully" None (Some 60)
                                     None None None None None) /\
   OTP.docs (otps (snd R)) =
     [OTP.mkDoc 0 ann "325000" OTP.email_verification 0 63000 false 3000] /\
   outbox (snd R) = []) /\
  (let R := run (forgot_password_request_otp env (ann_resend "")) world_registered in
   fst R = Res.mkRes 200 (Res.mkJson "Password reset OTP sent to your email" None (Some 60)
                                     None None None None None) /\
   In (OTP.mkDoc 1 ann "325000" OTP.password_reset 0 63000 false 3000)
      (OTP.docs (otps (snd R))) /\
   outbox (snd R) = outbox world_registered) /\
  (let R := run (login env (Req.mkBody None (Some "bob@gmail.com") (Some "Passw0rdX")
                                       None None None None)) world_with_bob in
   Res.status (fst R) = 403 /\
   Res.requiresVerification (Res.body (fst R)) = Some true /\
   OTP.docs (otps (snd R)) =
     [OTP.mkDoc 0 "bob@gmail.com" "325000" OTP.email_verification 0 603000 false 3000] /\
   outbox (snd R) = []).
Proof.
  vm_compute. repeat split. right. left. reflexivity.
Qed.

End SendFailure.

(* ===================================================================== *)
(** * More on the OTP store *)
(* ===================================================================== *)

Section OTPStoreMore.

Implicit Types (c : OTP.collection) (d : OTP.doc) (e o : string) (p : OTP.Purpose).

Lemma save_other_ids (l : list OTP.doc) d' :
  (forall y, In y l -> OTP._id y <> OTP._id d') ->
  List.map (fun x => if Nat.eqb (OTP._id x) (OTP._id d') then d' else x) l = l.
Proof.
  induction l as [|x l IH]; simpl; intros H; [done|].
  rewrite IH by (intros y Hy; apply H; by right).
  destruct (Nat.eqb_spec (OTP._id x) (OTP._id d')) as [E|_]; [|done].
  exfalso. by apply (H x (or_introl eq_refl)).
Qed.

(** Saving an update of the only document a filter selects *)
Lemma save_filter_single (f : OTP.doc -> bool) c d d' :
  fresh_ids c -> List.filter f (OTP.docs c) = [d] -> OTP._id d' = OTP._id d ->
  List.filter f (OTP.docs (OTP.save d' c)) = if f d' then [d'] else [].
Proof.
  intros [Hnd _]. unfold OTP.save. simpl. revert Hnd.
  generalize (OTP.docs c) as l.
  induction l as [|x l IH]; simpl; [done|].
  rewrite NoDup_cons. intros [Hx Hl] Hf Hid.
  assert (Hin : forall y, In y l -> OTP._id y <> OTP._id x).
  { intros y Hy E. apply Hx. rewrite <- E. apply list_elem_of_In. by apply List.in_map. }
  destruct (f x) eqn:Efx.
  - injection Hf as -> Hnil.
    destruct (Nat.eqb_spec (OTP._id d) (OTP._id d')) as [_|N]; [|congruence].
    rewrite save_other_ids by (intros y Hy; rewrite Hid; by apply Hin).
    rewrite Hnil. by destruct (f d').
  - assert (Hd : In d l).
    { apply (List.filter_In f). rewrite Hf. by left. }
    destruct (Nat.eqb_spec (OTP._id x) (OTP._id d')) as [E|_].
    { exfalso. apply (Hin d Hd). congruence. }
    simpl. rewrite Efx. by apply IH.
Qed.

Lemma verifyOTP_correct_code env e p c d :
  OTP.findOne e p c = Some d -> now env <= OTP.expiresAt d -> OTP.attempts d < 3 ->
  OTP.verifyOTP env e (OTP.otp d) p c =
    (OTP.mkResult true "OTP verified successfully" None,
     OTP.save (OTP.with_attempts (OTP.attempts d + 1) (OTP.with_verified true d)) c).
Proof.
  intros Hf Hexp Hatt. unfold OTP.verifyOTP. rewrite Hf.
  unfold OTP.isExpired, OTP.hasExceededAttempts.
  destruct (Z.ltb_spec (OTP.expiresAt d) (now env)); [lia|].
  destruct (Z.leb_spec 3 (OTP.attempts d)); [lia|].
  by rewrite String.eqb_refl.
Qed.

(** X1.  The code [createOTP] returns verifies when it is presented for
    the same identity and purpose at any time up to [expiryMinutes]
    after its creation, whatever was in the collection: the answer is a
    success and the record is saved verified with one attempt. *)
Theorem createOTP_then_verifyOTP env env' e p m c :
  now env' <= now env + m * 60 * 1000 ->
  let created := OTP.createOTP env e p m c in
  OTP.verifyOTP env' e (OTP.otp (fst created)) p (snd created) =
    (OTP.mkResult true "OTP verified successfully" None,
     OTP.save (OTP.with_attempts 1 (OTP.with_verified true (fst created))) (snd created)).
Proof.
  intros Hnow created.
  assert (Hf : OTP.findOne e p (snd created) = Some (fst created))
    by apply findOne_single, createOTP_unverified.
  rewrite (verifyOTP_correct_code env' e p _ _ Hf); [done| |].
  - subst created. rewrite createOTP_docs. simpl. lia.
  - subst created. rewrite createOTP_docs. simpl. lia.
Qed.

Lemma createOTP_then_verifyOTP_witness :
  OTP.verifyOTP (example_env 61000 (1 # 2) Accepts) ann "550000" OTP.email_verification
                requested =
    (OTP.mkResult true "OTP verified successfully" None,
     OTP.save (OTP.mkDoc 0 ann "550000" OTP.email_verification 1 61000 true 1000)
              requested).
Proof.
  refine (createOTP_then_verifyOTP (example_env 1000 (1 # 2) Accepts)
            (example_env 61000 (1 # 2) Accepts) ann OTP.email_verification 1 OTP.empty _).
  simpl. lia.
Defined.

(** X2.  A code is good for one verification.  In a reachable state,
    once the pair's record has been verified with its code, every
    further [verifyOTP] for the pair, with any code at any time, fails
    with "not found" and changes nothing. *)
Theorem verifyOTP_single_use env e p c d :
  reachable c ->
  OTP.findOne e p c = Some d -> now env <= OTP.expiresAt d -> OTP.attempts d < 3 ->
  let verified := OTP.verifyOTP env e (OTP.otp d) p c in
  OTP.success (fst verified) = true /\
  forall env' o,
    OTP.verifyOTP env' e o p (snd verified) =
      (OTP.mkResult false msg_not_found None, snd verified).
Proof.
  intros [Hfresh Hone]%reachable_invariant Hf Hexp Hatt verified. subst verified.
  rewrite (verifyOTP_correct_code env e p c d Hf Hexp Hatt). simpl. split; [done|].
  intros env' o. unfold OTP.verifyOTP. rewrite findOne_none; [done|].
  unfold unverified_for.
  rewrite (save_filter_single _ c d); [|done|by apply at_most_one_found|done].
  unfold OTP.matches. simpl. by rewrite andb_false_r.
Qed.

Lemma verifyOTP_single_use_witness :
  let verified :=
    OTP.verifyOTP (example_env 2000 (1 # 2) Accepts) ann "550000"
                  OTP.email_verification requested in
  OTP.success (fst verified) = true /\
  forall env' o,
    OTP.verifyOTP env' ann o OTP.email_verification (snd verified) =
      (OTP.mkResult false msg_not_found None, snd verified).
Proof.
  refine (verifyOTP_single_use (example_env 2000 (1 # 2) Accepts) ann
            OTP.email_verification requested
            (OTP.mkDoc 0 ann "550000" OTP.email_verification 0 61000 false 1000)
            _ _ _ _).
  - apply reachable_step, reachable_empty.
  - vm_compute. reflexivity.
  - simpl. lia.
  - simpl. lia.
Defined.

(** X3.  [createOTP] and [verifyOTP] for one (identity, purpose) pair
    leave every record alone that is not an unverified record of that
    pair: records of other identities, of the other purpose, and
    verified records stay in the collection as they are. *)
Theorem other_records_untouched c e p :
  reachable c ->
  forall x,
    In x (OTP.docs c) -> OTP.matches e p x = false ->
    (forall env m, In x (OTP.docs (snd (OTP.createOTP env e p m c)))) /\
    (forall env o, In x (OTP.docs (snd (OTP.verifyOTP env e o p c)))).
Proof.
  intros [Hfresh _]%reachable_invariant x Hx Hm. split.
  - intros env m. rewrite createOTP_docs. simpl.
    apply List.in_or_app. left. apply List.filter_In. by rewrite Hm.
  - intros env o. unfold OTP.verifyOTP.
    destruct (OTP.findOne e p c) as [d|] eqn:Hf; [|done].
    destruct (findOne_In _ _ _ _ Hf) as [Hd Hmd].
    assert (Hid : OTP._id x <> OTP._id d).
    { intros E. apply (fresh_ids_inj c x d Hfresh Hx Hd) in E. congruence. }
    assert (Hdel : In x (OTP.docs (OTP.deleteOne d c))).
    { unfold OTP.deleteOne. simpl. apply List.filter_In. split; [done|].
      by apply negb_true_iff, Nat.eqb_neq. }
    assert (Hsave : forall d', OTP._id d' = OTP._id d -> In x (OTP.docs (OTP.save d' c))).
    { intros d' E. unfold OTP.save. simpl. apply List.in_map_iff. exists x.
      split; [|done]. destruct (Nat.eqb_spec (OTP._id x) (OTP._id d')); congruence. }
    destruct (OTP.isExpired _ _); [done|].
    destruct (OTP.hasExceededAttempts _); [done|].
    destruct (negb _); cbn [snd]; apply Hsave; reflexivity.
Qed.

Lemma other_records_untouched_witness :
  let x := OTP.mkDoc 0 ann "550000" OTP.email_verification 0 61000 false 1000 in
  (forall env m, In x (OTP.docs (snd (OTP.createOTP env ann OTP.password_reset m requested)))) /\
  (forall env o, In x (OTP.docs (snd (OTP.verifyOTP env ann o OTP.password_reset requested)))).
Proof.
  refine (other_records_untouched requested ann OTP.password_reset _
            (OTP.mkDoc 0 ann "550000" OTP.email_verification 0 61000 false 1000) _ _).
  - apply reachable_step, reachable_empty.
  - left. vm_compute. reflexivity.
  - vm_compute. reflexivity.
Defined.

(** X4.  In every reachable state each record's attempts count lies
    between 0 and 3, and a verified record has at least 1: the schema's
    validator [max: 5] can never reject a [save]. *)
Theorem attempts_within_bounds c :
  reachable c ->
  forall d, In d (OTP.docs c) ->
    0 <= OTP.attempts d <= 3 /\ (OTP.verified d = true -> 1 <= OTP.attempts d).
Proof.
  induction 1 as [|op c _ IH]; [by intros d []|].
  assert (Hfilter : forall f d, In d (List.filter f (OTP.docs c)) ->
            0 <= OTP.attempts d <= 3 /\ (OTP.verified d = true -> 1 <= OTP.attempts d)).
  { intros f d [Hd _]%List.filter_In. by apply IH. }
  assert (Hsave : forall d0 d' d,
            In d0 (OTP.docs c) ->
            (0 <= OTP.attempts d' <= 3 /\ (OTP.verified d' = true -> 1 <= OTP.attempts d')) ->
            In d (OTP.docs (OTP.save d' c)) ->
            0 <= OTP.attempts d <= 3 /\ (OTP.verified d = true -> 1 <= OTP.attempts d)).
  { intros d0 d' d _ Hd' Hd. unfold OTP.save in Hd. simpl in Hd.
    apply List.in_map_iff in Hd as (y & <- & Hy).
    destruct (Nat.eqb (OTP._id y) (OTP._id d')); [done|by apply IH]. }
  destruct op as [env e p m|env e o p|d0|t]; cbn [apply_op]; intros d Hd.
  - rewrite createOTP_docs in Hd. simpl in Hd.
    apply List.in_app_or in Hd as [Hd|[<-|[]]]; [by eapply Hfilter|]. simpl.
    split; [lia|discriminate].
  - unfold OTP.verifyOTP in Hd.
    destruct (OTP.findOne e p c) as [d1|] eqn:Hf; [|by apply IH].
    destruct (findOne_In _ _ _ _ Hf) as [Hd1 _]. specialize (IH d1 Hd1).
    unfold OTP.hasExceededAttempts in Hd.
    destruct (OTP.isExpired _ _); [simpl in Hd; by eapply Hfilter|].
    destruct (Z.leb_spec 3 (OTP.attempts d1)); [simpl in Hd; by eapply Hfilter|].
    destruct (negb _); cbn [snd] in Hd; (eapply Hsave; [exact Hd1| |exact Hd]); simpl.
    + split; [lia|]. intros Hv. apply IH in Hv. lia.
    + split; [lia|]. intros _. lia.
  - simpl in Hd. by eapply Hfilter.
  - simpl in Hd. by eapply Hfilter.
Qed.

Lemma attempts_within_bounds_witness :
  let d := OTP.mkDoc 0 ann "550000" OTP.email_verification 3 61000 false 1000 in
  0 <= OTP.attempts d <= 3 /\ (OTP.verified d = true -> 1 <= OTP.attempts d).
Proof.
  cbv zeta.
  apply (attempts_within_bounds guessed_thrice).
  - do 4 apply reachable_step. apply reachable_empty.
  - vm_compute. left. reflexivity.
Defined.

Lemma verifyOTP_each_absent calls e p c :
  unverified_for e p c = [] ->
  Forall (fun r => OTP.success r = false) (fst (verifyOTP_each calls e p c)).
Proof.
  intros Hnil. induction calls as [|[env o] calls IH]; simpl; [constructor|].
  unfold OTP.verifyOTP. rewrite (findOne_none _ _ _ Hnil).
  destruct (verifyOTP_each calls e p c) as [rs c2]. simpl in *. by constructor.
Qed.

Lemma verifyOTP_each_guesses calls e p c d :
  fresh_ids c -> unverified_for e p c = [d] ->
  Forall (fun call => snd call <> OTP.otp d)
         (firstn (Z.to_nat (3 - OTP.attempts d)) calls) ->
  Forall (fun r => OTP.success r = false) (fst (verifyOTP_each calls e p c)).
Proof.
  revert c d. induction calls as [|[env o] calls IH]; intros c d Hfresh Hd Hwrong;
    simpl; [constructor|].
  assert (Hgone : Forall (fun r => OTP.success r = false)
                         (fst (verifyOTP_each calls e p (OTP.deleteOne d c))))
    by (by apply verifyOTP_each_absent, deleteOne_unverified).
  unfold OTP.verifyOTP. rewrite (findOne_single _ _ _ _ Hd).
  unfold OTP.hasExceededAttempts.
  destruct (OTP.isExpired _ _).
  { destruct (verifyOTP_each calls e p _) as [rs c2]. by constructor. }
  destruct (Z.leb_spec 3 (OTP.attempts d)) as [|Hlt].
  { destruct (verifyOTP_each calls e p _) as [rs c2]. by constructor. }
  replace (Z.to_nat (3 - OTP.attempts d))
    with (S (Z.to_nat (3 - (OTP.attempts d + 1)))) in Hwrong by lia.
  simpl in Hwrong. apply Forall_cons in Hwrong as [Ho Hwrong]. simpl in Ho.
  destruct (String.eqb_spec (OTP.otp d) o) as [E|_]; [congruence|]. simpl.
  set (d' := OTP.with_attempts (OTP.attempts d + 1) d).
  specialize (IH (OTP.save d' c) d' (fresh_ids_save d' c Hfresh)).
  destruct (verifyOTP_each calls e p (OTP.save d' c)) as [rs c2]. simpl in *.
  constructor; [done|]. apply IH; [|done].
  unfold unverified_for. rewrite (save_filter_single _ c d d' Hfresh Hd eq_refl).
  assert (Hm : OTP.matches e p d = true).
  { apply (List.filter_In (OTP.matches e p) d (OTP.docs c)).
    unfold unverified_for in Hd. rewrite Hd. by left. }
  unfold OTP.matches in *. simpl. by rewrite Hm.
Qed.

(** X5.  Three guesses per code.  In a reachable state where the pair's
    record has no attempts yet, if the first three calls of a run of
    [verifyOTP] calls carry a wrong code, then no call of the run
    succeeds, not even a later one with the right code. *)
Theorem three_guesses_per_code calls e p c d :
  reachable c ->
  OTP.findOne e p c = Some d -> OTP.attempts d = 0 ->
  Forall (fun call => snd call <> OTP.otp d) (firstn 3 calls) ->
  Forall (fun r => OTP.success r = false) (fst (verifyOTP_each calls e p c)).
Proof.
  intros [Hfresh Hone]%reachable_invariant Hf Ha Hwrong.
  apply (verifyOTP_each_guesses calls e p c d Hfresh).
  - by apply at_most_one_found.
  - by rewrite Ha.
Qed.

Lemma three_guesses_per_code_witness :
  Forall (fun r => OTP.success r = false)
         (fst (verifyOTP_each
                 [(example_env 2000 0 Accepts, "111111");
                  (example_env 3000 0 Accepts, "222222");
                  (example_env 4000 0 Accepts, "333333");
                  (example_env 5000 0 Accepts, "550000")]
                 ann OTP.email_verification requested)).
Proof.
  refine (three_guesses_per_code _ ann OTP.email_verification requested
            (OTP.mkDoc 0 ann "550000" OTP.email_verification 0 61000 false 1000)
            _ _ _ _).
  - apply reachable_step, reachable_empty.
  - vm_compute. reflexivity.
  - reflexivity.
  - simpl. repeat constructor; simpl; discriminate.
Defined.

End OTPStoreMore.

(* ===================================================================== *)
(** * More on the rate limiter *)
(* ===================================================================== *)

Section RateLimiterMore.

Implicit Types (m : gmap string RateRecord) (t : Z).

(** X6.  A call of [checkRateLimit] for one key leaves the records of
    all other keys as they are; a rejected call changes nothing at all
    (retrying while locked out does not prolong the lock-out); and an
    allowed call reports as [remaining] the maximum minus the count it
    has just stored. *)
Theorem checkRateLimit_isolation t key M W m :
  (forall k, k <> key -> snd (checkRateLimit t key M W m) !! k = m !! k) /\
  (allowed (fst (checkRateLimit t key M W m)) = false ->
   snd (checkRateLimit t key M W m) = m) /\
  (allowed (fst (checkRateLimit t key M W m)) = true ->
   exists r, snd (checkRateLimit t key M W m) !! key = Some r /\
             remaining (fst (checkRateLimit t key M W m)) = M - count r).
Proof.
  unfold checkRateLimit.
  destruct (m !! key) as [r|] eqn:E; [destruct (resetTime r <? t); [|destruct (M <=? count r)]|];
    simpl; (split; [intros k Hk; by rewrite ?lookup_insert_ne|split; [done|]]);
    try done; intros _; eexists; (split; [apply lookup_insert_eq|done]).
Qed.

Lemma checkRateLimit_isolation_witness :
  snd (checkRateLimit 5000 "login:ann@gmail.com" 5 FIFTEEN_MINUTES
                      (rateLimitMap world_locked_out))
  = rateLimitMap world_locked_out.
Proof.
  apply (proj1 (proj2 (checkRateLimit_isolation 5000 "login:ann@gmail.com" 5
                         FIFTEEN_MINUTES (rateLimitMap world_locked_out)))).
  vm_compute. reflexivity.
Defined.

Lemma checkRateLimit_at_within_fresh key M W t1 rest m :
  1 <= M ->
  m !! key = None \/ (exists r, m !! key = Some r /\ resetTime r < t1) ->
  Z.of_nat (length rest) = M - 1 ->
  (forall t, In t rest -> t <= t1 + W) ->
  Forall (fun x => allowed x = true) (fst (checkRateLimit_at (t1 :: rest) key M W m)) /\
  snd (checkRateLimit_at (t1 :: rest) key M W m) !! key = Some (mkRateRecord M (t1 + W)).
Proof.
  intros HM Hfresh Hlen Hin. simpl.
  rewrite (checkRateLimit_fresh key M W t1 m Hfresh).
  destruct (checkRateLimit_at_within key M W rest
              (<[key := mkRateRecord 1 (t1 + W)]> m) (mkRateRecord 1 (t1 + W)))
    as (Hall & _ & Hlook).
  { apply lookup_insert_eq. }
  { exact Hin. }
  { simpl. lia. }
  destruct (checkRateLimit_at rest key M W _) as [rs m2]. simpl in *.
  split; [by constructor|]. rewrite Hlook. do 2 f_equal. lia.
Qed.

(** X7.  The window is fixed, not sliding: [M] calls that fill one
    window and [M] calls that start right after its [resetTime] are all
    allowed, however close together the two groups are. *)
Theorem checkRateLimit_burst key M W t1 rest1 t2 rest2 m :
  1 <= M ->
  m !! key = None \/ (exists r, m !! key = Some r /\ resetTime r < t1) ->
  Z.of_nat (length rest1) = M - 1 -> (forall t, In t rest1 -> t <= t1 + W) ->
  t1 + W < t2 ->
  Z.of_nat (length rest2) = M - 1 -> (forall t, In t rest2 -> t <= t2 + W) ->
  Forall (fun x => allowed x = true)
         (fst (checkRateLimit_at ((t1 :: rest1) ++ t2 :: rest2)%list key M W m)) /\
  Z.of_nat (length ((t1 :: rest1) ++ t2 :: rest2)%list) = 2 * M.
Proof.
  intros HM Hfresh Hl1 Hin1 Ht2 Hl2 Hin2. split.
  - rewrite checkRateLimit_at_app. cbn [fst].
    destruct (checkRateLimit_at_within_fresh key M W t1 rest1 m HM Hfresh Hl1 Hin1)
      as [Hall1 Hlook1].
    apply Forall_app. split; [done|].
    apply checkRateLimit_at_within_fresh; [done| |done|done].
    right. eexists. split; [exact Hlook1|]. simpl. lia.
  - rewrite length_app. simpl. lia.
Qed.

Lemma checkRateLimit_burst_witness :
  Forall (fun x => allowed x = true)
         (fst (checkRateLimit_at ((0 :: [899999; 900000]) ++ 900001 :: [900001; 900002])%list
                                 "login:ann@gmail.com" 3 900000 ∅)) /\
  Z.of_nat (length ((0 :: [899999; 900000]) ++ 900001 :: [900001; 900002])%list) = 2 * 3.
Proof.
  apply (checkRateLimit_burst "login:ann@gmail.com" 3 900000 0 [899999; 900000]
           900001 [900001; 900002] ∅).
  - lia.
  - left. reflexivity.
  - reflexivity.
  - simpl. intros t [<-|[<-|[]]]; lia.
  - lia.
  - reflexivity.
  - simpl. intros t [<-|[<-|[]]]; lia.
Defined.

End RateLimiterMore.

(* ===================================================================== *)
(** * Strings and validation *)
(* ===================================================================== *)

Section Strings.

Implicit Types (s t : string) (c : ascii).

#[local] Arguments String.append !_ _ / : simpl nomatch.

Lemma append_nil_r s : s +:+ "" = s.
Proof. induction s as [|c s IH]; simpl; congruence. Qed.

Lemma append_assoc s t u : (s +:+ t) +:+ u = s +:+ (t +:+ u).
Proof. induction s as [|c s IH]; simpl; congruence. Qed.

Lemma append_empty s t : s +:+ t = "" -> s = "" /\ t = "".
Proof. destruct s; simpl; [done|discriminate]. Qed.

Lemma existsb_string_app f s t :
  existsb_string f (s +:+ t) = existsb_string f s || existsb_string f t.
Proof.
  induction s as [|c s IH]; simpl; [done|].
  destruct (f c); simpl; [done|apply IH].
Qed.

Lemma eqb_empty s : String.eqb s "" = true <-> s = "".
Proof. apply String.eqb_eq. Qed.

Lemma split_at_spec s acc x y :
  split_at s acc = Some (x, y) <->
  exists pre, s = pre +:+ String "@" y /\ x = acc +:+ pre /\
              existsb_string is_at pre = false.
Proof.
  revert acc. induction s as [|c s IH]; intros acc; simpl.
  - split; [discriminate|]. intros (pre & H & _). by destruct pre.
  - destruct (is_at c) eqn:Ec.
    + apply Ascii.eqb_eq in Ec as ->. split.
      * intros [= <- <-]. exists "". by rewrite append_nil_r.
      * intros (pre & H & -> & Hpre). destruct pre as [|c' pre]; simpl in *.
        -- injection H as <-. by rewrite append_nil_r.
        -- injection H as <- _. cbv in Hpre. discriminate.
    + rewrite IH. split.
      * intros (pre & -> & -> & Hpre). exists (String c pre). simpl.
        rewrite Ec, append_assoc. done.
      * intros (pre & H & -> & Hpre). destruct pre as [|c' pre]; simpl in *.
        -- injection H as -> _. cbv in Ec. discriminate.
        -- injection H as <- ->. apply orb_false_iff in Hpre as [_ Hpre].
           exists pre. by rewrite append_assoc.
Qed.

Lemma inner_dot_spec s :
  inner_dot s = true <->
  exists a b, s = a +:+ String "." b /\ a <> "" /\ b <> "".
Proof.
  induction s as [|c0 s IH]; simpl.
  - split; [discriminate|]. intros (a & b & H & _). by destruct a.
  - destruct s as [|c rest].
    + split; [discriminate|]. intros (a & b & H & Ha & Hb).
      destruct a as [|c1 [|c2 a]]; simpl in H; congruence.
    + rewrite orb_true_iff, andb_true_iff, negb_true_iff, IH. split.
      * intros [[Hc Hrest]|(a & b & H & Ha & Hb)].
        -- apply Ascii.eqb_eq in Hc as ->. exists (String c0 ""), rest. simpl.
           split; [done|]. split; [done|]. intros ->. by rewrite String.eqb_refl in Hrest.
        -- exists (String c0 a), b. simpl. by rewrite H.
      * intros (a & b & H & Ha & Hb). destruct a as [|c1 a]; [done|].
        injection H as <- H. destruct a as [|c2 a]; simpl in H.
        -- injection H as Hc Hr. subst c b. left. split; [reflexivity|].
           by apply String.eqb_neq.
        -- right. exists (String c2 a), b. done.
Qed.

Lemma existsb_string_or f g s :
  existsb_string (fun c => f c || g c) s = existsb_string f s || existsb_string g s.
Proof.
  induction s as [|c s IH]; simpl; [done|]. rewrite IH.
  destruct (f c), (g c), (existsb_string f s); done.
Qed.

Lemma plain_spec s :
  plain s = true <->
  existsb_string is_whitespace s = false /\ existsb_string is_at s = false.
Proof.
  unfold plain. by rewrite negb_true_iff, existsb_string_or, orb_false_iff.
Qed.

(** X8.  [isValidEmail] accepts exactly the strings the pattern
    [/^[^\s@]+@[^\s@]+\.[^\s@]+$/] describes: a non-empty local part, an
    [@], and a domain with a dot that has something on both sides, none
    of the three pieces containing whitespace or an [@]. *)
Theorem isValidEmail_pattern e :
  isValidEmail e = true <->
  exists l a b,
    e = l +:+ "@" +:+ a +:+ "." +:+ b /\
    l <> "" /\ a <> "" /\ b <> "" /\
    plain l = true /\ plain a = true /\ plain b = true.
Proof.
  unfold isValidEmail. split.
  - rewrite andb_true_iff, negb_true_iff. intros [Hws H].
    destruct (split_at e "") as [[x y]|] eqn:Hs; [|discriminate].
    apply split_at_spec in Hs as (pre & -> & -> & Hpre). simpl in H.
    rewrite !andb_true_iff, !negb_true_iff in H. destruct H as [[Hx Hy] Hdot].
    apply inner_dot_spec in Hdot as (a & b & -> & Ha & Hb).
    apply String.eqb_neq in Hx.
    rewrite existsb_string_app in Hws, Hy. simpl in Hws, Hy.
    rewrite existsb_string_app in Hws. simpl in Hws.
    apply orb_false_iff in Hws as [Hw1 [Hw2 Hw3]%orb_false_iff].
    apply orb_false_iff in Hy as [Hy1 Hy2].
    exists pre, a, b. rewrite !plain_spec. done.
  - intros (l & a & b & -> & Hl & Ha & Hb & [Hl1 Hl2]%plain_spec &
            [Ha1 Ha2]%plain_spec & [Hb1 Hb2]%plain_spec).
    assert (Hs : split_at (l +:+ "@" +:+ a +:+ "." +:+ b) "" =
                 Some (l, a +:+ "." +:+ b)).
    { apply split_at_spec. exists l. done. }
    rewrite Hs. rewrite !existsb_string_app. simpl.
    rewrite Hl1, Ha1, Hb1, Ha2, Hb2. simpl.
    apply andb_true_iff. split.
    + rewrite andb_true_r. apply negb_true_iff. by apply String.eqb_neq.
    + apply inner_dot_spec. exists a, b. done.
Qed.

Lemma isValidEmail_pattern_witness : isValidEmail "ann@mail.gmail.com" = true.
Proof.
  apply (proj2 (isValidEmail_pattern "ann@mail.gmail.com")).
  exists "ann", "mail.gmail", "com". vm_compute. repeat split; discriminate.
Defined.

(** X9.  The reset-password screens and the server apply the same
    password rule: [validatePassword] reports no error exactly when the
    server's [isStrongPassword] holds, and the other screen's
    [isStrongPassword] is the server's. *)
Theorem validatePassword_agrees pw :
  (ResetPasswordScreen.validatePassword pw = None <-> isStrongPassword pw = true) /\
  ResetPasswordNewScreen.isStrongPassword pw = isStrongPassword pw.
Proof.
  split; [|done].
  unfold ResetPasswordScreen.validatePassword, isStrongPassword.
  rewrite Nat.ltb_antisym.
  destruct (8 <=? String.length pw)%nat; simpl; [|done].
  destruct (existsb_string is_lower pw), (existsb_string is_upper pw),
    (existsb_string is_digit pw); simpl; done.
Qed.

Lemma validatePassword_strong pw :
  ResetPasswordScreen.validatePassword pw = None -> isStrongPassword pw = true.
Proof.
  unfold ResetPasswordScreen.validatePassword, isStrongPassword.
  rewrite Nat.ltb_antisym.
  destruct (8 <=? String.length pw)%nat; simpl; [|done].
  destruct (existsb_string is_lower pw), (existsb_string is_upper pw),
    (existsb_string is_digit pw); simpl; done.
Qed.

Lemma validatePassword_agrees_witness : isStrongPassword "Passw0rdX" = true.
Proof.
  apply (proj1 (proj1 (validatePassword_agrees "Passw0rdX"))).
  vm_compute. reflexivity.
Defined.

(** X10.  The strength meter and the rule: a password the meter calls
    "Strong" is accepted by [isStrongPassword], one it calls "Too short"
    or "Weak" is not, and every accepted password is called "Medium" or
    "Strong"; "Medium" alone does not tell. *)
Theorem getPasswordStrength_and_rule pw :
  let s := ResetPasswordNewScreen.getPasswordStrength pw in
  (ResetPasswordNewScreen.text s = "Strong" -> isStrongPassword pw = true) /\
  (ResetPasswordNewScreen.strength s <= 1 -> isStrongPassword pw = false) /\
  (isStrongPassword pw = true -> 2 <= ResetPasswordNewScreen.strength s) /\
  (ResetPasswordNewScreen.text s = "Strong" <-> ResetPasswordNewScreen.strength s = 3).
Proof.
  unfold ResetPasswordNewScreen.getPasswordStrength, isStrongPassword.
  rewrite Nat.ltb_antisym.
  destruct (8 <=? String.length pw)%nat; simpl; [|by repeat split].
  destruct (existsb_string is_lower pw), (existsb_string is_upper pw),
    (existsb_string is_digit pw),
    (existsb_string ResetPasswordNewScreen.is_symbol pw); simpl;
    repeat split; done || lia.
Qed.

Lemma getPasswordStrength_and_rule_witness : isStrongPassword "Passw0rd!" = true.
Proof.
  apply (proj1 (getPasswordStrength_and_rule "Passw0rd!")).
  vm_compute. reflexivity.
Defined.

(** "Medium" does not decide the rule: eight letters and a sign, no
    digit, and eight letters and a digit are both "Medium". *)
Lemma medium_does_not_tell :
  ResetPasswordNewScreen.text (ResetPasswordNewScreen.getPasswordStrength "Password!") = "Medium" /\
  isStrongPassword "Password!" = false /\
  ResetPasswordNewScreen.text (ResetPasswordNewScreen.getPasswordStrength "Passw0rdX") = "Medium" /\
  isStrongPassword "Passw0rdX" = true.
Proof. vm_compute. done. Qed.



Lemma is_whitespace_lower c : is_whitespace (lower_char c) = is_whitespace c.
Proof. destruct c as [[] [] [] [] [] [] [] []]; reflexivity. Qed.

Lemma lower_char_idem c : lower_char (lower_char c) = lower_char c.
Proof. destruct c as [[] [] [] [] [] [] [] []]; reflexivity. Qed.

Lemma toLowerCase_idem s : toLowerCase (toLowerCase s) = toLowerCase s.
Proof.
  induction s as [|c s IH]; simpl; [done|]. by rewrite lower_char_idem, IH.
Qed.

Lemma toLowerCase_empty s : toLowerCase s = "" <-> s = "".
Proof. by destruct s. Qed.

Lemma toLowerCase_trimStart s : toLowerCase (trimStart s) = trimStart (toLowerCase s).
Proof.
  induction s as [|c s IH]; simpl; [done|]. rewrite is_whitespace_lower.
  by destruct (is_whitespace c).
Qed.

Lemma toLowerCase_trimEnd s : toLowerCase (trimEnd s) = trimEnd (toLowerCase s).
Proof.
  induction s as [|c s IH]; simpl; [done|]. rewrite <- IH, is_whitespace_lower.
  destruct (trimEnd s); simpl; [|done]. by destruct (is_whitespace c).
Qed.

Lemma toLowerCase_trim s : toLowerCase (trim s) = trim (toLowerCase s).
Proof. unfold trim. by rewrite toLowerCase_trimEnd, toLowerCase_trimStart. Qed.

Lemma trimEnd_idem s : trimEnd (trimEnd s) = trimEnd s.
Proof.
  induction s as [|c s IH]; simpl; [done|].
  destruct (trimEnd s) as [|c' t] eqn:E.
  - destruct (is_whitespace c) eqn:Ec; simpl; [done|]. by rewrite Ec.
  - change (trimEnd (String c (String c' t))) with
      (match trimEnd (String c' t) with
       | "" => if is_whitespace c then "" else String c ""
       | t0 => String c t0
       end).
    by rewrite IH.
Qed.

Lemma trimStart_starts_clean s : starts_clean (trimStart s).
Proof.
  induction s as [|c s IH]; simpl; [done|].
  by destruct (is_whitespace c) eqn:E.
Qed.

Lemma trimStart_clean s : starts_clean s -> trimStart s = s.
Proof. destruct s as [|c s]; simpl; [done|]. by intros ->. Qed.

Lemma trimEnd_starts_clean s : starts_clean s -> starts_clean (trimEnd s).
Proof.
  destruct s as [|c s]; simpl; [done|]. intros Hc.
  destruct (trimEnd s); simpl; [|done]. by rewrite Hc.
Qed.

Lemma trim_idem s : trim (trim s) = trim s.
Proof.
  unfold trim.
  rewrite (trimStart_clean (trimEnd (trimStart s)))
    by apply trimEnd_starts_clean, trimStart_starts_clean.
  apply trimEnd_idem.
Qed.

Lemma normalized_fixed s :
  trim (toLowerCase (trim (toLowerCase s))) = trim (toLowerCase s).
Proof. by rewrite (toLowerCase_trim (toLowerCase s)), toLowerCase_idem, trim_idem. Qed.

(** X12.  Normalising an address is idempotent and does not depend on
    the order of its two steps: the screen's [email.trim().toLowerCase()]
    and the server's [email.toLowerCase().trim()] give the same string,
    and the [lowercase]/[trim] setters of the OTP schema leave it as it
    is.  So [createOTP] and [verifyOTP] treat an address and its
    normalised form alike. *)
Theorem normalisation_is_stable (env : Env) (e o : string) (p : OTP.Purpose) (m : Z)
        (c : OTP.collection) :
  toLowerCase (trim e) = trim (toLowerCase e) /\
  OTP.email_setters (trim (toLowerCase e)) = trim (toLowerCase e) /\
  OTP.createOTP env (trim (toLowerCase e)) p m c = OTP.createOTP env e p m c /\
  OTP.verifyOTP env (trim (toLowerCase e)) o p c = OTP.verifyOTP env e o p c.
Proof.
  split; [apply toLowerCase_trim|]. split; [apply normalized_fixed|].
  assert (Hm : forall d, OTP.matches (trim (toLowerCase e)) p d = OTP.matches e p d).
  { intros d. unfold OTP.matches, OTP.email_setters. by rewrite normalized_fixed. }
  split.
  - unfold OTP.createOTP, OTP.deleteMany, OTP.create, OTP.email_setters.
    rewrite normalized_fixed.
    by rewrite (List.filter_ext _ _ (fun d => f_equal negb (Hm d))).
  - unfold OTP.verifyOTP, OTP.findOne.
    by rewrite (List.filter_ext _ _ Hm).
Qed.

Lemma existsb_trimStart f s :
  existsb_string f s = false -> existsb_string f (trimStart s) = false.
Proof.
  induction s as [|c s IH]; simpl; [done|]. intros [Hc Hs]%orb_false_iff.
  destruct (is_whitespace c); simpl; [auto|]. by rewrite Hc, Hs.
Qed.

Lemma existsb_trimEnd f s :
  existsb_string f s = false -> existsb_string f (trimEnd s) = false.
Proof.
  induction s as [|c s IH]; simpl; [done|]. intros [Hc Hs]%orb_false_iff.
  specialize (IH Hs). destruct (trimEnd s); simpl in *.
  - destruct (is_whitespace c); simpl; [done|]. by rewrite Hc.
  - by rewrite Hc, IH.
Qed.

Lemma existsb_trim f s :
  existsb_string f s = false -> existsb_string f (trim s) = false.
Proof. intros H. by apply existsb_trimEnd, existsb_trimStart. Qed.

Lemma split_comma_pieces s cur :
  existsb_string is_comma cur = false ->
  Forall (fun x => existsb_string is_comma x = false) (split_comma s cur).
Proof.
  revert cur. induction s as [|c s IH]; intros cur Hcur; simpl.
  - by constructor.
  - destruct (is_comma c) eqn:Ec.
    + constructor; [done|]. by apply IH.
    + apply IH. rewrite existsb_string_app. simpl. by rewrite Hcur, Ec.
Qed.

Lemma split_comma_app a s cur :
  existsb_string is_comma a = false ->
  split_comma (a +:+ s) cur = split_comma s (cur +:+ a).
Proof.
  revert cur. induction a as [|c a IH]; intros cur; simpl.
  - by rewrite append_nil_r.
  - intros [Hc Ha]%orb_false_iff. rewrite Hc, IH by done.
    by rewrite append_assoc.
Qed.

Lemma split_comma_concat ids :
  ids <> [] ->
  Forall (fun x => existsb_string is_comma x = false) ids ->
  split_comma (String.concat "," ids) "" = ids.
Proof.
  induction ids as [|x ids IH]; [done|]. intros _ Hall.
  apply Forall_cons in Hall as [Hx Hall].
  destruct ids as [|y ids].
  - simpl. rewrite <- (append_nil_r x) at 1. by rewrite split_comma_app.
  - change (String.concat "," (x :: y :: ids))
      with (x +:+ String "," (String.concat "," (y :: ids))).
    rewrite split_comma_app by done.
    change (split_comma (String "," (String.concat "," (y :: ids))) ("" +:+ x))
      with (x :: split_comma (String.concat "," (y :: ids)) "").
    by rewrite IH.
Qed.

(** X13.  Whatever [GOOGLE_CLIENT_ID] holds, no configured audience is
    empty, has leading or trailing whitespace, or contains a comma; with
    the variable unset or empty there is no audience at all. *)
Theorem googleAudiences_clean v :
  Forall (fun a => a <> "" /\ trim a = a /\ existsb_string is_comma a = false)
         (googleAudiences v) /\
  googleAudiences None = [] /\ googleAudiences (Some "") = [].
Proof.
  split; [|done]. unfold googleAudiences.
  pose proof (split_comma_pieces (field v) "" eq_refl) as H.
  induction H as [|x l Hx Hl IH]; simpl; [constructor|].
  destruct (String.eqb_spec (trim x) "") as [E|E]; simpl; [done|].
  constructor; [|done]. repeat split; [done|apply trim_idem|by apply existsb_trim].
Qed.

(** X14.  A comma-separated list of client ids is read back as written:
    for ids that are non-empty, free of commas and of surrounding
    whitespace, [googleAudiences] of their join is the list itself. *)
Theorem googleAudiences_join ids :
  Forall (fun a => a <> "" /\ trim a = a /\ existsb_string is_comma a = false) ids ->
  googleAudiences (Some (String.concat "," ids)) = ids.
Proof.
  intros Hall. destruct ids as [|x ids]; [done|].
  unfold googleAudiences.
  change (field (Some (String.concat "," (x :: ids))))
    with (String.concat "," (x :: ids)).
  rewrite split_comma_concat; [|done|].
  - induction Hall as [|a l (Ha & Htrim & _) _ IH]; simpl; [done|].
    rewrite Htrim. destruct (String.eqb_spec a "") as [E|E]; [done|]. simpl.
    by rewrite IH.
  - eapply Forall_impl; [exact Hall|]. by intros a (_ & _ & H).
Qed.

Lemma googleAudiences_join_witness :
  googleAudiences (Some "web-id.apps.googleusercontent.com,android-id.apps.googleusercontent.com")
  = ["web-id.apps.googleusercontent.com"; "android-id.apps.googleusercontent.com"].
Proof.
  apply (googleAudiences_join
           ["web-id.apps.googleusercontent.com"; "android-id.apps.googleusercontent.com"]).
  repeat constructor; (discriminate || vm_compute; reflexivity).
Defined.

Lemma is_at_lower c : is_at (lower_char c) = is_at c.
Proof. destruct c as [[] [] [] [] [] [] [] []]; reflexivity. Qed.

Lemma is_dot_lower c : is_dot (lower_char c) = is_dot c.
Proof. destruct c as [[] [] [] [] [] [] [] []]; reflexivity. Qed.

Lemma existsb_toLowerCase f s :
  (forall c, f (lower_char c) = f c) ->
  existsb_string f (toLowerCase s) = existsb_string f s.
Proof. intros Hf. induction s as [|c s IH]; simpl; [done|]. by rewrite Hf, IH. Qed.

Lemma toLowerCase_app s t : toLowerCase (s +:+ t) = toLowerCase s +:+ toLowerCase t.
Proof. induction s as [|c s IH]; simpl; [done|]. by rewrite IH. Qed.

Lemma eqb_empty_lower s : String.eqb (toLowerCase s) "" = String.eqb s "".
Proof. by destruct s. Qed.

Lemma split_at_lower s acc :
  split_at (toLowerCase s) (toLowerCase acc) =
  match split_at s acc with
  | Some (x, y) => Some (toLowerCase x, toLowerCase y)
  | None => None
  end.
Proof.
  revert acc. induction s as [|c s IH]; intros acc; simpl; [done|].
  rewrite is_at_lower. destruct (is_at c); [done|].
  rewrite <- IH. by rewrite toLowerCase_app.
Qed.

Lemma inner_dot_lower s : inner_dot (toLowerCase s) = inner_dot s.
Proof.
  induction s as [|c0 s IH]; [done|].
  destruct s as [|c rest]; [done|].
  change (inner_dot (toLowerCase (String c0 (String c rest))))
    with ((is_dot (lower_char c) && negb (String.eqb (toLowerCase rest) ""))
          || inner_dot (toLowerCase (String c rest))).
  rewrite IH, is_dot_lower, eqb_empty_lower. done.
Qed.

Lemma isValidEmail_lower s : isValidEmail (toLowerCase s) = isValidEmail s.
Proof.
  unfold isValidEmail.
  rewrite (existsb_toLowerCase _ _ is_whitespace_lower).
  change "" with (toLowerCase "") at 1. rewrite split_at_lower.
  destruct (split_at s "") as [[x y]|]; [|done].
  by rewrite eqb_empty_lower, (existsb_toLowerCase _ _ is_at_lower), inner_dot_lower.
Qed.

End Strings.

(* ===================================================================== *)
(** * What every route maintains *)
(* ===================================================================== *)

Section Preservation.

Variable R : World -> World -> Prop.
Hypothesis R_refl : forall w, R w w.
Hypothesis R_trans : forall w1 w2 w3, R w1 w2 -> R w2 w3 -> R w1 w3.
Hypothesis R_rateLimitMap : forall m w, R w (set_rateLimitMap m w).
Hypothesis R_otps : forall op w, R w (set_otps (apply_op op (otps w)) w).
Hypothesis R_save : forall u w, R w (set_users (User.save u (users w)) w).
Hypothesis R_create : forall n e pw v a w,
  R w (set_users (snd (User.create n e pw v a (users w))) w).
Hypothesis R_outbox : forall mails w, R w (set_outbox (outbox w ++ mails) w).

Lemma preserves_ret {A} (a : A) : preserves R (mret a).
Proof. intros w. apply R_refl. Qed.

Lemma preserves_bind {A B} (m : Handler A) (k : A -> Handler B) :
  preserves R m -> (forall a, preserves R (k a)) -> preserves R (m ≫= k).
Proof.
  intros Hm Hk w. unfold mbind, Handler_bind. specialize (Hm w).
  destruct (m w) as [[a|r] w1]; simpl in *; [|done].
  eapply R_trans; [exact Hm|apply Hk].
Qed.

Lemma preserves_respond {A} st b : preserves R (@respond A st b).
Proof. intros w. apply R_refl. Qed.

Lemma preserves_reject_if c st b : preserves R (reject_if c st b).
Proof. destruct c; [apply preserves_respond|apply preserves_ret]. Qed.

Lemma preserves_rate_limit env key M W : preserves R (rate_limit env key M W).
Proof.
  intros w. unfold rate_limit. destruct (checkRateLimit _ _ _ _ _) as [r m].
  apply R_rateLimitMap.
Qed.

Lemma preserves_createOTP env e p m : preserves R (OTP_createOTP env e p m).
Proof.
  intros w. unfold OTP_createOTP.
  pose proof (R_otps (op_createOTP env e p m) w) as H. cbn [apply_op] in H.
  by destruct (OTP.createOTP env e p m (otps w)).
Qed.

Lemma preserves_verifyOTP env e o p : preserves R (OTP_verifyOTP env e o p).
Proof.
  intros w. unfold OTP_verifyOTP.
  pose proof (R_otps (op_verifyOTP env e o p) w) as H. cbn [apply_op] in H.
  by destruct (OTP.verifyOTP env e o p (otps w)).
Qed.

Lemma preserves_deleteOne d : preserves R (OTP_deleteOne d).
Proof. intros w. apply (R_otps (op_deleteOne d) w). Qed.

Lemma preserves_findOne e : preserves R (User_findOne e).
Proof. intros w. apply R_refl. Qed.

Lemma preserves_save u : preserves R (User_save u).
Proof. intros w. apply R_save. Qed.

Lemma preserves_create n e pw v a : preserves R (User_create n e pw v a).
Proof. intros w. apply (R_create n e pw v a w). Qed.

Lemma preserves_try_send r : preserves R (try_send r).
Proof. intros w. destruct r; simpl; [apply R_outbox|apply R_refl]. Qed.

Ltac preserve :=
  repeat first
    [ apply preserves_ret | apply preserves_respond | apply preserves_reject_if
    | apply preserves_rate_limit | apply preserves_createOTP
    | apply preserves_verifyOTP | apply preserves_deleteOne
    | apply preserves_findOne | apply preserves_save | apply preserves_create
    | apply preserves_try_send
    | apply preserves_bind; [|intros ?]
    | match goal with
      | |- preserves _ (match ?x with _ => _ end) => destruct x
      end ].

Lemma preserves_handle r env b : preserves R (handle r env b).
Proof.
  destruct r; simpl;
    unfold signup_request_otp, signup_verify_otp, resend_otp, login,
           forgot_password_request_otp, forgot_password_verify_otp,
           reset_password; cbv zeta; preserve.
Qed.

Lemma preserves_run r env b w : R w (snd (run (handle r env b) w)).
Proof.
  pose proof (preserves_handle r env b w) as H. unfold run.
  by destruct (handle r env b w) as [[?|?] ?].
Qed.

End Preservation.

(* ===================================================================== *)
(** * The routes, one request at a time *)
(* ===================================================================== *)

(** Case analysis on the innermost test the goal still branches on *)
Ltac step_through :=
  repeat (match goal with
          | |- context [match ?x with _ => _ end] =>
              lazymatch x with
              | context [match _ with _ => _ end] => fail
              | _ => destruct x eqn:?
              end
          end; simpl; try discriminate).

Section Routes.

Lemma set_rateLimitMap_same w : set_rateLimitMap (rateLimitMap w) w = w.
Proof. by destruct w. Qed.

Lemma checkRateLimit_rejected t key M W m :
  allowed (fst (checkRateLimit t key M W m)) = false ->
  snd (checkRateLimit t key M W m) = m.
Proof.
  unfold checkRateLimit.
  destruct (m !! key) as [r|]; [destruct (resetTime r <? t); [|destruct (M <=? count r)]|];
    simpl; done.
Qed.

(** X15.  A request that is answered 429 has changed nothing: not the
    collections, not the outbox, and not the rate-limit record that
    rejected it.  Only the four routes that send a code or check a
    password are rate limited; the two routes that verify a code and the
    reset route never answer 429. *)
Theorem rate_limited_changes_nothing r env b w :
  Res.status (fst (run (handle r env b) w)) = 429 ->
  snd (run (handle r env b) w) = w /\
  r <> signup_verify_otp_route /\ r <> forgot_password_verify_otp_route /\
  r <> reset_password_route.
Proof.
  destruct r; simpl handle.
  - unfold signup_request_otp. run_handler.
    destruct (negb (truthy (Req.name b)) || _ || _); simpl; [discriminate|].
    destruct (negb (isValidEmail _)); simpl; [discriminate|].
    destruct (negb (isGmailAddress _)); simpl; [discriminate|].
    destruct (negb (isStrongPassword _)); simpl; [discriminate|].
    pose proof (checkRateLimit_rejected (now env)
                  ("signup:" +:+ trim (toLowerCase (field (Req.email b))))
                  3 FIFTEEN_MINUTES (rateLimitMap w)) as Hrej.
    destruct (checkRateLimit _ _ _ _ _) as [rl m1]; simpl in *.
    destruct (allowed rl); simpl.
    + step_through.
    + intros _. rewrite Hrej by done. by rewrite set_rateLimitMap_same.
  - unfold signup_verify_otp. run_handler. step_through.
  - unfold resend_otp. run_handler.
    destruct (negb (truthy (Req.email b)) || _); simpl; [discriminate|].
    destruct (OTP.purpose_of_string _); simpl; [|discriminate].
    pose proof (checkRateLimit_rejected (now env)
                  ("resend:" +:+ trim (toLowerCase (field (Req.email b))) +:+ ":"
                   +:+ field (Req.purpose b))
                  3 FIFTEEN_MINUTES (rateLimitMap w)) as Hrej.
    destruct (checkRateLimit _ _ _ _ _) as [rl m1]; simpl in *.
    destruct (allowed rl); simpl.
    + step_through.
    + intros _. rewrite Hrej by done. by rewrite set_rateLimitMap_same.
  - unfold login. run_handler.
    destruct (negb (truthy (Req.email b)) || _); simpl; [discriminate|].
    pose proof (checkRateLimit_rejected (now env)
                  ("login:" +:+ trim (toLowerCase (field (Req.email b))))
                  5 FIFTEEN_MINUTES (rateLimitMap w)) as Hrej.
    destruct (checkRateLimit _ _ _ _ _) as [rl m1]; simpl in *.
    destruct (allowed rl); simpl.
    + step_through.
    + intros _. rewrite Hrej by done. by rewrite set_rateLimitMap_same.
  - unfold forgot_password_request_otp. run_handler.
    destruct (negb (truthy (Req.email b))); simpl; [discriminate|].
    pose proof (checkRateLimit_rejected (now env)
                  ("forgot:" +:+ trim (toLowerCase (field (Req.email b))))
                  3 FIFTEEN_MINUTES (rateLimitMap w)) as Hrej.
    destruct (checkRateLimit _ _ _ _ _) as [rl m1]; simpl in *.
    destruct (allowed rl); simpl.
    + step_through.
    + intros _. rewrite Hrej by done. by rewrite set_rateLimitMap_same.
  - unfold forgot_password_verify_otp. run_handler. step_through.
  - unfold reset_password. run_handler. step_through.
Qed.

Lemma rate_limited_changes_nothing_witness :
  let env := example_env 5000 (1 # 2) Accepts in
  let b := Req.mkBody None (Some ann) (Some "Passw0rdX") None None None None in
  snd (run (handle login_route env b) world_locked_out) = world_locked_out.
Proof.
  cbv zeta.
  apply (rate_limited_changes_nothing login_route (example_env 5000 (1 # 2) Accepts)
           (Req.mkBody None (Some ann) (Some "Passw0rdX") None None None None)
           world_locked_out).
  vm_compute. reflexivity.
Defined.

(** X16.  Whatever a route of [otp-auth.js] answers, the OTP collection
    it leaves is again one that [createOTP], [verifyOTP], [deleteOne]
    and the TTL monitor can produce; so after any request each identity
    still has at most one unverified record per purpose, under an id no
    other record has. *)
Theorem routes_keep_one_code_per_pair r env b w :
  reachable (otps w) ->
  let w' := snd (run (handle r env b) w) in
  reachable (otps w') /\ at_most_one_unverified (otps w') /\ fresh_ids (otps w').
Proof.
  intros Hw w'.
  assert (H : reachable (otps w')).
  { refine (preserves_run otps_stay_reachable _ _ _ _ _ _ _ r env b w Hw);
      unfold otps_stay_reachable; simpl; auto.
    intros op w0 Hr. by apply reachable_step. }
  split; [done|]. by apply and_comm, reachable_invariant.
Qed.

Lemma routes_keep_one_code_per_pair_witness :
  let w' := snd (run (handle resend_otp_route (example_env 1000 (1 # 2) Accepts)
                             (ann_resend "email_verification"))
                     initial_world) in
  reachable (otps w') /\ at_most_one_unverified (otps w') /\ fresh_ids (otps w').
Proof.
  apply (routes_keep_one_code_per_pair resend_otp_route
           (example_env 1000 (1 # 2) Accepts) (ann_resend "email_verification")
           initial_world).
  apply reachable_empty.
Defined.

(** X17.  No route of [otp-auth.js] removes a user or changes a user's
    id: the ids of the users present before a request are, in the same
    order, the first ids present after it. *)
Theorem routes_never_remove_users r env b w :
  exists new,
    List.map User._id (User.docs (users (snd (run (handle r env b) w))))
    = (List.map User._id (User.docs (users w)) ++ new)%list.
Proof.
  refine (preserves_run users_stay _ _ _ _ _ _ _ r env b w); unfold users_stay; simpl.
  - intros w0. exists []. by rewrite app_nil_r.
  - intros w1 w2 w3 [n1 H1] [n2 H2]. exists (n1 ++ n2)%list.
    by rewrite H2, H1, app_assoc.
  - intros _ w0. exists []. by rewrite app_nil_r.
  - intros _ w0. exists []. by rewrite app_nil_r.
  - intros u w0. exists []. rewrite app_nil_r, List.map_map.
    apply List.map_ext. intros x.
    by destruct (Nat.eqb_spec (User._id x) (User._id u)).
  - intros n e pw v a w0. eexists. by rewrite List.map_app.
  - intros _ w0. exists []. by rewrite app_nil_r.
Qed.


(** X19.  [/login] does not tell an unknown address from a wrong
    password.  A request with both fields that the limiter lets through
    is answered 401 "Invalid email or password", with the collections
    and the outbox left as they were, when no account has the address,
    and likewise when the account is verified and not deleted and the
    password does not match; and these two are the only ways to a
    401. *)
Theorem login_unauthorized env b w :
  let R := run (login env b) w in
  let e := trim (toLowerCase (field (Req.email b))) in
  let cause :=
    User.findOne e (users w) = None \/
    exists u, User.findOne e (users w) = Some u /\
              User.isDeleted u = false /\ User.isEmailVerified u = true /\
              bcrypt_compare env (field (Req.password b)) (User.password u) = false in
  (truthy (Req.email b) = true -> truthy (Req.password b) = true ->
   allowed (fst (checkRateLimit (now env) ("login:" +:+ e) 5 FIFTEEN_MINUTES
                                (rateLimitMap w))) = true ->
   cause ->
   fst R = Res.mkRes 401 (Res.msg "Invalid email or password") /\
   otps (snd R) = otps w /\ users (snd R) = users w /\ outbox (snd R) = outbox w) /\
  (Res.status (fst R) = 401 ->
   Res.body (fst R) = Res.msg "Invalid email or password" /\
   otps (snd R) = otps w /\ users (snd R) = users w /\ outbox (snd R) = outbox w /\
   cause).
Proof.
  cbv zeta. split.
  - intros He Hp Hrl Hcause. unfold login. run_handler.
    rewrite He, Hp. simpl.
    destruct (checkRateLimit _ _ _ _ _) as [rl m1]; simpl in *.
    rewrite Hrl. simpl.
    destruct Hcause as [Hu|(u & Hu & Hdel & Hver & Hpw)]; rewrite Hu; simpl; [done|].
    rewrite Hdel, Hver. simpl. rewrite Hpw. simpl. done.
  - unfold login. run_handler.
    destruct (negb (truthy (Req.email b)) || _); simpl; [discriminate|].
    destruct (checkRateLimit _ _ _ _ _) as [rl m1]; simpl.
    destruct (allowed rl); simpl; [|discriminate].
    destruct (User.findOne _ _) as [u|] eqn:Hu; simpl; [|by auto 10].
    destruct (User.isDeleted u) eqn:Hdel; simpl; [discriminate|].
    destruct (User.isEmailVerified u) eqn:Hver; simpl.
    + destruct (bcrypt_compare env _ _) eqn:Hpw; simpl; [discriminate|].
      intros _. repeat split; try done. right. by exists u.
    + destruct (sendVerificationEmail _ _ _ _); simpl; discriminate.
Qed.

Lemma login_unauthorized_witness :
  let env := example_env 5000 (1 # 2) Accepts in
  let unknown := Req.mkBody None (Some "zed@gmail.com") (Some "Passw0rdX")
                            None None None None in
  let wrong := Req.mkBody None (Some ann) (Some "Wr0ngPassword") None None None None in
  fst (run (login env unknown) world_registered)
  = Res.mkRes 401 (Res.msg "Invalid email or password") /\
  fst (run (login env wrong) world_registered)
  = Res.mkRes 401 (Res.msg "Invalid email or password").
Proof.
  cbv zeta. split.
  - refine (proj1 (proj1 (login_unauthorized
                            (example_env 5000 (1 # 2) Accepts)
                            (Req.mkBody None (Some "zed@gmail.com") (Some "Passw0rdX")
                                        None None None None)
                            world_registered) _ _ _ _)).
    + reflexivity.
    + reflexivity.
    + vm_compute. reflexivity.
    + left. vm_compute. reflexivity.
  - refine (proj1 (proj1 (login_unauthorized
                            (example_env 5000 (1 # 2) Accepts)
                            (Req.mkBody None (Some ann) (Some "Wr0ngPassword")
                                        None None None None)
                            world_registered) _ _ _ _)).
    + reflexivity.
    + reflexivity.
    + vm_compute. reflexivity.
    + right. exists ann_user. vm_compute. repeat split.
Defined.

Lemma issued_token_has_no_purpose r env b w t :
  Res.token (Res.body (fst (run (handle r env b) w))) = Some t ->
  purpose_tag t = None.
Proof.
  destruct r; simpl handle;
    unfold signup_request_otp, signup_verify_otp, resend_otp, login,
           forgot_password_request_otp, forgot_password_verify_otp,
           reset_password; run_handler;
    repeat (match goal with
            | |- context [match ?x with _ => _ end] =>
                lazymatch x with
                | context [match _ with _ => _ end] => fail
                | _ => destruct x eqn:?
                end
            end; simpl; try discriminate);
    by intros [= <-].
Qed.

(** X20.  A session token is not a reset credential: the token that
    [/login] or [/signup/verify-otp] hands out, presented to
    [/reset-password] by anyone at any time, never resets a password;
    the request is answered 400 or 401 and changes nothing. *)
Theorem session_token_cannot_reset r env b w t env' b' w' :
  Res.token (Res.body (fst (run (handle r env b) w))) = Some t ->
  Req.resetToken b' = Some t ->
  let R := run (reset_password env' b') w' in
  (Res.status (fst R) = 400 \/ Res.status (fst R) = 401) /\ snd R = w'.
Proof.
  intros Ht%issued_token_has_no_purpose Hb'. cbv zeta.
  unfold reset_password. rewrite Hb'. run_handler. simpl.
  destruct (truthy (Req.newPassword b')); simpl; [|by auto].
  destruct (isStrongPassword _); simpl; [|by auto].
  destruct t as [|key exp payload]; simpl; [by auto|].
  destruct (_ && _); simpl; [|by auto].
  simpl in Ht. rewrite Ht. simpl. by auto.
Qed.

Lemma session_token_cannot_reset_witness :
  let env := example_env 2000 (1 # 2) Accepts in
  let t := Signed "secret" (2 + SEVEN_DAYS) (mkPayload (Some 0%nat) None None) in
  let b' := Req.mkBody None None None None None (Some "N3wPassword") (Some t) in
  let R := run (reset_password (example_env 5000 (1 # 2) Accepts) b') world_registered in
  (Res.status (fst R) = 400 \/ Res.status (fst R) = 401) /\ snd R = world_registered.
Proof.
  cbv zeta.
  apply (session_token_cannot_reset signup_verify_otp_route
           (example_env 2000 (1 # 2) Accepts) (ann_signup (Some "550000")) world_requested
           (Signed "secret" (2 + SEVEN_DAYS) (mkPayload (Some 0%nat) None None))).
  - vm_compute. reflexivity.
  - reflexivity.
Defined.

Lemma strong_password_nonempty pw : isStrongPassword pw = true -> String.eqb pw "" = false.
Proof. by destruct pw. Qed.

(** X21.  The credential [/forgot-password/verify-otp] hands out opens
    [/reset-password] for the account of the address the code was
    verified for, and for fifteen minutes: presented with a strong new
    password to a server holding the same secret, it resets that
    account's password while the clock, in seconds, is below the issue
    time plus 900, and is answered 401 without any change from then
    on. *)
Theorem reset_token_round_trip env b w t env' pw w' u :
  Res.resetToken (Res.body (fst (run (forgot_password_verify_otp env b) w))) = Some t ->
  JWT_SECRET env' = JWT_SECRET env ->
  isStrongPassword pw = true ->
  User.findOne (trim (toLowerCase (field (Req.email b)))) (users w') = Some u ->
  User.isDeleted u = false ->
  let R := run (reset_password env' (Req.mkBody None None None None None (Some pw) (Some t)))
               w' in
  (now env' / 1000 < now env / 1000 + 15 * 60 ->
   Res.status (fst R) = 200 /\
   snd R = set_users
             (User.save
                (User.mkDoc (User._id u) (User.name u) (User.email u)
                            (bcrypt_hash env' pw) (User.isEmailVerified u)
                            (User.emailVerifiedAt u) (User.isDeleted u)
                            (User.lastLoginAt u) (User.role u) (User.isAdmin u)
                            (Some (now env')) 0 None)
                (users w')) w') /\
  (now env / 1000 + 15 * 60 <= now env' / 1000 ->
   Res.status (fst R) = 401 /\ snd R = w').
Proof.
  intros Ht Hkey Hpw Hu Hdel.
  assert (Htok : t = Signed (JWT_SECRET env) (now env / 1000 + 15 * 60)
                   (mkPayload None (Some (trim (toLowerCase (field (Req.email b)))))
                              (Some "password_reset"))).
  { revert Ht. unfold forgot_password_verify_otp. run_handler.
    destruct (negb (truthy (Req.email b)) || _); simpl; [discriminate|].
    destruct (OTP.verifyOTP _ _ _ _ _) as [res c]; simpl.
    destruct (OTP.success res); simpl; [|discriminate].
    by intros [= <-]. }
  subst t. cbv zeta. unfold reset_password. run_handler. simpl.
  rewrite (strong_password_nonempty pw Hpw). simpl. rewrite Hpw. simpl.
  rewrite Hkey, String.eqb_refl. simpl.
  split.
  - intros Hnow. destruct (Z.ltb_spec (now env' / 1000) (now env / 1000 + 15 * 60));
      [|lia]. simpl. rewrite Hu. simpl. rewrite Hdel. simpl. done.
  - intros Hnow. destruct (Z.ltb_spec (now env' / 1000) (now env / 1000 + 15 * 60));
      [lia|]. simpl. done.
Qed.

Lemma reset_token_round_trip_witness :
  let t := Signed "secret" 904 (mkPayload None (Some ann) (Some "password_reset")) in
  let b' := Req.mkBody None None None None None (Some "N3wPassword") (Some t) in
  Res.status (fst (run (reset_password (example_env 5000 (1 # 2) Accepts) b') world_forgot))
  = 200 /\
  Res.status (fst (run (reset_password (example_env 904000 (1 # 2) Accepts) b') world_forgot))
  = 401.
Proof.
  cbv zeta. split.
  - refine (proj1 (proj1 (reset_token_round_trip
                            (example_env 4000 (1 # 2) Accepts) (ann_forgot (Some "325000"))
                            world_forgot
                            (Signed "secret" 904
                               (mkPayload None (Some ann) (Some "password_reset")))
                            (example_env 5000 (1 # 2) Accepts) "N3wPassword"
                            world_forgot ann_user _ _ _ _ _) _));
      vm_compute; reflexivity.
  - refine (proj1 (proj2 (reset_token_round_trip
                            (example_env 4000 (1 # 2) Accepts) (ann_forgot (Some "325000"))
                            world_forgot
                            (Signed "secret" 904
                               (mkPayload None (Some ann) (Some "password_reset")))
                            (example_env 904000 (1 # 2) Accepts) "N3wPassword"
                            world_forgot ann_user _ _ _ _ _) _));
      vm_compute; (reflexivity || discriminate).
Defined.

Lemma to_digits_nonempty fuel n acc : acc <> "" -> to_digits fuel n acc <> "".
Proof.
  revert n acc. induction fuel as [|fuel IH]; intros n acc Hacc; simpl; [done|].
  destruct (n / 10 =? 0); [done|]. by apply IH.
Qed.

Lemma toString_nonempty n : toString n <> "".
Proof.
  unfold toString. destruct (n <? 0); [done|].
  simpl. destruct (n / 10 =? 0); [done|]. by apply to_digits_nonempty.
Qed.

Lemma generateOTP_nonempty env : String.eqb (OTP.generateOTP env) "" = false.
Proof. apply String.eqb_neq, toString_nonempty. Qed.

Lemma User_findOne_save e u u' c :
  User.findOne e c = Some u -> User.email u' = e -> User._id u' = User._id u ->
  User.findOne e (User.save u' c) = Some u'.
Proof.
  unfold User.findOne, User.save. simpl. intros Hf He Hid.
  induction (User.docs c) as [|x l IH]; simpl in *; [done|].
  destruct (String.eqb_spec (User.email x) e) as [Ex|Ex].
  - injection Hf as ->. by rewrite Hid, Nat.eqb_refl, He, String.eqb_refl.
  - destruct (Nat.eqb (User._id x) (User._id u')).
    + by rewrite He, String.eqb_refl.
    + destruct (String.eqb_spec (User.email x) e); [done|]. by apply IH.
Qed.

Lemma User_findOne_create n e pw v a c :
  User.findOne e c = None ->
  User.findOne e (snd (User.create n e pw v a c)) = Some (fst (User.create n e pw v a c)).
Proof.
  unfold User.findOne, User.create. simpl. intros Hf.
  induction (User.docs c) as [|x l IH]; simpl in *.
  - by rewrite String.eqb_refl.
  - destruct (String.eqb (User.email x) e); [done|]. by apply IH.
Qed.

Lemma User_findOne_email e c u : User.findOne e c = Some u -> User.email u = e.
Proof.
  unfold User.findOne. intros [_ H]%List.find_some. by apply String.eqb_eq.
Qed.

(** What a 200 of [/signup/request-otp] with a working transport means *)
Lemma signup_request_otp_sent env b w :
  smtp env = Accepts ->
  Res.status (fst (run (signup_request_otp env b) w)) = 200 ->
  let e := trim (toLowerCase (field (Req.email b))) in
  let created := OTP.createOTP env e OTP.email_verification 1 (otps w) in
  truthy (Req.name b) = true /\ truthy (Req.email b) = true /\
  truthy (Req.password b) = true /\
  isValidEmail e = true /\ isGmailAddress e = true /\
  isStrongPassword (field (Req.password b)) = true /\
  match User.findOne e (users w) with
  | Some u => User.isEmailVerified u = false
  | None => True
  end /\
  otps (snd (run (signup_request_otp env b) w)) = snd created /\
  users (snd (run (signup_request_otp env b) w)) = users w /\
  outbox (snd (run (signup_request_otp env b) w))
  = (outbox w ++ [mkMail e verifyEmail (OTP.otp (fst created)) 1])%list.
Proof.
  intros Hsmtp. cbv zeta. unfold signup_request_otp. run_handler.
  destruct (truthy (Req.name b)); simpl; [|discriminate].
  destruct (truthy (Req.email b)); simpl; [|discriminate].
  destruct (truthy (Req.password b)); simpl; [|discriminate].
  destruct (isValidEmail _); simpl; [|discriminate].
  destruct (isGmailAddress _); simpl; [|discriminate].
  destruct (isStrongPassword _); simpl; [|discriminate].
  destruct (checkRateLimit _ _ _ _ _) as [rl m1]; simpl.
  destruct (allowed rl); simpl; [|discriminate].
  unfold sendVerificationEmail, sendEmail. rewrite Hsmtp.
  destruct (User.findOne _ _) as [u|]; simpl.
  - destruct (User.isEmailVerified u); simpl; [discriminate|].
    intros _. repeat split; reflexivity.
  - intros _. repeat split; reflexivity.
Qed.

(** X22.  The sign-up round trip: when [/signup/request-otp] has
    answered 200 with a transport that accepts the mail, exactly one
    mail has gone out, to the normalised address; and
    [/signup/verify-otp] called with the same fields and the mailed
    code, up to one minute later, answers 201 and leaves under that
    address a verified account whose password is the hash of the
    submitted one. *)
Theorem signup_round_trip env env' b w :
  smtp env = Accepts ->
  Res.status (fst (run (signup_request_otp env b) w)) = 200 ->
  now env' <= now env + 60000 ->
  let e := trim (toLowerCase (field (Req.email b))) in
  let w1 := snd (run (signup_request_otp env b) w) in
  exists m,
    outbox w1 = (outbox w ++ [m])%list /\ mail_to m = e /\
    let b' := Req.mkBody (Req.name b) (Req.email b) (Req.password b)
                         (Some (mail_otp m)) None None None in
    let R := run (signup_verify_otp env' b') w1 in
    Res.status (fst R) = 201 /\
    exists u, User.findOne e (users (snd R)) = Some u /\
              User.isEmailVerified u = true /\
              User.password u = bcrypt_hash env' (field (Req.password b)) /\
              Res.user (Res.body (fst R)) = Some (view u).
Proof.
  intros Hsmtp H200 Hnow e w1.
  destruct (signup_request_otp_sent env b w Hsmtp H200)
    as (Hn & He & Hp & _ & _ & _ & Hu & Hotps & Husers & Hout).
  fold e in Hu, Hotps, Husers, Hout. fold w1 in Hotps, Husers, Hout.
  set (created := OTP.createOTP env e OTP.email_verification 1 (otps w)) in *.
  exists (mkMail e verifyEmail (OTP.otp (fst created)) 1).
  split; [done|]. split; [done|]. cbv zeta.
  assert (Hf : OTP.findOne e OTP.email_verification (snd created) = Some (fst created))
    by apply findOne_single, createOTP_unverified.
  assert (Hv : OTP.verifyOTP env' e (OTP.otp (fst created)) OTP.email_verification
                             (otps w1)
               = (OTP.mkResult true "OTP verified successfully" None,
                  OTP.save (OTP.with_attempts (OTP.attempts (fst created) + 1)
                              (OTP.with_verified true (fst created))) (snd created))).
  { rewrite Hotps. apply verifyOTP_correct_code; [done| |].
    - subst created. rewrite createOTP_docs. simpl. lia.
    - subst created. rewrite createOTP_docs. simpl. lia. }
  unfold signup_verify_otp. run_handler.
  cbn [Req.name Req.email Req.password Req.otp mail_otp].
  rewrite Hn, He, Hp. fold e.
  assert (Ht : truthy (Some (OTP.otp (fst created))) = true).
  { subst created. rewrite createOTP_docs. simpl. by rewrite generateOTP_nonempty. }
  rewrite Ht. cbn [negb orb].
  change (field (Some (OTP.otp (fst created)))) with (OTP.otp (fst created)).
  rewrite Hv. cbn [OTP.success negb users set_otps]. rewrite Husers.
  destruct (User.findOne e (users w)) as [u|] eqn:Hfound.
  - rewrite Hu. cbn -[User.findOne]. split; [done|].
    exists (User.mkDoc (User._id u) (field (Req.name b)) (User.email u)
                       (bcrypt_hash env' (field (Req.password b))) true
                       (Some (now env')) (User.isDeleted u) (User.lastLoginAt u)
                       (User.role u) (User.isAdmin u) (User.passwordResetAt u)
                       (User.failedLoginAttempts u) (User.accountLockedUntil u)).
    split; [|done]. rewrite Husers.
    apply (User_findOne_save e u); [done| |done].
    simpl. by apply (User_findOne_email e (users w)).
  - cbn -[User.findOne User.create].
    pose proof (User_findOne_create (field (Req.name b)) e
                  (bcrypt_hash env' (field (Req.password b))) true (Some (now env'))
                  (users w) Hfound) as Hc.
    rewrite Husers.
    destruct (User.create _ _ _ _ _ _) as [u c] eqn:Ecreate.
    cbn -[User.findOne]. split; [done|]. exists u. split; [exact Hc|].
    unfold User.create in Ecreate. injection Ecreate as <- _. done.
Qed.

Lemma signup_round_trip_witness :
  let env := example_env 1000 (1 # 2) Accepts in
  let env' := example_env 61000 (1 # 2) Accepts in
  let b := ann_signup None in
  let e := trim (toLowerCase (field (Req.email b))) in
  let w1 := snd (run (signup_request_otp env b) initial_world) in
  exists m,
    outbox w1 = (outbox initial_world ++ [m])%list /\ mail_to m = e /\
    let b' := Req.mkBody (Req.name b) (Req.email b) (Req.password b)
                         (Some (mail_otp m)) None None None in
    let R := run (signup_verify_otp env' b') w1 in
    Res.status (fst R) = 201 /\
    exists u, User.findOne e (users (snd R)) = Some u /\
              User.isEmailVerified u = true /\
              User.password u = bcrypt_hash env' (field (Req.password b)) /\
              Res.user (Res.body (fst R)) = Some (view u).
Proof.
  cbv zeta.
  refine (signup_round_trip (example_env 1000 (1 # 2) Accepts)
            (example_env 61000 (1 # 2) Accepts) (ann_signup None) initial_world _ _ _).
  - reflexivity.
  - vm_compute. reflexivity.
  - simpl. lia.
Defined.

(** X23.  A soft-deleted account is locked: for an address whose
    account is marked deleted, [/login] and
    [/forgot-password/request-otp] answer 403 (or 400 or 429 before they
    look the account up) and touch neither the collections nor the
    outbox; and [/reset-password], given a credential for that address,
    answers 403 (or 400 or 401 before it looks the account up) and
    changes nothing. *)
Theorem deleted_account_is_locked env b w u :
  User.isDeleted u = true ->
  (User.findOne (trim (toLowerCase (field (Req.email b)))) (users w) = Some u ->
   forall r, r = login_route \/ r = forgot_password_request_otp_route ->
     let R := run (handle r env b) w in
     In (Res.status (fst R)) [400; 429; 403] /\
     otps (snd R) = otps w /\ users (snd R) = users w /\ outbox (snd R) = outbox w) /\
  (forall key exp payload,
     Req.resetToken b = Some (Signed key exp payload) ->
     User.findOne (field (claim_email payload)) (users w) = Some u ->
     let R := run (reset_password env b) w in
     In (Res.status (fst R)) [400; 401; 403] /\ snd R = w).
Proof.
  intros Hdel. split.
  - intros Hu r [->| ->]; cbv zeta; simpl handle.
    + unfold login. run_handler.
      destruct (negb (truthy (Req.email b)) || _); simpl; [by auto|].
      destruct (checkRateLimit _ _ _ _ _) as [rl m1]; simpl.
      destruct (allowed rl); simpl; [|by auto].
      rewrite Hu. simpl. rewrite Hdel. simpl. by auto.
    + unfold forgot_password_request_otp. run_handler.
      destruct (negb (truthy (Req.email b))); simpl; [by auto|].
      destruct (checkRateLimit _ _ _ _ _) as [rl m1]; simpl.
      destruct (allowed rl); simpl; [|by auto].
      rewrite Hu. simpl. rewrite Hdel. simpl. by auto.
  - intros key exp payload Htok Hu. cbv zeta. unfold reset_password. run_handler.
    rewrite Htok. simpl.
    destruct (truthy (Req.newPassword b)); simpl; [|by auto].
    destruct (isStrongPassword _); simpl; [|by auto].
    destruct (_ && _); simpl; [|by auto].
    destruct (bool_decide _); simpl; [|by auto].
    rewrite Hu. simpl. rewrite Hdel. simpl. by auto.
Qed.

Lemma stored_as_sent e : OTP.email_setters (trim (toLowerCase e)) = trim (toLowerCase e).
Proof. apply normalized_fixed. Qed.

Lemma deleted_account_is_locked_witness :
  let env := example_env 5000 (1 # 2) Accepts in
  let b := Req.mkBody None (Some "carol@gmail.com") (Some "Passw0rdX") None None None None in
  let R := run (handle login_route env b) world_with_carol in
  In (Res.status (fst R)) [400; 429; 403] /\
  otps (snd R) = otps world_with_carol /\ users (snd R) = users world_with_carol /\
  outbox (snd R) = outbox world_with_carol.
Proof.
  cbv zeta.
  refine (proj1 (deleted_account_is_locked
                   (example_env 5000 (1 # 2) Accepts)
                   (Req.mkBody None (Some "carol@gmail.com") (Some "Passw0rdX")
                               None None None None)
                   world_with_carol carol _) _ login_route _).
  - reflexivity.
  - vm_compute. reflexivity.
  - by left.
Defined.

(** X24.  A request hands at most one mail to the transport, and only
    to a transport that accepts it; and the mail tells the truth: when
    the request is answered, the collection holds an unverified record,
    not yet tried, for the mail's recipient, with the mailed code, the
    purpose the template speaks of, and an expiry that is the request's
    time plus the minutes the mail announces. *)
Theorem delivered_mail_matches_record r env b w :
  let w' := snd (run (handle r env b) w) in
  exists mails,
    outbox w' = (outbox w ++ mails)%list /\ (length mails <= 1)%nat /\
    forall m, In m mails ->
      smtp env = Accepts /\
      exists d, In d (OTP.docs (otps w')) /\
                OTP.verified d = false /\ OTP.attempts d = 0 /\
                OTP.email d = mail_to m /\ OTP.otp d = mail_otp m /\
                OTP.expiresAt d = now env + mail_expiryMinutes m * 60 * 1000 /\
                OTP.purpose d = match mail_template m with
                                | verifyEmail => OTP.email_verification
                                | resetPassword => OTP.password_reset
                                end.
Proof.
  cbv zeta.
  destruct r; simpl handle;
    unfold signup_request_otp, signup_verify_otp, resend_otp, login,
           forgot_password_request_otp, forgot_password_verify_otp,
           reset_password, OTP.purpose_of_string; run_handler;
    unfold sendVerificationEmail, sendPasswordResetEmail, sendEmail;
    repeat (match goal with
            | |- context [match ?x with _ => _ end] =>
                lazymatch x with
                | context [match _ with _ => _ end] => fail
                | _ => destruct x eqn:?
                end
            end; simpl);
    first
      [ by (exists []; split; [by rewrite ?app_nil_r|]; split; [simpl; lia|];
            intros ? [])
      | eexists [_]; split; [reflexivity|]; split; [simpl; lia|];
        intros m [<-|[]]; split; [done|];
        eexists; split; [apply in_app_iff; right; left; reflexivity|];
        simpl; rewrite ?stored_as_sent; repeat split; done ].
Qed.

Lemma delivered_mail_matches_record_witness :
  exists mails,
    outbox world_requested = (outbox initial_world ++ mails)%list /\
    (length mails <= 1)%nat /\
    forall m, In m mails ->
      smtp (example_env 1000 (1 # 2) Accepts) = Accepts /\
      exists d, In d (OTP.docs (otps world_requested)) /\
                OTP.verified d = false /\ OTP.attempts d = 0 /\
                OTP.email d = mail_to m /\ OTP.otp d = mail_otp m /\
                OTP.expiresAt d
                = now (example_env 1000 (1 # 2) Accepts) + mail_expiryMinutes m * 60 * 1000 /\
                OTP.purpose d = match mail_template m with
                                | verifyEmail => OTP.email_verification
                                | resetPassword => OTP.password_reset
                                end.
Proof.
  exact (delivered_mail_matches_record signup_request_otp_route
           (example_env 1000 (1 # 2) Accepts) (ann_signup None) initial_world).
Defined.



(** X26.  [/signup/verify-otp] asks only for the code: a code obtained
    through [/resend-otp], which checks neither the form of the address
    nor a password, opens an account for any address that has no
    verified account yet, with any non-empty name and password.  The
    Gmail-only rule and the password rule of [/signup/request-otp] are
    not applied again. *)
Theorem resend_then_signup_verify env env' b n pw w :
  smtp env = Accepts ->
  Req.purpose b = Some "email_verification" ->
  Res.status (fst (run (resend_otp env b) w)) = 200 ->
  now env' <= now env + 60000 ->
  n <> "" -> pw <> "" ->
  let e := trim (toLowerCase (field (Req.email b))) in
  (forall u, User.findOne e (users w) = Some u -> User.isEmailVerified u = false) ->
  let w1 := snd (run (resend_otp env b) w) in
  exists m,
    outbox w1 = (outbox w ++ [m])%list /\ mail_to m = e /\
    let b' := Req.mkBody (Some n) (Req.email b) (Some pw) (Some (mail_otp m))
                         None None None in
    let R := run (signup_verify_otp env' b') w1 in
    Res.status (fst R) = 201 /\
    exists u, User.findOne e (users (snd R)) = Some u /\
              User.isEmailVerified u = true /\
              User.password u = bcrypt_hash env' pw.
Proof.
  intros Hsmtp Hpurpose H200 Hnow Hn Hpw e Hu w1.
  set (created := OTP.createOTP env e OTP.email_verification 1 (otps w)).
  assert (Hw1 : truthy (Req.email b) = true /\
                otps w1 = snd created /\ users w1 = users w /\
                outbox w1 = (outbox w ++ [mkMail e verifyEmail (OTP.otp (fst created)) 1])%list).
  { revert H200. subst w1 created e. unfold resend_otp. run_handler.
    rewrite Hpurpose. simpl.
    destruct (truthy (Req.email b)); simpl; [|discriminate].
    destruct (checkRateLimit _ _ _ _ _) as [rl m1]; simpl.
    destruct (allowed rl); simpl; [|discriminate].
    unfold sendVerificationEmail, sendEmail. rewrite Hsmtp. simpl. done. }
  destruct Hw1 as (He & Hotps & Husers & Hout).
  exists (mkMail e verifyEmail (OTP.otp (fst created)) 1).
  split; [done|]. split; [done|]. cbv zeta.
  assert (Hf : OTP.findOne e OTP.email_verification (snd created) = Some (fst created))
    by apply findOne_single, createOTP_unverified.
  assert (Hv : OTP.verifyOTP env' e (OTP.otp (fst created)) OTP.email_verification
                             (otps w1)
               = (OTP.mkResult true "OTP verified successfully" None,
                  OTP.save (OTP.with_attempts (OTP.attempts (fst created) + 1)
                              (OTP.with_verified true (fst created))) (snd created))).
  { rewrite Hotps. apply verifyOTP_correct_code; [done| |].
    - subst created. rewrite createOTP_docs. simpl. lia.
    - subst created. rewrite createOTP_docs. simpl. lia. }
  unfold signup_verify_otp. run_handler.
  cbn [Req.name Req.email Req.password Req.otp mail_otp].
  rewrite He. fold e.
  assert (Ht : truthy (Some (OTP.otp (fst created))) = true).
  { subst created. rewrite createOTP_docs. simpl. by rewrite generateOTP_nonempty. }
  assert (Htn : truthy (Some n) = true) by (by apply negb_true_iff, String.eqb_neq).
  assert (Htp : truthy (Some pw) = true) by (by apply negb_true_iff, String.eqb_neq).
  rewrite Ht, Htn, Htp. cbn [negb orb].
  change (field (Some (OTP.otp (fst created)))) with (OTP.otp (fst created)).
  change (field (Some n)) with n. change (field (Some pw)) with pw.
  rewrite Hv. cbn [OTP.success negb users set_otps]. rewrite Husers.
  destruct (User.findOne e (users w)) as [u|] eqn:Hfound.
  - rewrite (Hu u eq_refl). cbn -[User.findOne]. split; [done|].
    exists (User.mkDoc (User._id u) n (User.email u) (bcrypt_hash env' pw) true
                       (Some (now env')) (User.isDeleted u) (User.lastLoginAt u)
                       (User.role u) (User.isAdmin u) (User.passwordResetAt u)
                       (User.failedLoginAttempts u) (User.accountLockedUntil u)).
    split; [|done]. rewrite Husers.
    apply (User_findOne_save e u); [done| |done].
    simpl. by apply (User_findOne_email e (users w)).
  - cbn -[User.findOne User.create].
    pose proof (User_findOne_create n e (bcrypt_hash env' pw) true (Some (now env'))
                  (users w) Hfound) as Hc.
    rewrite Husers.
    destruct (User.create _ _ _ _ _ _) as [u c] eqn:Ecreate.
    cbn -[User.findOne]. split; [done|]. exists u. split; [exact Hc|].
    unfold User.create in Ecreate. injection Ecreate as <- _. done.
Qed.

Lemma resend_then_signup_verify_witness :
  let env := example_env 1000 (1 # 2) Accepts in
  let env' := example_env 2000 (1 # 2) Accepts in
  let b := Req.mkBody None (Some "dan@example.org") None None (Some "email_verification")
                      None None in
  let w1 := snd (run (resend_otp env b) initial_world) in
  exists m,
    outbox w1 = (outbox initial_world ++ [m])%list /\ mail_to m = "dan@example.org" /\
    let b' := Req.mkBody (Some "Dan") (Req.email b) (Some "weak") (Some (mail_otp m))
                         None None None in
    let R := run (signup_verify_otp env' b') w1 in
    Res.status (fst R) = 201 /\
    exists u, User.findOne "dan@example.org" (users (snd R)) = Some u /\
              User.isEmailVerified u = true /\
              User.password u = bcrypt_hash env' "weak".
Proof.
  cbv zeta.
  refine (resend_then_signup_verify (example_env 1000 (1 # 2) Accepts)
            (example_env 2000 (1 # 2) Accepts)
            (Req.mkBody None (Some "dan@example.org") None None (Some "email_verification")
                        None None)
            "Dan" "weak" initial_world _ _ _ _ _ _ _).
  - reflexivity.
  - reflexivity.
  - vm_compute. reflexivity.
  - simpl. lia.
  - discriminate.
  - discriminate.
  - intros u Hu. vm_compute in Hu. discriminate.
Defined.

End Routes.


(* ===================================================================== *)
(** * The screens against the routes *)
(* ===================================================================== *)

Section Screens.

(** X27.  What the forgot-password screen posts is an address in the
    form the server works with: valid, and already lower-cased and
    trimmed, so that the server's normalisation leaves it as it is; and
    [/forgot-password/request-otp] never answers it with a 400. *)
Theorem handleForgotPassword_accepted email b env w :
  ForgotPasswordScreen.handleForgotPassword email = inr b ->
  exists e,
    Req.email b = Some e /\ isValidEmail e = true /\
    trim (toLowerCase e) = e /\
    Res.status (fst (run (forgot_password_request_otp env b) w)) <> 400.
Proof.
  unfold ForgotPasswordScreen.handleForgotPassword.
  destruct (String.eqb (trim email) "") eqn:E1; [discriminate|].
  destruct (isValidEmail (trim email)) eqn:E2; simpl; [|discriminate].
  intros [= <-]. exists (toLowerCase (trim email)).
  split; [done|]. split; [by rewrite isValidEmail_lower|].
  split; [by rewrite toLowerCase_idem, <- toLowerCase_trim, trim_idem|].
  unfold forgot_password_request_otp. run_handler. simpl.
  rewrite eqb_empty_lower, E1. simpl.
  step_through.
Qed.

Lemma handleForgotPassword_accepted_witness :
  let b := Req.mkBody None (Some ann) None None None None None in
  exists e,
    Req.email b = Some e /\ isValidEmail e = true /\
    trim (toLowerCase e) = e /\
    Res.status (fst (run (forgot_password_request_otp (example_env 3000 (1 # 4) Accepts) b)
                         world_registered)) <> 400.
Proof.
  cbv zeta.
  apply (handleForgotPassword_accepted " Ann@Gmail.com ").
  vm_compute. reflexivity.
Defined.

(** X28.  What the reset-password screen posts passes the server's
    input validation: both passwords were equal, the new one satisfies
    the server's rule, a credential is attached, and [/reset-password]
    never answers the request with a 400. *)
Theorem handleResetPassword_accepted np cp tok b env w :
  ResetPasswordScreen.handleResetPassword np cp tok = inr b ->
  np = cp /\ isStrongPassword np = true /\
  Req.newPassword b = Some np /\ Req.resetToken b = tok /\ tok <> None /\
  Res.status (fst (run (reset_password env b) w)) <> 400.
Proof.
  unfold ResetPasswordScreen.handleResetPassword.
  destruct (String.eqb np "") eqn:E1; simpl; [discriminate|].
  destruct (String.eqb cp ""); simpl; [discriminate|].
  destruct (ResetPasswordScreen.validatePassword np) eqn:E2; [discriminate|].
  apply validatePassword_strong in E2.
  destruct (String.eqb_spec np cp) as [->|]; simpl; [|discriminate].
  destruct tok as [t|]; [|discriminate].
  intros [= <-]. repeat split; try done.
  unfold reset_password. run_handler. simpl. rewrite E1, E2. simpl.
  step_through.
Qed.

Lemma handleResetPassword_accepted_witness :
  let tok := Signed "secret" 904 (mkPayload None (Some ann) (Some "password_reset")) in
  let b := Req.mkBody None None None None None (Some "N3wPassword") (Some tok) in
  "N3wPassword" = "N3wPassword" /\ isStrongPassword "N3wPassword" = true /\
  Req.newPassword b = Some "N3wPassword" /\ Req.resetToken b = Some tok /\
  Some tok <> None /\
  Res.status (fst (run (reset_password (example_env 5000 (1 # 2) Accepts) b) world_forgot))
  <> 400.
Proof.
  cbv zeta.
  apply (handleResetPassword_accepted "N3wPassword" "N3wPassword"
           (Some (Signed "secret" 904 (mkPayload None (Some ann) (Some "password_reset"))))).
  vm_compute. reflexivity.
Defined.

(** X29.  The other reset-password screen checks the same things but
    not the credential: its request is answered 400 exactly when the
    screen was opened without a [resetToken]. *)
Theorem handleResetPassword_without_token np cp tok b env w :
  ResetPasswordNewScreen.handleResetPassword np cp tok = inr b ->
  np = cp /\ isStrongPassword np = true /\
  Req.newPassword b = Some np /\ Req.resetToken b = tok /\
  (Res.status (fst (run (reset_password env b) w)) = 400 <-> tok = None).
Proof.
  unfold ResetPasswordNewScreen.handleResetPassword.
  destruct (String.eqb np "") eqn:E1; simpl; [discriminate|].
  destruct (String.eqb cp ""); simpl; [discriminate|].
  destruct (String.eqb_spec np cp) as [->|]; simpl; [|discriminate].
  change (ResetPasswordNewScreen.isStrongPassword cp) with (isStrongPassword cp).
  destruct (isStrongPassword cp) eqn:E2; simpl; [|discriminate].
  intros [= <-]. repeat split; try done.
  - unfold reset_password. run_handler. simpl. rewrite E1, E2.
    destruct tok as [t|]; simpl; [|done]. step_through.
  - intros ->. unfold reset_password. run_handler. done.
Qed.

Lemma handleResetPassword_without_token_witness :
  let b := Req.mkBody None None None None None (Some "N3wPassword") None in
  Res.status (fst (run (reset_password (example_env 5000 (1 # 2) Accepts) b) world_forgot))
  = 400.
Proof.
  cbv zeta.
  destruct (handleResetPassword_without_token "N3wPassword" "N3wPassword" None
              (Req.mkBody None None None None None (Some "N3wPassword") None)
              (example_env 5000 (1 # 2) Accepts) world_forgot) as (_ & _ & _ & _ & H).
  - vm_compute. reflexivity.
  - by apply H.
Defined.

End Screens.
